(** * Subsurface: the dive-plan narrative generator (core/plannernotes.c)

    A shallow embedding of [diveplan_duration], [add_icd_entry] and
    [add_plan_to_notes], followed by the properties of the plan report.

    Conventions of the embedding.
    - C [int] quantities (mm, seconds, mbar, mliter, permille) are values of
      [Z]; the program computes with them far below [INT_MAX] and signed
      overflow is undefined in C, so no wrap-around is written out.  C integer
      division truncates towards zero and is [Z.quot].
    - C [double] arithmetic is idealised as exact arithmetic on [Q]; [lrint]
      rounds to the nearest integer, ties to even.  A division by zero,
      which gives an infinity in C, gives 0 in [Q]; the program divides by
      constants and by the compressibility factor of a gas only.
    - The html text written with [snprintf] is kept as a list of structured
      [chunk]s, one per piece of text the function appends, with the
      arguments of the format string as fields.  The capacities of the
      buffers ([sz_buffer], [sz_temp], [sz_icdbuf]) are not modelled.
    - A [NULL] pointer is [None]; dereferencing it is the fault [NullDeref].
      The cylinder array of a dive is a list; indexing it out of range is the
      fault [OutOfBounds]. *)

From Stdlib Require Import ZArith QArith Qround List Bool Lia String.
From Stdlib Require Import Permutation Sorted.
Import ListNotations.

Local Open Scope Z_scope.

(** ** Results of fallible code *)

Inductive fault : Type :=
| NullDeref
| OutOfBounds
| OutOfFuel.

Inductive res (A : Type) : Type :=
| Ok (a : A)
| Fault (f : fault).

Arguments Ok {A} a.
Arguments Fault {A} f.

Definition bind {A B : Type} (m : res A) (k : A -> res B) : res B :=
  match m with
  | Ok a => k a
  | Fault f => Fault f
  end.

Notation "x <- m ;; k" := (bind m (fun x => k))
  (at level 61, m at next level, right associativity).

(** [*p] for a pointer that may be [NULL]. *)
Definition deref {A : Type} (p : option A) : res A :=
  match p with
  | Some a => Ok a
  | None => Fault NullDeref
  end.

(** Short-circuit [a && b] and [a || b] where evaluating [b] may fault. *)
Definition andr (a b : res bool) : res bool :=
  x <- a ;; if x then b else Ok false.

Definition orr (a b : res bool) : res bool :=
  x <- a ;; if x then Ok true else b.

Definition is_some {A : Type} (p : option A) : bool :=
  match p with Some _ => true | None => false end.

Definition is_null {A : Type} (p : option A) : bool := negb (is_some p).

(** ** Numbers *)

Definition Qltb (a b : Q) : bool := negb (Qle_bool b a).

Definition Zneqb (a b : Z) : bool := negb (a =? b).

(** [lrint] of the C library in the default rounding mode. *)
Definition lrint (x : Q) : Z :=
  let f := Qfloor x in
  let r := (x - inject_Z f)%Q in
  if Qltb r (1 # 2) then f
  else if Qltb (1 # 2) r then f + 1
  else if Z.even f then f else f + 1.

(** The cast [(int) x] of a double: truncation towards zero. *)
Definition double_to_int (x : Q) : Z :=
  if Qltb x 0 then Qceiling x else Qfloor x.

(** ** Data model *)

Record gasmix : Type := mkGasmix {
  o2 : Z;   (* permille *)
  he : Z    (* permille *)
}.

Inductive cylinder_use_type : Type :=
| OC_GAS | DILUENT | OXYGEN | NOT_USED.

Inductive divemode_t : Type :=
| OC | CCR | PSCR | FREEDIVE.

Inductive deco_mode : Type :=
| BUEHLMANN | RECREATIONAL | VPMB.

Record cylinder_t : Type := mkCylinder {
  type_size : Z;        (* type.size.mliter *)
  cyl_gasmix : gasmix;
  start_mbar : Z;       (* start.mbar *)
  end_mbar : Z;         (* end.mbar *)
  gas_used : Z;         (* gas_used.mliter *)
  deco_gas_used : Z;    (* deco_gas_used.mliter *)
  cylinder_use : cylinder_use_type
}.

(** A waypoint.  The field [minimum_gas] is only ever written by
    [add_plan_to_notes], never read: it is returned as an output of the
    function instead of being stored here. *)
Record divedatapoint : Type := mkDp {
  time : Z;             (* seconds *)
  depth : Z;            (* depth.mm *)
  cylinderid : Z;
  setpoint : Z;         (* mbar, 0 for open circuit *)
  entered : bool
}.

Record diveplan : Type := mkPlan {
  dp : list divedatapoint;   (* the linked list, [nil] for NULL *)
  surface_interval : Z;
  surface_pressure : Z;
  gflow : Z;
  gfhigh : Z;
  vpmb_conservatism : Z;
  eff_gflow : Z;
  eff_gfhigh : Z
}.

Record preferences : Type := mkPrefs {
  verbatim_plan : bool;
  display_runtime : bool;
  display_duration : bool;
  display_transitions : bool;
  display_variations : bool;
  bottomsac : Z;
  decosac : Z;
  sacfactor : Z;
  problemsolvingtime : Z;
  bottompo2 : Z;
  decopo2 : Z
}.

Record icd_data : Type := mkIcd {
  dN2 : Z;
  dHe : Z
}.

Record gas_pressures : Type := mkPressures {
  p_o2 : Q;
  p_n2 : Q;
  p_he : Q
}.

(** ** The report *)

Inductive color : Type :=
| Red | DarkGrey (* #383838 *) | Green | Grey | IndianRed.

(** The two table rows [add_icd_entry] writes for one gas change. *)
Record icd_entry : Type := mkIcdEntry {
  icd_runtime : Z;
  icd_from : gasmix;
  icd_to : gasmix;
  icd_dHe_pct : Q;
  icd_dN2_color : color;
  icd_dN2_pct : Q;
  icd_max_dN2_pct : Q;
  icd_dHe_bar : Q;
  icd_dN2_bar_color : color;
  icd_dN2_bar : Q;
  icd_max_dN2_bar : Q
}.

Inductive icd_chunk : Type :=
| IcdHeader
| IcdRow (e : icd_entry).

Inductive segment_symbol : Type :=
| SymAscent      (* up-right arrow *)
| SymDescent     (* down-right arrow *)
| SymEntered     (* right arrow *)
| SymDecoStop.   (* minus sign *)

Inductive gas_cell : Type :=
| GasCell (g : gasmix) (sp : option Q)
| BlankCell.

Record leg_row : Type := mkRow {
  row_symbol : segment_symbol;
  row_depth : Q;
  row_duration : option Z;
  row_runtime : option Z;
  row_gas : gas_cell
}.

Record verbatim_line : Type := mkLine {
  line_depth : Q;
  line_duration : Z * Z;
  line_runtime : Z * Z;
  line_gas : gasmix;
  line_setpoint : option Q
}.

Inductive cylinder_warning : Type :=
| MoreGasThanAvailable
| NotEnoughReserve
| MinimumGasExceedsStart.

Definition warning_text (w : cylinder_warning) : string :=
  match w with
  | MoreGasThanAvailable =>
      "this is more gas than available in the specified cylinder!"
  | NotEnoughReserve =>
      "not enough reserve for gas sharing on ascent!"
  | MinimumGasExceedsStart =>
      "required minimum gas for ascent already exceeding start pressure of cylinder!"
  end.

Record mingas_note : Type := mkMingas {
  mingas_color : color;
  mingas_factor : Q;
  mingas_time : Z;
  mingas_depth : Q;
  mingas_volume : Q;
  mingas_pressure : Q;
  mingas_delta_color : color;
  mingas_d_pressure : Q
}.

Record cylinder_line : Type := mkCylLine {
  cl_volume : Q;
  cl_pressure : option Q;
  cl_gas : gasmix;
  cl_deco : option (Q * option Q);
  cl_warning : option cylinder_warning;
  cl_mingas : option mingas_note
}.

Inductive po2_kind : Type := HighPO2 | LowPO2.

Inductive deco_line : Type :=
| DecoBuehlmann (lo hi : Z)
| DecoVpmb (conservatism : Z) (eff : option (Z * Z))
| DecoRecreational (lo hi : Z).

Inductive chunk : Type :=
| AbortWarning
| Disclaimer (model : deco_mode)
| BannerOverlapping
| BannerCreated (date : string)
| BannerInterval (interval : Z * Z) (date : string)
| RuntimeLine (minutes : Z) (variations : bool)
| TableHead (duration runtime : bool)
| Transition (l : verbatim_line)
| Stay (l : verbatim_line)
| LegRow (r : leg_row)
| SwitchGas (g : gasmix) (sp : option Q)
| TableEnd
| CnsOtu (cns otu : Z)
| DecoModel (d : deco_line)
| AtmPressure (mbar altitude : Z)
| ConsumptionHead (sac : option (Q * Q))
| Consumption (c : cylinder_line)
| IcdTable (t : list icd_chunk)
| IcdWarning
| IcdSectionEnd
| PO2Open
| PO2Warning (k : po2_kind) (po2 : Q) (at_time : Z * Z) (g : gasmix) (d : Q)
| ReportEnd.

Record dive : Type := mkDive {
  cylinder : list cylinder_t;     (* cylinder[MAX_CYLINDERS] *)
  notes : option (list chunk);
  cns : Z;
  maxcns : Z;
  otu : Z;
  sac : Z;
  dc_divemode : divemode_t
}.

Definition set_notes (d : dive) (n : option (list chunk)) : dive :=
  mkDive (cylinder d) n (cns d) (maxcns d) (otu d) (sac d) (dc_divemode d).

Definition set_cns (d : dive) (c : Z) : dive :=
  mkDive (cylinder d) (notes d) c (maxcns d) (otu d) (sac d) (dc_divemode d).

Definition set_maxcns (d : dive) (c : Z) : dive :=
  mkDive (cylinder d) (notes d) (cns d) c (otu d) (sac d) (dc_divemode d).

(** [dive->cylinder[i]] *)
Definition cylinder_at (d : dive) (i : Z) : res cylinder_t :=
  if i <? 0 then Fault OutOfBounds
  else match nth_error (cylinder d) (Z.to_nat i) with
       | Some c => Ok c
       | None => Fault OutOfBounds
       end.

(** ** Collaborators

    Functions and macros that [plannernotes.c] calls and that are declared in
    headers ([dive.h], [deco.h], [planner.h], [units.h], [qthelperfromc.h])
    whose definitions are not part of the sources at hand.  They are taken as
    parameters.  Out-parameters that only carry a unit name or a number of
    decimals are left out; [isobaric_counterdiffusion] returns its result
    together with the [icd_data] it fills, and [fill_pressures] the
    pressures it fills. *)

Class Collaborators : Type := {
  decoMode : deco_mode;
  gasmix_distance : gasmix -> gasmix -> Z;
  get_he : gasmix -> Z;
  isobaric_counterdiffusion : gasmix -> gasmix -> bool * icd_data;
  depth_to_mbar : Z -> dive -> Z;
  depth_to_bar : Z -> dive -> Q;
  depth_to_atm : Z -> dive -> Q;
  fill_pressures : Q -> gasmix -> Q -> divemode_t -> gas_pressures;
  isothermal_pressure : gasmix -> Q -> Z -> Z -> Q;
  gas_compressibility_factor : gasmix -> Q -> Q;
  cylinder_none : cylinder_t -> bool;
  update_cylinder_related_info : dive -> dive;
  get_depth_units : Z -> Q;
  get_volume_units : Z -> Q;
  get_pressure_units : Z -> Q;
  FRACTION : Z -> Z -> Z * Z;
  (* (int) (log(1013.0 / surface_pressure) * 7800000) *)
  altitude_mm : Z -> Z
}.

Section PlannerNotes.

Context `{Collaborators}.

(** ** diveplan_duration *)

Fixpoint max_time (l : list divedatapoint) (duration : Z) : Z :=
  match l with
  | [] => duration
  | p :: rest => max_time rest (if duration <? time p then time p else duration)
  end.

Definition diveplan_duration (plan : diveplan) : Z :=
  Z.quot (max_time (dp plan) 0 + 30) 60.

(** ** add_icd_entry *)

Definition icd_color (v : icd_data) : color :=
  if 5 * dN2 v >? - dHe v then Red else DarkGrey.

Definition add_icd_entry (icdvalues : icd_data) (time_seconds : Z)
    (ambientpressure_mbar : Z) (gas_from gas_to : gasmix) : icd_entry :=
  {| icd_runtime := Z.quot (time_seconds + 30) 60;
     icd_from := gas_from;
     icd_to := gas_to;
     icd_dHe_pct := inject_Z (dHe icdvalues) / 10;
     icd_dN2_color := icd_color icdvalues;
     icd_dN2_pct := inject_Z (dN2 icdvalues) / 10;
     icd_max_dN2_pct := (2 # 10) * (inject_Z (- dHe icdvalues) / 10);
     icd_dHe_bar :=
       inject_Z (ambientpressure_mbar * dHe icdvalues) / 1000000;
     icd_dN2_bar_color := icd_color icdvalues;
     icd_dN2_bar :=
       inject_Z (ambientpressure_mbar * dN2 icdvalues) / 1000000;
     icd_max_dN2_bar :=
       inject_Z (ambientpressure_mbar * - dHe icdvalues) / 5000000 |}%Q.

(** ** add_plan_to_notes: the state of the waypoint loop *)

Record loop_state : Type := mkState {
  buffer : list chunk;
  icdbuffer : list icd_chunk;
  lastdepth : Z;
  lasttime : Z;
  lastsetpoint : Z;
  newdepth : Z;
  lastprintdepth : Z;
  lastprintsetpoint : Z;
  lastprintgasmix : gasmix;
  lastentered : bool;
  icdwarning : bool;
  lastbottomdp : option divedatapoint
}.

Definition emit (c : chunk) (st : loop_state) : loop_state :=
  mkState (buffer st ++ [c]) (icdbuffer st) (lastdepth st) (lasttime st)
    (lastsetpoint st) (newdepth st) (lastprintdepth st)
    (lastprintsetpoint st) (lastprintgasmix st) (lastentered st)
    (icdwarning st) (lastbottomdp st).

Definition set_icd (w : bool) (b : list icd_chunk) (st : loop_state)
    : loop_state :=
  mkState (buffer st) b (lastdepth st) (lasttime st)
    (lastsetpoint st) (newdepth st) (lastprintdepth st)
    (lastprintsetpoint st) (lastprintgasmix st) (lastentered st)
    w (lastbottomdp st).

(** [newdepth = dp->depth.mm; lasttime = dp->time;] *)
Definition set_printed (p : divedatapoint) (st : loop_state) : loop_state :=
  mkState (buffer st) (icdbuffer st) (lastdepth st) (time p)
    (lastsetpoint st) (depth p) (lastprintdepth st)
    (lastprintsetpoint st) (lastprintgasmix st) (lastentered st)
    (icdwarning st) (lastbottomdp st).

Definition set_lastprintsetpoint (s : Z) (st : loop_state) : loop_state :=
  mkState (buffer st) (icdbuffer st) (lastdepth st) (lasttime st)
    (lastsetpoint st) (newdepth st) (lastprintdepth st)
    s (lastprintgasmix st) (lastentered st)
    (icdwarning st) (lastbottomdp st).

Definition set_lastprintgasmix (g : gasmix) (st : loop_state) : loop_state :=
  mkState (buffer st) (icdbuffer st) (lastdepth st) (lasttime st)
    (lastsetpoint st) (newdepth st) (lastprintdepth st)
    (lastprintsetpoint st) g (lastentered st)
    (icdwarning st) (lastbottomdp st).

Definition set_lastbottomdp (p : divedatapoint) (st : loop_state)
    : loop_state :=
  mkState (buffer st) (icdbuffer st) (lastdepth st) (lasttime st)
    (lastsetpoint st) (newdepth st) (lastprintdepth st)
    (lastprintsetpoint st) (lastprintgasmix st) (lastentered st)
    (icdwarning st) (Some p).

(** The end of the loop body:
    [lastprintdepth = newdepth; lastdepth = dp->depth.mm;
     lastsetpoint = dp->setpoint; lastentered = dp->entered;] *)
Definition end_of_leg (p : divedatapoint) (st : loop_state) : loop_state :=
  mkState (buffer st) (icdbuffer st) (depth p) (lasttime st)
    (setpoint p) (newdepth st) (newdepth st)
    (lastprintsetpoint st) (lastprintgasmix st) (entered p)
    (icdwarning st) (lastbottomdp st).

(** [while (nextdp && nextdp->time == 0) nextdp = nextdp->next;] *)
Fixpoint skip_zero (l : list divedatapoint) : list divedatapoint :=
  match l with
  | [] => []
  | n :: rest => if time n =? 0 then skip_zero rest else l
  end.

Definition head_dp (l : list divedatapoint) : option divedatapoint :=
  match l with
  | [] => None
  | n :: _ => Some n
  end.

(** [(double) setpoint / 1000.0] when the setpoint is set. *)
Definition setpoint_bar (sp : Z) : Q := (inject_Z sp / 1000)%Q.

(** [dp->depth.mm != q->depth.mm] for a pointer [q] that may be [NULL]. *)
Definition depth_differs (p : divedatapoint) (q : option divedatapoint)
    : res bool :=
  n <- deref q ;; Ok (Zneqb (depth p) (depth n)).

(** The isobaric counterdiffusion calculation for one gas change away from
    [lastprintgasmix], and its two rows in the ICD table. *)
Definition record_icd (d : dive) (p : divedatapoint) (time_seconds : Z)
    (gas_to : gasmix) (st : loop_state) : loop_state :=
  let r := isobaric_counterdiffusion (lastprintgasmix st) gas_to in
  set_icd (if fst r then true else icdwarning st)
    (icdbuffer st ++
       [IcdRow (add_icd_entry (snd r) time_seconds
                  (depth_to_mbar (depth p) d) (lastprintgasmix st) gas_to)])
    st.

Section Loop.

Variable prefs : preferences.
Variable d : dive.

Let plan_verbatim := verbatim_plan prefs.
Let plan_display_runtime := display_runtime prefs.
Let plan_display_duration := display_duration prefs.
Let plan_display_transitions := display_transitions prefs.

Definition line_of (st : loop_state) (p : divedatapoint) (g : gasmix)
    : verbatim_line :=
  {| line_depth := get_depth_units (depth p);
     line_duration := FRACTION (time p - lasttime st) 60;
     line_runtime := FRACTION (time p) 60;
     line_gas := g;
     line_setpoint :=
       if Zneqb (setpoint p) 0 then Some (setpoint_bar (setpoint p))
       else None |}.

(** Lines 229-269: one waypoint of the verbatim plan. *)
Definition verbatim_segment (st : loop_state) (p : divedatapoint)
    (next nextdp : option divedatapoint) (g : gasmix)
    (gaschange_after : bool) : res loop_state :=
  if Zneqb (depth p) (lastprintdepth st) then
    show <- orr (Ok plan_display_transitions)
              (orr (Ok (entered p))
                 (orr (Ok (is_null next))
                    (andr (Ok gaschange_after)
                       (andr (Ok (is_some next))
                          (depth_differs p nextdp))))) ;;
    Ok (set_printed p
          (if show then emit (Transition (line_of st p g)) st else st))
  else
    show <- orr (andr (Ok (is_some nextdp)) (depth_differs p nextdp))
              (Ok gaschange_after) ;;
    Ok (if show then set_printed p (emit (Stay (line_of st p g)) st)
        else st).

Definition segment_symbol_of (st : loop_state) (p : divedatapoint)
    (isascent : bool) : segment_symbol :=
  if isascent then SymAscent
  else if depth p >? lastdepth st then SymDescent
  else if entered p then SymEntered
  else SymDecoStop.

Definition row_of (st : loop_state) (p : divedatapoint) (isascent : bool)
    (cell : gas_cell) : leg_row :=
  {| row_symbol := segment_symbol_of st p isascent;
     row_depth := get_depth_units (depth p);
     row_duration :=
       if plan_display_duration
       then Some (Z.quot (time p - lasttime st + 30) 60) else None;
     row_runtime :=
       if plan_display_runtime
       then Some (Z.quot (time p + 30) 60) else None;
     row_gas := cell |}.

(** Line 287: is the segment printed in the collapsed plan? *)
Definition print_segment (st : loop_state) (p : divedatapoint)
    (next nextdp : option divedatapoint)
    (isascent gaschange_before gaschange_after : bool) : res bool :=
  orr (Ok plan_display_transitions)
  (orr (Ok (entered p))
  (orr (Ok (is_null next))
  (orr (andr (Ok (is_some nextdp)) (depth_differs p nextdp))
  (orr (andr (Ok (negb isascent && gaschange_before && is_some nextdp))
          (depth_differs p nextdp))
  (orr (Ok (gaschange_after && lastentered st))
  (orr (Ok (gaschange_after && negb isascent))
  (orr (andr (Ok (isascent && gaschange_after && is_some nextdp))
          (depth_differs p nextdp))
       (Ok (lastentered st && negb (entered p)))))))))).

(** Line 319: is the gas change shown at the end of this segment? *)
Definition trailing_gaschange (p : divedatapoint)
    (next nextdp : option divedatapoint)
    (isascent gaschange_after : bool) : res bool :=
  andr (Ok ((isascent || entered p) && gaschange_after
            && is_some next && is_some nextdp))
       (orr (depth_differs p nextdp)
            (n <- deref nextdp ;; Ok (entered n))).

(** Lines 287-361: one waypoint of the collapsed plan.  The second
    component is [gaschange_after] as the segment leaves it. *)
Definition collapsed_segment (st : loop_state) (p : divedatapoint)
    (next nextdp : option divedatapoint) (g newgasmix : gasmix)
    (isascent gaschange_before gaschange_after : bool)
    : res (loop_state * bool) :=
  show <- print_segment st p next nextdp isascent gaschange_before
            gaschange_after ;;
  if negb show then Ok (st, gaschange_after)
  else
    trailing <- trailing_gaschange p next nextdp isascent gaschange_after ;;
    if trailing then
      n <- deref nextdp ;;
      let st1 :=
        if Zneqb (setpoint p) 0 then
          emit (LegRow (row_of st p isascent
                  (GasCell newgasmix (Some (setpoint_bar (setpoint n)))))) st
        else
          let st' :=
            emit (LegRow (row_of st p isascent (GasCell newgasmix None))) st in
          if isascent && (get_he (lastprintgasmix st) >? 0)
          then record_icd d p (time p) newgasmix st'
          else st' in
      Ok (set_printed p
            (set_lastprintgasmix newgasmix
               (set_lastprintsetpoint (setpoint n) st1)), false)
    else if gaschange_before then
      let st1 :=
        if Zneqb (setpoint p) 0 then
          emit (LegRow (row_of st p isascent
                  (GasCell g (Some (setpoint_bar (setpoint p)))))) st
        else
          let st' :=
            emit (LegRow (row_of st p isascent (GasCell g None))) st in
          if get_he (lastprintgasmix st) >? 0
          then record_icd d p (lasttime st) g st'
          else st' in
      Ok (set_printed p
            (set_lastprintgasmix g
               (set_lastprintsetpoint (setpoint p) st1)), false)
    else
      Ok (set_printed p (emit (LegRow (row_of st p isascent BlankCell)) st),
          gaschange_after).

(** Lines 363-383: the gas switch line of the verbatim plan. *)
Definition verbatim_switch (st : loop_state) (p : divedatapoint)
    (nextdp : option divedatapoint) (newgasmix : gasmix)
    (isascent : bool) : res loop_state :=
  st1 <-
    (if lastsetpoint st >=? 0 then
       with_sp <- andr (Ok (is_some nextdp))
                    (n <- deref nextdp ;; Ok (Zneqb (setpoint n) 0)) ;;
       if with_sp then
         n <- deref nextdp ;;
         Ok (emit (SwitchGas newgasmix (Some (setpoint_bar (setpoint n)))) st)
       else
         Ok (emit (SwitchGas newgasmix None)
               (if isascent && (get_he (lastprintgasmix st) >? 0)
                then record_icd d p (time p) newgasmix st
                else st))
     else Ok st) ;;
  Ok (set_lastprintgasmix newgasmix st1).

(** Lines 188-203: [newgasmix], zero-initialised and then read from the
    cylinder of the next real waypoint, if there is one. *)
Definition next_gasmix (nextdp : option divedatapoint) : res gasmix :=
  match nextdp with
  | Some n => cn <- cylinder_at d (cylinderid n) ;; Ok (cyl_gasmix cn)
  | None => Ok (mkGasmix 0 0)
  end.

(** Line 204: [nextdp && (gasmix_distance(&gasmix, &newgasmix)
    || dp->setpoint != nextdp->setpoint)] *)
Definition gaschange_after_at (p : divedatapoint)
    (nextdp : option divedatapoint) (g newgasmix : gasmix) : bool :=
  match nextdp with
  | Some n => Zneqb (gasmix_distance g newgasmix) 0
              || Zneqb (setpoint p) (setpoint n)
  | None => false
  end.

(** Line 205: [gasmix_distance(&lastprintgasmix, &gasmix)
    || lastprintsetpoint != dp->setpoint] *)
Definition gaschange_before_at (st : loop_state) (p : divedatapoint)
    (g : gasmix) : bool :=
  Zneqb (gasmix_distance (lastprintgasmix st) g) 0
  || Zneqb (lastprintsetpoint st) (setpoint p).

(** Lines 206-215: is the waypoint passed over? *)
Definition skip_leg (st : loop_state) (p : divedatapoint)
    (next nextdp : option divedatapoint)
    (gaschange_before gaschange_after : bool) : res bool :=
  skip1 <-
    andr (Ok (negb (entered p) && is_some nextdp
              && Zneqb (depth p) (lastdepth st)))
      (andr (n <- deref nextdp ;; Ok (Zneqb (depth n) (depth p)))
         (Ok (negb gaschange_before && negb gaschange_after))) ;;
  if skip1 then Ok true
  else
    andr (Ok ((time p - lasttime st <? 10) && (lastdepth st =? depth p)))
      (x <- andr (Ok (gaschange_after && is_some next))
              (depth_differs p next) ;;
       Ok (negb x)).

(** Lines 217-387: the waypoint is reported. *)
Definition report_leg (st : loop_state) (p : divedatapoint)
    (next nextdp : option divedatapoint) (g newgasmix : gasmix)
    (isascent gaschange_before gaschange_after : bool) : res loop_state :=
  bottom <- andr (Ok (entered p))
              (n <- deref nextdp ;; Ok (negb (entered n))) ;;
  let st1 := if bottom then set_lastbottomdp p st else st in
  r <-
    (if plan_verbatim then
       s <- verbatim_segment st1 p next nextdp g gaschange_after ;;
       Ok (s, gaschange_after)
     else
       collapsed_segment st1 p next nextdp g newgasmix isascent
         gaschange_before gaschange_after) ;;
  st2 <-
    (if snd r && plan_verbatim
     then verbatim_switch (fst r) p nextdp newgasmix isascent
     else Ok (fst r)) ;;
  Ok (end_of_leg p st2).

(** Lines 188-387: the body of the waypoint loop for the waypoint [p]
    followed by [rest].  It returns the state and the pointer [nextdp] the
    loop goes on with; a [continue] leaves the state as it was. *)
Definition leg_step (st : loop_state) (p : divedatapoint)
    (rest : list divedatapoint) : res (loop_state * list divedatapoint) :=
  let isascent := depth p <? lastdepth st in
  let next := head_dp rest in
  if time p =? 0 then Ok (st, rest)
  else
    c <- cylinder_at d (cylinderid p) ;;
    let g := cyl_gasmix c in
    let nextl := skip_zero rest in
    let nextdp := head_dp nextl in
    newgasmix <- next_gasmix nextdp ;;
    let gaschange_after := gaschange_after_at p nextdp g newgasmix in
    let gaschange_before := gaschange_before_at st p g in
    skip <- skip_leg st p next nextdp gaschange_before gaschange_after ;;
    if skip then Ok (st, nextl)
    else
      s <- report_leg st p next nextdp g newgasmix isascent
             gaschange_before gaschange_after ;;
      Ok (s, nextl).

(** The loop [do { ... } while ((dp = nextdp) != NULL)], entered with a
    non-NULL [dp]. *)
Fixpoint legs (fuel : nat) (st : loop_state) (l : list divedatapoint)
    : res loop_state :=
  match l with
  | [] => Ok st
  | p :: rest =>
      match fuel with
      | O => Fault OutOfFuel
      | S fuel' =>
          r <- leg_step st p rest ;;
          legs fuel' (fst r) (snd r)
      end
  end.

End Loop.

(** ** add_plan_to_notes: gas consumption *)

Definition divemode_eqb (a b : divemode_t) : bool :=
  match a, b with
  | OC, OC | CCR, CCR | PSCR, PSCR | FREEDIVE, FREEDIVE => true
  | _, _ => false
  end.

Definition deco_mode_eqb (a b : deco_mode) : bool :=
  match a, b with
  | BUEHLMANN, BUEHLMANN | RECREATIONAL, RECREATIONAL | VPMB, VPMB => true
  | _, _ => false
  end.

Definition cylinder_use_eqb (a b : cylinder_use_type) : bool :=
  match a, b with
  | OC_GAS, OC_GAS | DILUENT, DILUENT | OXYGEN, OXYGEN
  | NOT_USED, NOT_USED => true
  | _, _ => false
  end.

Section Consumption.

Variable prefs : preferences.
Variable d : dive.

(** [cyl->end.mbar / 1000.0 * cyl->type.size.mliter
     / gas_compressibility_factor(&cyl->gasmix, cyl->end.mbar / 1000.0)] *)
Definition gas_at_end_pressure (cyl : cylinder_t) : Q :=
  (inject_Z (end_mbar cyl) / 1000 * inject_Z (type_size cyl)
   / gas_compressibility_factor (cyl_gasmix cyl)
       (inject_Z (end_mbar cyl) / 1000))%Q.

Definition remaining_gas (cyl : cylinder_t) : Z :=
  lrint (inject_Z (end_mbar cyl) * inject_Z (type_size cyl) / 1000
         / gas_compressibility_factor (cyl_gasmix cyl)
             (inject_Z (end_mbar cyl) / 1000))%Q.

Definition deco_pressure_mbar (cyl : cylinder_t) : Q :=
  (isothermal_pressure (cyl_gasmix cyl) 1
     (remaining_gas cyl + deco_gas_used cyl) (type_size cyl) * 1000
   - inject_Z (end_mbar cyl))%Q.

(** [mingasv.mliter] for the last bottom waypoint [lb]. *)
Definition mingas_mliter (lb : divedatapoint) (cyl : cylinder_t) : Z :=
  lrint (inject_Z (sacfactor prefs) / 100
         * inject_Z (problemsolvingtime prefs)
         * inject_Z (bottomsac prefs)
         * depth_to_bar (depth lb) d
         + inject_Z (sacfactor prefs) / 100
           * inject_Z (deco_gas_used cyl))%Q.

(** [lastbottomdp->minimum_gas.mbar] *)
Definition minimum_gas_mbar (lb : divedatapoint) (cyl : cylinder_t) : Z :=
  lrint (isothermal_pressure (cyl_gasmix cyl) 1 (mingas_mliter lb cyl)
           (type_size cyl) * 1000)%Q.

Definition mingas_margin (lb : divedatapoint) (cyl : cylinder_t) : Q :=
  get_pressure_units
    (lrint (inject_Z (end_mbar cyl) + deco_pressure_mbar cyl
            - inject_Z (minimum_gas_mbar lb cyl))%Q).

Definition mingas_note_of (lb : divedatapoint) (cyl : cylinder_t)
    : mingas_note :=
  let margin := mingas_margin lb cyl in
  {| mingas_color := if Qltb 0 margin then Green else Red;
     mingas_factor := (inject_Z (sacfactor prefs) / 100)%Q;
     mingas_time := problemsolvingtime prefs;
     mingas_depth := get_depth_units (depth lb);
     mingas_volume := get_volume_units (mingas_mliter lb cyl);
     mingas_pressure := get_pressure_units (minimum_gas_mbar lb cyl);
     mingas_delta_color := if Qltb 0 margin then Grey else IndianRed;
     mingas_d_pressure := margin |}.

(** Does the minimum gas calculation run for cylinder [gasidx]?  (Lines
    481-482, reached when no other warning was set.) *)
Definition mingas_applies (lastbottomdp : option divedatapoint)
    (gasidx : Z) : bool :=
  match lastbottomdp with
  | Some lb =>
      (gasidx =? cylinderid lb)
      && divemode_eqb (dc_divemode d) OC
      && negb (deco_mode_eqb decoMode RECREATIONAL)
  | None => false
  end.

(** Lines 483-516: the minimum gas calculation for the last bottom waypoint
    [lb]: the warning, the note and the value written to
    [lastbottomdp->minimum_gas.mbar]. *)
Definition minimum_gas (lb : divedatapoint) (cyl : cylinder_t)
    : option cylinder_warning * option mingas_note * option Z :=
  if start_mbar cyl >? minimum_gas_mbar lb cyl then
    (None, Some (mingas_note_of lb cyl), Some (minimum_gas_mbar lb cyl))
  else
    (Some MinimumGasExceedsStart, None, Some (minimum_gas_mbar lb cyl)).

(** Lines 458-517: the warning, the minimum gas note and the value written
    to [lastbottomdp->minimum_gas.mbar], for a cylinder with a size. *)
Definition cylinder_checks (lastbottomdp : option divedatapoint)
    (gasidx : Z) (cyl : cylinder_t)
    : option cylinder_warning * option mingas_note * option Z :=
  if end_mbar cyl <? 10000 then
    (Some MoreGasThanAvailable, None, None)
  else if Qltb (gas_at_end_pressure cyl) (inject_Z (deco_gas_used cyl)) then
    (Some NotEnoughReserve, None, None)
  else
    match lastbottomdp with
    | Some lb =>
        if mingas_applies lastbottomdp gasidx then minimum_gas lb cyl
        else (None, None, None)
    | None => (None, None, None)
    end.

(** Lines 448-536: the line of one cylinder. *)
Definition cylinder_consumption (lastbottomdp : option divedatapoint)
    (gasidx : Z) (cyl : cylinder_t) : cylinder_line * option Z :=
  let volume := get_volume_units (gas_used cyl) in
  let deco_volume := get_volume_units (deco_gas_used cyl) in
  if Zneqb (type_size cyl) 0 then
    let deco_pressure := get_pressure_units (lrint (deco_pressure_mbar cyl)) in
    let pressure := get_pressure_units (start_mbar cyl - end_mbar cyl) in
    let r := cylinder_checks lastbottomdp gasidx cyl in
    ({| cl_volume := volume;
        cl_pressure := Some pressure;
        cl_gas := cyl_gasmix cyl;
        cl_deco :=
          if lrint volume >? 0 then Some (deco_volume, Some deco_pressure)
          else None;
        cl_warning := fst (fst r);
        cl_mingas := snd (fst r) |}, snd r)
  else
    ({| cl_volume := volume;
        cl_pressure := None;
        cl_gas := cyl_gasmix cyl;
        cl_deco :=
          if lrint volume >? 0 then Some (deco_volume, None) else None;
        cl_warning := None;
        cl_mingas := None |}, None).

(** The loop over the cylinders, from [gasidx] on, up to the first unused
    one.  The second component is the last value written to
    [lastbottomdp->minimum_gas.mbar]. *)
Fixpoint consumption (lastbottomdp : option divedatapoint) (gasidx : Z)
    (cyls : list cylinder_t) : list chunk * option Z :=
  match cyls with
  | [] => ([], None)
  | cyl :: rest =>
      if cylinder_none cyl then ([], None)
      else
        let r := cylinder_consumption lastbottomdp gasidx cyl in
        let rs := consumption lastbottomdp (gasidx + 1) rest in
        (Consumption (fst r) :: fst rs,
         match snd rs with
         | Some m => Some m
         | None => snd r
         end)
  end.

(** ** add_plan_to_notes: warnings for pO2 *)

(** Lines 556-589 for one waypoint: the warning, if any. *)
Definition po2_warning (p : divedatapoint) : res (option chunk) :=
  if Zneqb (time p) 0 then
    c <- cylinder_at d (cylinderid p) ;;
    let g := cyl_gasmix c in
    let pressures :=
      fill_pressures (depth_to_atm (depth p) d) g 0 (dc_divemode d) in
    let ceiling :=
      (inject_Z (if entered p then bottompo2 prefs else decopo2 prefs)
       / 1000)%Q in
    if Qltb ceiling (p_o2 pressures) then
      Ok (Some (PO2Warning HighPO2 (p_o2 pressures) (FRACTION (time p) 60)
                  g (get_depth_units (depth p))))
    else if Qltb (p_o2 pressures) (16 # 100) then
      Ok (Some (PO2Warning LowPO2 (p_o2 pressures) (FRACTION (time p) 60)
                  g (get_depth_units (depth p))))
    else Ok None
  else Ok None.

(** The loop [while (dp)] of lines 555-591; [o2warning_exist] tells whether
    the [<div>] of the warnings is open. *)
Fixpoint po2_warnings (l : list divedatapoint) (o2warning_exist : bool)
    : res (list chunk) :=
  match l with
  | [] => Ok []
  | p :: rest =>
      w <- po2_warning p ;;
      match w with
      | Some c =>
          ws <- po2_warnings rest true ;;
          Ok ((if o2warning_exist then [] else [PO2Open]) ++ c :: ws)
      | None => po2_warnings rest o2warning_exist
      end
  end.

(** Lines 551-592: the warnings for pO2, skipped for a closed circuit
    dive. *)
Definition po2_section (l : list divedatapoint) : res (list chunk) :=
  if negb (divemode_eqb (dc_divemode d) CCR) then po2_warnings l false
  else Ok [].

End Consumption.

(** ** add_plan_to_notes *)

(** What the function leaves behind: the static text [disclaimer] points
    to, the dive, and [lastbottomdp->minimum_gas.mbar] when it was
    written. *)
Record globals : Type := mkGlobals {
  disclaimer : option chunk
}.

Record outcome : Type := mkOutcome {
  out_globals : globals;
  out_dive : dive;
  out_minimum_gas : option Z
}.

Definition initial_state (buf : list chunk) (icdbuf : list icd_chunk)
    : loop_state :=
  {| buffer := buf;
     icdbuffer := icdbuf;
     lastdepth := 0;
     lasttime := 0;
     lastsetpoint := -1;
     newdepth := 0;
     lastprintdepth := 0;
     lastprintsetpoint := -1;
     lastprintgasmix := mkGasmix (-1) (-1);
     lastentered := true;
     icdwarning := false;
     lastbottomdp := None |}.

(** Lines 167-185: is there an open circuit cylinder with helium? *)
Definition has_trimix (d : dive) : bool :=
  existsb (fun c => cylinder_use_eqb (cylinder_use c) OC_GAS
                    && (get_he (cyl_gasmix c) >? 0))
    (cylinder d).

Definition banner (plan : diveplan) (current_date : string) : chunk :=
  if surface_interval plan >=? 48 * 60 * 60 then BannerCreated current_date
  else BannerInterval (FRACTION (Z.quot (surface_interval plan) 60) 60)
         current_date.

Definition deco_model_line (plan : diveplan) : chunk :=
  DecoModel
    match decoMode with
    | BUEHLMANN => DecoBuehlmann (gflow plan) (gfhigh plan)
    | VPMB =>
        DecoVpmb (vpmb_conservatism plan)
          (if Zneqb (eff_gflow plan) 0
           then Some (eff_gflow plan, eff_gfhigh plan) else None)
    | RECREATIONAL => DecoRecreational (gflow plan) (gfhigh plan)
    end.

(** Lines 393-395: [dive->cns = 0; dive->maxcns = 0;
    update_cylinder_related_info(dive);] *)
Definition recompute_statistics (d : dive) : dive :=
  update_cylinder_related_info (set_maxcns (set_cns d 0) 0).

(** Lines 116-594: the report of a plan that has waypoints, was computed
    without error and does not overlap another dive. *)
Definition full_report (prefs : preferences) (current_date : string)
    (plan : diveplan) (d : dive) (show_disclaimer : bool) (text : chunk)
    : res (dive * option Z) :=
  let istrimix := has_trimix d in
  let st0 :=
    initial_state
      ((if show_disclaimer then [text] else [])
       ++ [banner plan current_date;
           RuntimeLine (diveplan_duration plan)
             (display_variations prefs
              && negb (deco_mode_eqb decoMode RECREATIONAL))]
       ++ (if verbatim_plan prefs then []
           else [TableHead (display_duration prefs) (display_runtime prefs)]))
      (if istrimix then [IcdHeader] else []) in
  st <- legs prefs d (List.length (dp plan)) st0 (dp plan) ;;
  let d1 := recompute_statistics d in
  let cyls := consumption prefs d1 (lastbottomdp st) 0 (cylinder d1) in
  pw <- po2_section prefs d1 (dp plan) ;;
  Ok (set_notes d1
        (Some (buffer st
               ++ (if verbatim_plan prefs then [] else [TableEnd])
               ++ [CnsOtu (cns d1) (otu d1);
                   deco_model_line plan;
                   AtmPressure (surface_pressure plan)
                     (double_to_int
                        (get_depth_units
                           (altitude_mm (surface_pressure plan))));
                   ConsumptionHead
                     (if divemode_eqb (dc_divemode d1) CCR then None
                      else Some (get_volume_units (bottomsac prefs),
                                 get_volume_units (decosac prefs)))]
               ++ fst cyls
               ++ (if istrimix
                   then [IcdTable (icdbuffer st)]
                        ++ (if icdwarning st then [IcdWarning] else [])
                        ++ [IcdSectionEnd]
                   else [])
               ++ pw
               ++ [ReportEnd])),
      snd cyls).

Definition add_plan_to_notes (gl : globals) (prefs : preferences)
    (current_date : string) (plan : diveplan) (d : dive)
    (show_disclaimer : bool) (error : Z) : res outcome :=
  let text := Disclaimer (if deco_mode_eqb decoMode VPMB
                          then VPMB else BUEHLMANN) in
  let gl' := mkGlobals (Some text) in
  match dp plan with
  | [] => Ok (mkOutcome gl' d None)
  | _ :: _ =>
      if Zneqb error 0 then
        Ok (mkOutcome gl' (set_notes d (Some [AbortWarning])) None)
      else if surface_interval plan <? 0 then
        Ok (mkOutcome gl'
              (set_notes d
                 (Some ((if show_disclaimer then [text] else [])
                        ++ [BannerOverlapping])))
              None)
      else
        r <- full_report prefs current_date plan d show_disclaimer text ;;
        Ok (mkOutcome gl' (fst r) (snd r))
  end.

End PlannerNotes.

(** ** A reference environment

    One environment in which the report can be run: the collaborators as the
    spec describes them, with the simplest choice where the spec is silent.
    The properties below hold for every environment; this one runs the
    report on concrete plans. *)

Module Reference.

(** Modelled from the spec: [get_n2], missing from the sources; the
    nitrogen fraction is implicit, [N2 = 1 - O2 - He], in permille. *)
Definition get_n2 (g : gasmix) : Z := 1000 - o2 g - he g.

(** Modelled from the spec: [isobaric_counterdiffusion], missing from the
    sources; the deltas are the differences of the helium and nitrogen
    fractions of the new and the old mix in permille, and a violation
    occurs when [5 * dN2 > - dHe]. *)
Definition icd (old new : gasmix) : bool * icd_data :=
  let v := mkIcd (get_n2 new - get_n2 old) (he new - he old) in
  (5 * dN2 v >? - dHe v, v).

(** Modelled from the spec: [depth_to_mbar], missing from the sources; the
    spec only asks for the ambient pressure at a depth: one millibar for
    each centimetre of water under a surface pressure of 1013 mbar. *)
Definition to_mbar (mm : Z) : Z := 1013 + Z.quot mm 10.

(** Modelled from the spec: [fill_pressures], missing from the sources; on
    open circuit the partial pressure of a gas is its fraction of the
    ambient pressure. *)
Definition partial_pressures (amb : Q) (g : gasmix) : gas_pressures :=
  {| p_o2 := inject_Z (o2 g) / 1000 * amb;
     p_n2 := inject_Z (get_n2 g) / 1000 * amb;
     p_he := inject_Z (he g) / 1000 * amb |}%Q.

(** Modelled from the spec: [cylinder_none], missing from the sources; a
    cylinder without size, gas, pressures and use is not in use. *)
Definition unused (c : cylinder_t) : bool :=
  (type_size c =? 0) && (o2 (cyl_gasmix c) =? 0) && (he (cyl_gasmix c) =? 0)
  && (start_mbar c =? 0) && (end_mbar c =? 0)
  && (gas_used c =? 0) && (deco_gas_used c =? 0).

(** Modelled from the spec: the macro [FRACTION] of [units.h], missing from
    the sources; quotient and remainder of the value taken as an unsigned
    32-bit integer, as the formats [%d:%02d] print minutes and seconds. *)
Definition fraction (n x : Z) : Z * Z :=
  (Z.quot (n mod 2 ^ 32) x, Z.rem (n mod 2 ^ 32) x).

(** Modelled from the spec: the collaborators of [plannernotes.c], missing
    from the sources.  Two gas mixes are distant when a fraction differs;
    the pressure of a gas volume in a cylinder follows the isothermal law of
    an ideal gas, with a compressibility factor of one; depths, volumes and
    pressures are shown in metres, litres and bar; the statistics of the
    dive are left as they are. *)
#[export] Instance collaborators : Collaborators :=
  {| decoMode := BUEHLMANN;
     gasmix_distance := fun a b =>
       (o2 a - o2 b) * (o2 a - o2 b) + (he a - he b) * (he a - he b);
     get_he := he;
     isobaric_counterdiffusion := icd;
     depth_to_mbar := fun mm _ => to_mbar mm;
     depth_to_bar := fun mm _ => (inject_Z (to_mbar mm) / 1000)%Q;
     depth_to_atm := fun mm _ => (inject_Z (to_mbar mm) / 1013)%Q;
     fill_pressures := fun amb g _ _ => partial_pressures amb g;
     isothermal_pressure := fun _ p1 v1 v2 =>
       (p1 * inject_Z v1 / inject_Z v2)%Q;
     gas_compressibility_factor := fun _ _ => 1%Q;
     cylinder_none := unused;
     update_cylinder_related_info := fun d => d;
     get_depth_units := fun mm => (inject_Z mm / 1000)%Q;
     get_volume_units := fun ml => (inject_Z ml / 1000)%Q;
     get_pressure_units := fun mbar => (inject_Z mbar / 1000)%Q;
     FRACTION := fraction;
     altitude_mm := fun _ => 0 |}.

Definition air : gasmix := mkGasmix 209 0.
Definition tx2135 : gasmix := mkGasmix 210 350.
Definition ean50 : gasmix := mkGasmix 500 0.

Definition tank (g : gasmix) (start finish used deco : Z) : cylinder_t :=
  mkCylinder 12000 g start finish used deco OC_GAS.

Definition prefs0 : preferences :=
  {| verbatim_plan := false;
     display_runtime := true;
     display_duration := true;
     display_transitions := false;
     display_variations := false;
     bottomsac := 20000;
     decosac := 17000;
     sacfactor := 400;
     problemsolvingtime := 4;
     bottompo2 := 1400;
     decopo2 := 1600 |}.

Definition verbatim (p : preferences) : preferences :=
  mkPrefs true (display_runtime p) (display_duration p)
    (display_transitions p) (display_variations p) (bottomsac p) (decosac p)
    (sacfactor p) (problemsolvingtime p) (bottompo2 p) (decopo2 p).

Definition plan_of (l : list divedatapoint) : diveplan :=
  mkPlan l 0 1013 30 70 0 0 0.

Definition dive_of (cyls : list cylinder_t) : dive :=
  mkDive cyls None 0 0 0 0 OC.

Definition gl0 : globals := mkGlobals None.

Definition bottom_tank : cylinder_t := tank air 200000 100000 1200000 100000.

Definition empty_tank : cylinder_t := tank air 200000 5000 2340000 100000.

Definition trimix_tanks : list cylinder_t :=
  [tank tx2135 200000 100000 1200000 0; tank ean50 200000 150000 600000 100000].

(** Ten minutes down to 30 m, ten minutes there, five minutes up. *)
Definition square_plan : list divedatapoint :=
  [mkDp 600 30000 0 0 true; mkDp 1200 30000 0 0 true; mkDp 1500 0 0 0 false].

(** A switch from trimix to EAN50 between two entered waypoints at 30 m. *)
Definition level_switch_plan : list divedatapoint :=
  [mkDp 600 30000 0 0 true; mkDp 1200 30000 1 0 true; mkDp 1500 0 1 0 false].

(** A switch from trimix to EAN50 at the stop at 21 m of the ascent. *)
Definition ascent_switch_plan : list divedatapoint :=
  [mkDp 600 45000 0 0 true; mkDp 1200 45000 0 0 true;
   mkDp 1500 21000 0 0 false; mkDp 1600 21000 1 0 false;
   mkDp 2000 0 1 0 false].

Definition report (prefs : preferences) (plan : diveplan) (d : dive)
    : res outcome :=
  add_plan_to_notes gl0 prefs "today" plan d false 0.

End Reference.

(** ** Reading a report *)

Definition is_leg_row (c : chunk) : bool :=
  match c with LegRow _ => true | _ => false end.

Definition is_verbatim_line (c : chunk) : bool :=
  match c with Transition _ | Stay _ => true | _ => false end.

Definition is_po2_warning (k : po2_kind) (c : option chunk) : bool :=
  match c, k with
  | Some (PO2Warning HighPO2 _ _ _ _), HighPO2 => true
  | Some (PO2Warning LowPO2 _ _ _ _), LowPO2 => true
  | _, _ => false
  end.

Definition count_chunks (f : chunk -> bool) (n : option (list chunk)) : nat :=
  match n with
  | Some b => List.length (filter f b)
  | None => O
  end.

(** The rows of the ICD table. *)
Fixpoint icd_rows (t : list icd_chunk) : list icd_entry :=
  match t with
  | [] => []
  | IcdHeader :: t' => icd_rows t'
  | IcdRow e :: t' => e :: icd_rows t'
  end.

(** A report that was built to its end: it has the CNS line and closes with
    the final [</div>]. *)
Definition is_cns_line (c : chunk) : bool :=
  match c with CnsOtu _ _ => true | _ => false end.

Definition closes_report (b : list chunk) : bool :=
  match rev b with ReportEnd :: _ => true | _ => false end.

Definition is_full_report (n : option (list chunk)) : bool :=
  match n with
  | Some b => existsb is_cns_line b && closes_report b
  | None => false
  end.

(** ** Notions used in the statements *)

Definition is_ok {A : Type} (r : res A) : Prop := exists a, r = Ok a.

(** Every waypoint names a cylinder of the dive. *)
Definition cylinders_in_range (d : dive) (l : list divedatapoint) : Prop :=
  Forall (fun p => is_ok (cylinder_at d (cylinderid p))) l.

(** The plan ends in a computed waypoint with a time. *)
Fixpoint ends_computed (l : list divedatapoint) : bool :=
  match l with
  | [] => false
  | p :: rest =>
      match rest with
      | [] => negb (entered p) && Zneqb (time p) 0
      | _ :: _ => ends_computed rest
      end
  end.

Definition nonzero_waypoints (l : list divedatapoint) : nat :=
  List.length (filter (fun p => Zneqb (time p) 0) l).

(** The calculation for a cylinder wrote [lastbottomdp->minimum_gas]. *)
Definition mingas_ran (r : cylinder_line * option Z) : Prop :=
  snd r <> None.

(** A waypoint of the bottom stay: entered by hand at the depth [D], on the
    cylinder [cid], open circuit. *)
Definition is_bottom (D cid : Z) (p : divedatapoint) : Prop :=
  entered p = true /\ depth p = D /\ cylinderid p = cid /\ setpoint p = 0.

(** The computed waypoint that ends the plan at another depth. *)
Definition is_final_ascent (D cid : Z) (a : divedatapoint) : Prop :=
  entered a = false /\ depth a <> D /\ cylinderid a = cid /\ setpoint a = 0
  /\ time a <> 0.

(** Each waypoint comes at least 10 seconds after the one before, the first
    at least 10 seconds after [t]. *)
Fixpoint spaced (t : Z) (l : list divedatapoint) : Prop :=
  match l with
  | [] => True
  | p :: rest => t + 10 <= time p /\ spaced (time p) rest
  end.

Definition rows_in (b : list chunk) : nat := List.length (filter is_leg_row b).

Definition lines_in (b : list chunk) : nat :=
  List.length (filter is_verbatim_line b).

(** Two dives with the same cylinders and the same dive mode. *)
Definition same_plan_data (d d' : dive) : Prop :=
  cylinder d = cylinder d' /\ dc_divemode d = dc_divemode d'.

Section Notions.

Context `{Collaborators}.

(** The pO2 the check computes for a waypoint breathing from [c], and the
    ceiling it is compared with. *)
Definition waypoint_po2 (d : dive) (p : divedatapoint) (c : cylinder_t) : Q :=
  p_o2 (fill_pressures (depth_to_atm (depth p) d) (cyl_gasmix c) 0
          (dc_divemode d)).

Definition po2_ceiling (prefs : preferences) (p : divedatapoint) : Q :=
  (inject_Z (if entered p then bottompo2 prefs else decopo2 prefs) / 1000)%Q.

(** The check of the gas change an entry of the table was written for. *)
Definition icd_violation (e : icd_entry) : bool :=
  fst (isobaric_counterdiffusion (icd_from e) (icd_to e)).

(** The entry for a change from [g1] to [g2] at the waypoint [p]. *)
Definition icd_entry_at (d : dive) (p : divedatapoint) (t : Z)
    (g1 g2 : gasmix) : icd_entry :=
  add_icd_entry (snd (isobaric_counterdiffusion g1 g2)) t
    (depth_to_mbar (depth p) d) g1 g2.

Definition icd_unchanged (st st' : loop_state) : Prop :=
  icdbuffer st' = icdbuffer st /\ icdwarning st' = icdwarning st.

Definition icd_recorded (d : dive) (p : divedatapoint)
    (st st' : loop_state) : Prop :=
  exists t g,
    (get_he (lastprintgasmix st) >? 0) = true
    /\ icdbuffer st' =
       icdbuffer st ++ [IcdRow (icd_entry_at d p t (lastprintgasmix st) g)]
    /\ icdwarning st' =
       (if fst (isobaric_counterdiffusion (lastprintgasmix st) g)
        then true else icdwarning st).

(** The legs for which an entry with the runtime [t] can be written: in the
    collapsed plan a row on open circuit, for the gas change at the end of
    an ascent or for the gas change before the leg; in the verbatim plan the
    gas switch at the end of an ascent. *)
Definition icd_recording_leg (prefs : preferences) (st : loop_state)
    (p : divedatapoint) (isascent gaschange_before : bool) (t : Z) : Prop :=
  (verbatim_plan prefs = false /\ setpoint p = 0
   /\ ((isascent = true /\ t = time p)
       \/ (gaschange_before = true /\ t = lasttime st)))
  \/ (verbatim_plan prefs = true /\ isascent = true /\ t = time p).

(** What holds of the ICD table while the loop runs over waypoints of [L]. *)
Definition icd_entry_ok (d : dive) (L : list divedatapoint) (e : icd_entry)
    : Prop :=
  get_he (icd_from e) > 0
  /\ exists p t, In p L /\ time p <> 0
                 /\ e = icd_entry_at d p t (icd_from e) (icd_to e).

Definition icd_invariant (d : dive) (L : list divedatapoint)
    (st : loop_state) : Prop :=
  icdwarning st = existsb icd_violation (icd_rows (icdbuffer st))
  /\ Forall (icd_entry_ok d L) (icd_rows (icdbuffer st)).

(** No gas change is pending: the last printed gas is the one of the
    cylinder [c] and no setpoint was printed. *)
Definition gas_printed (c : cylinder_t) (st : loop_state) : Prop :=
  gasmix_distance (lastprintgasmix st) (cyl_gasmix c) = 0
  /\ lastprintsetpoint st = 0.

End Notions.

(** ** Notions for the output of the report *)

Definition is_switch_gas (c : chunk) : bool :=
  match c with SwitchGas _ _ => true | _ => false end.

Definition is_icd_chunk (c : chunk) : bool :=
  match c with IcdTable _ | IcdWarning | IcdSectionEnd => true | _ => false end.

Definition is_icd_table (c : chunk) : bool :=
  match c with IcdTable _ => true | _ => false end.

Definition is_po2_warning_chunk (c : chunk) : bool :=
  match c with PO2Warning _ _ _ _ _ => true | _ => false end.

Definition is_consumption (c : chunk) : bool :=
  match c with Consumption _ => true | _ => false end.

(** [l1] is [l2] with some elements left out. *)
Inductive subsequence {A : Type} : list A -> list A -> Prop :=
| subsequence_nil : subsequence [] []
| subsequence_skip (x : A) (l1 l2 : list A) :
    subsequence l1 l2 -> subsequence l1 (x :: l2)
| subsequence_take (x : A) (l1 l2 : list A) :
    subsequence l1 l2 -> subsequence (x :: l1) (x :: l2).

(** The runtime column of the rows of a collapsed plan. *)
Definition row_runtimes (b : list chunk) : list Z :=
  flat_map (fun c => match c with
                     | LegRow r => match row_runtime r with
                                   | Some t => [t]
                                   | None => []
                                   end
                     | _ => []
                     end) b.

(** The chunk a leg of the collapsed plan writes for the waypoint [p]: a
    row at its depth with its runtime. *)
Definition is_row_of (prefs : preferences) (get_depth : Z -> Q)
    (c : chunk) (p : divedatapoint) : Prop :=
  exists r,
    c = LegRow r
    /\ row_depth r = get_depth (depth p)
    /\ row_runtime r =
       (if display_runtime prefs then Some (Z.quot (time p + 30) 60)
        else None).

(** The line a leg of the verbatim plan writes for the waypoint [p]. *)
Definition is_line_of (fraction : Z -> Z -> Z * Z) (get_depth : Z -> Q)
    (c : chunk) (p : divedatapoint) : Prop :=
  exists l,
    (c = Transition l \/ c = Stay l)
    /\ line_depth l = get_depth (depth p)
    /\ line_runtime l = fraction (time p) 60.

(** The chunks the waypoint loop writes. *)
Definition is_loop_chunk (c : chunk) : bool :=
  is_leg_row c || is_verbatim_line c || is_switch_gas c.

(** A waypoint of [l] that was entered by hand, has a time, and whose next
    waypoint with a time was computed. *)
Definition bottom_waypoint_of (l : list divedatapoint) (p : divedatapoint)
    : Prop :=
  exists pre post n,
    l = pre ++ p :: post
    /\ entered p = true
    /\ time p <> 0
    /\ head_dp (skip_zero post) = Some n
    /\ entered n = false.

Definition is_po2_chunk (c : chunk) : bool :=
  match c with PO2Open | PO2Warning _ _ _ _ _ => true | _ => false end.

(** The chunks of the report that belong neither to the table of the plan
    nor to the lines of the cylinders, the ICD section or the warnings for
    pO2. *)
Definition is_frame_chunk (c : chunk) : bool :=
  negb (is_loop_chunk c || is_consumption c || is_icd_chunk c
        || is_po2_chunk c).

(** The preconditions of the full report: the plan has waypoints, the deco
    calculation ended without error and the dive does not overlap. *)
Definition reaches_full_report (plan : diveplan) (error : Z) : Prop :=
  dp plan <> [] /\ error = 0 /\ 0 <= surface_interval plan.

(** The lines of the cylinders in a report. *)
Definition consumption_lines (b : list chunk) : list cylinder_line :=
  flat_map (fun c => match c with Consumption l => [l] | _ => [] end) b.

(** The cylinders up to the first one that is not in use. *)
Fixpoint cylinders_in_use (none : cylinder_t -> bool)
    (cyls : list cylinder_t) : list cylinder_t :=
  match cyls with
  | [] => []
  | cyl :: rest =>
      if none cyl then [] else cyl :: cylinders_in_use none rest
  end.

(** * The dive filter

    The second part of the sources at hand is [divefilter.cpp]: the counter
    [shown_dives], the functions that set the filter status of dives, and
    the [DiveFilter] object with its dive site mode.

    A [dive *] is modelled as the index of the dive among the dive objects
    that exist, [None] for [NULL]; reading through an index without a dive
    is a fault.  A [dive_site *] is modelled by its address, which is all
    the filter uses of it: addresses are compared and sorted.  The signals
    and the calls to the map widget and the main window are returned as a
    list, in the order in which they are made. *)

Module Filter.

Definition dive_ptr : Type := option nat.

(** The fields of [struct dive] the filter reads and writes. *)
Record dive : Type := mkDive {
  hidden_by_filter : bool;
  selected : bool;
  invalid : bool;
  dive_site : Z
}.

(** The global variables of the filter: the dive objects, the pointers
    [dive_table.dives[0]], ..., [dive_table.dives[dive_table.nr - 1]],
    [shown_dives], [current_dive] and [prefs.display_invalid_dives]. *)
Record world : Type := mkWorld {
  dives : list dive;
  dive_table : list nat;
  shown_dives : Z;
  current_dive : dive_ptr;
  display_invalid_dives : bool
}.

Record ShownChange : Type := mkChange {
  newShown : list dive_ptr;
  newHidden : list dive_ptr;
  currentChanged : bool
}.

Inductive signal : Type :=
| FilterReset            (* emit diveListNotifier.filterReset() *)
| MapReload              (* MapWidget::instance()->reload() *)
| MapSetSelected (ds : list Z)
| MapSelectionChanged
| ExpandAll.             (* MainWindow::instance()->diveList->expandAll() *)

(** Types and functions that [divefilter.cpp] uses and that are declared
    in headers ([selection.h], [fulltext.h], [filterconstraint.h]) whose
    definitions are not part of the sources at hand.  They are taken as
    parameters; those that receive a dive pointer also receive the global
    variables they may read. *)
Class FilterCollaborators : Type := {
  FullTextQuery : Type;
  doit : FullTextQuery -> bool;
  StringFilterMode : Type;
  FullTextResult : Type;
  filter_constraint : Type;
  deselect_dive : nat -> world -> world;
  fulltext_dive_matches :
    dive_ptr -> world -> FullTextQuery -> StringFilterMode -> bool;
  fulltext_find_dives :
    world -> FullTextQuery -> StringFilterMode -> FullTextResult;
  dive_matches : FullTextResult -> dive_ptr -> bool;
  filter_constraint_match_dive : filter_constraint -> nat -> world -> bool
}.

(** [*d] *)
Definition dive_at (w : world) (d : dive_ptr) : res dive :=
  match d with
  | None => Fault NullDeref
  | Some i =>
      match nth_error (dives w) i with
      | Some dv => Ok dv
      | None => Fault OutOfBounds
      end
  end.

Fixpoint set_nth {A : Type} (i : nat) (f : A -> A) (l : list A) : list A :=
  match l, i with
  | [], _ => []
  | x :: rest, O => f x :: rest
  | x :: rest, S j => x :: set_nth j f rest
  end.

(** [d->hidden_by_filter = h] *)
Definition set_hidden (i : nat) (h : bool) (w : world) : world :=
  mkWorld
    (set_nth i (fun dv => mkDive h (selected dv) (invalid dv) (dive_site dv))
       (dives w))
    (dive_table w) (shown_dives w) (current_dive w)
    (display_invalid_dives w).

Definition set_shown_dives (n : Z) (w : world) : world :=
  mkWorld (dives w) (dive_table w) n (current_dive w)
    (display_invalid_dives w).

Definition ptr_eqb (a b : dive_ptr) : bool :=
  match a, b with
  | Some i, Some j => Nat.eqb i j
  | None, None => true
  | _, _ => false
  end.

(** [std::sort] on a vector of addresses: the ascending rearrangement. *)
Fixpoint insert (x : Z) (l : list Z) : list Z :=
  match l with
  | [] => [x]
  | y :: rest => if x <=? y then x :: l else y :: insert x rest
  end.

Fixpoint sort (l : list Z) : list Z :=
  match l with
  | [] => []
  | x :: rest => insert x (sort rest)
  end.

(** [QVector::operator==] and [QVector::contains] on addresses. *)
Fixpoint sites_eqb (a b : list Z) : bool :=
  match a, b with
  | [], [] => true
  | x :: a', y :: b' => (x =? y) && sites_eqb a' b'
  | _, _ => false
  end.

Definition contains (l : list Z) (x : Z) : bool := existsb (Z.eqb x) l.

Section DiveFilter.

Context `{FilterCollaborators}.

Record FilterData : Type := mkFilterData {
  fullText : FullTextQuery;
  fulltextStringMode : StringFilterMode;
  constraints : list filter_constraint
}.

Record DiveFilter : Type := mkFilter {
  diveSiteRefCount : Z;
  dive_sites : list Z;
  filterData : FilterData
}.

(** ** setFilterStatus, updateDiveStatus *)

Definition setFilterStatus (d : dive_ptr) (shown : bool) (w : world)
    : res (bool * world) :=
  match d with
  | None => Ok (false, w)
  | Some i =>
      dv <- dive_at w d ;;
      let old_shown := negb (hidden_by_filter dv) in
      let w1 := set_hidden i (negb shown) w in
      let w2 := if negb shown && selected dv then deselect_dive i w1
                else w1 in
      let changed := xorb old_shown shown in
      Ok (changed,
          if changed
          then set_shown_dives
                 (shown_dives w2 + (Z.b2z shown - Z.b2z old_shown)) w2
          else w2)
  end.

Definition updateDiveStatus (d : dive_ptr) (newStatus : bool)
    (change : ShownChange) (w : world) : res (ShownChange * world) :=
  r <- setFilterStatus d newStatus w ;;
  Ok (if fst r then
        if newStatus
        then mkChange (newShown change ++ [d]) (newHidden change)
               (currentChanged change)
        else mkChange (newShown change) (newHidden change ++ [d])
               (currentChanged change)
      else change,
      snd r).

(** ** FilterData::validFilter, DiveFilter::showDive *)

Definition validFilter (f : FilterData) : bool :=
  doit (fullText f)
  || negb (match constraints f with [] => true | _ :: _ => false end).

Definition showDive (f : DiveFilter) (w : world) (d : dive_ptr) : res bool :=
  match d with
  | None => Fault NullDeref
  | Some i =>
      dv <- dive_at w d ;;
      if invalid dv && negb (display_invalid_dives w) then Ok false
      else if negb (validFilter (filterData f)) then Ok true
      else Ok (forallb (fun c => filter_constraint_match_dive c i w)
                 (constraints (filterData f)))
  end.

(** ** DiveFilter::diveSiteMode (the desktop version) *)

Definition diveSiteMode (f : DiveFilter) : bool := diveSiteRefCount f >? 0.

(** ** DiveFilter::update, DiveFilter::updateAll, DiveFilter::reset *)

(** The loops [for (dive *d: dives)] and [for_each_dive(i, d)] around
    [updateDiveStatus(d, newStatus, res)], for the three ways in which
    [newStatus] is computed. *)
Fixpoint update_each (newStatus : world -> dive_ptr -> res bool)
    (ds : list dive_ptr) (change : ShownChange) (w : world)
    : res (ShownChange * world) :=
  match ds with
  | [] => Ok (change, w)
  | d :: rest =>
      s <- newStatus w d ;;
      r <- updateDiveStatus d s change w ;;
      update_each newStatus rest (fst r) (snd r)
  end.

(** [dive_sites.contains(d->dive_site)] *)
Definition site_status (f : DiveFilter) (w : world) (d : dive_ptr)
    : res bool :=
  dv <- dive_at w d ;; Ok (contains (dive_sites f) (dive_site dv)).

Definition set_currentChanged (old_current : dive_ptr) (r : ShownChange * world)
    : ShownChange * world :=
  (mkChange (newShown (fst r)) (newHidden (fst r))
     (negb (ptr_eqb old_current (current_dive (snd r)))),
   snd r).

Definition no_change : ShownChange := mkChange [] [] false.

Definition update (f : DiveFilter) (ds : list dive_ptr) (w : world)
    : res (ShownChange * world) :=
  let old_current := current_dive w in
  let doDS := diveSiteMode f in
  let doFullText := doit (fullText (filterData f)) in
  r <- update_each
         (fun w d =>
            if doDS then site_status f w d
            else if doFullText then
              andr (Ok (fulltext_dive_matches d w (fullText (filterData f))
                          (fulltextStringMode (filterData f))))
                   (showDive f w d)
            else showDive f w d)
         ds no_change w ;;
  Ok (set_currentChanged old_current r).

(** [for_each_dive(i, d)], a macro of [dive.h], walks through
    [dive_table.dives] from the first pointer to the last. *)
Definition each_dive (w : world) : list dive_ptr := map Some (dive_table w).

Definition updateAll (f : DiveFilter) (w : world)
    : res (ShownChange * world) :=
  let w0 := set_shown_dives 0 w in
  let old_current := current_dive w0 in
  r <- (if diveSiteMode f then
          update_each (site_status f) (each_dive w0) no_change w0
        else if doit (fullText (filterData f)) then
          let ft := fulltext_find_dives w0 (fullText (filterData f))
                      (fulltextStringMode (filterData f)) in
          update_each
            (fun w d => andr (Ok (dive_matches ft d)) (showDive f w d))
            (each_dive w0) no_change w0
        else
          update_each (showDive f) (each_dive w0) no_change w0) ;;
  Ok (set_currentChanged old_current r).

(** The loop [for_each_dive(i, d) d->hidden_by_filter = false;] *)
Fixpoint show_each (ds : list nat) (w : world) : res world :=
  match ds with
  | [] => Ok w
  | i :: rest =>
      _ <- dive_at w (Some i) ;;
      show_each rest (set_hidden i false w)
  end.

Definition reset (f : DiveFilter) (w : world) : res world :=
  let w0 := set_shown_dives (Z.of_nat (List.length (dive_table w))) w in
  w1 <- show_each (dive_table w0) w0 ;;
  r <- updateAll f w1 ;;
  Ok (snd r).

(** ** DiveFilter::diveRemoved *)

Definition diveRemoved (d : dive_ptr) (w : world) : res world :=
  dv <- dive_at w d ;;
  Ok (if negb (hidden_by_filter dv)
      then set_shown_dives (shown_dives w - 1) w
      else w).

(** ** The dive site mode *)

Definition set_dive_sites (ds : list Z) (f : DiveFilter) : DiveFilter :=
  mkFilter (diveSiteRefCount f) ds (filterData f).

Definition set_diveSiteRefCount (n : Z) (f : DiveFilter) : DiveFilter :=
  mkFilter n (dive_sites f) (filterData f).

Definition setFilterDiveSite (ds : list Z) (f : DiveFilter)
    : DiveFilter * list signal :=
  let ds := sort ds in
  if sites_eqb ds (dive_sites f) then (f, [])
  else (set_dive_sites ds f,
        [FilterReset; MapSetSelected ds; MapSelectionChanged; ExpandAll]).

Definition startFilterDiveSites (ds : list Z) (f : DiveFilter)
    : DiveFilter * list signal :=
  let f1 := set_diveSiteRefCount (diveSiteRefCount f + 1) f in
  if diveSiteRefCount f1 >? 1 then setFilterDiveSite ds f1
  else (set_dive_sites (sort ds) f1, [MapReload; FilterReset]).

Definition stopFilterDiveSites (f : DiveFilter) : DiveFilter * list signal :=
  let f1 := set_diveSiteRefCount (diveSiteRefCount f - 1) f in
  if diveSiteRefCount f1 >? 0 then (f1, [])
  else (set_dive_sites [] f1, [FilterReset; MapReload]).

Definition filteredDiveSites (f : DiveFilter) : list Z := dive_sites f.

(** ** DiveFilter::setFilter, DiveFilter::shownText *)

Definition setFilter (data : FilterData) (f : DiveFilter)
    : DiveFilter * list signal :=
  (mkFilter (diveSiteRefCount f) (dive_sites f) data, [FilterReset]).

(** The two texts of [shownText] with their arguments. *)
Inductive shown_text : Type :=
| ShownOf (shown total : Z)     (* "%L1/%L2 shown" *)
| DivesTotal (total : Z).       (* "%L1 dives" *)

Definition shownText (f : DiveFilter) (w : world) : shown_text :=
  if diveSiteMode f || validFilter (filterData f)
  then ShownOf (shown_dives w) (Z.of_nat (List.length (dive_table w)))
  else DivesTotal (Z.of_nat (List.length (dive_table w))).

End DiveFilter.

(** ** Notions used in the statements about the filter *)

(** The number of dives that are not hidden. *)
Definition count_shown (l : list dive) : Z :=
  Z.of_nat (List.length (filter (fun dv => negb (hidden_by_filter dv)) l)).

Definition count_hidden (l : list dive) : Z :=
  Z.of_nat (List.length (filter hidden_by_filter l)).

(** The change of the counter and of the number of shown dives in one
    call of [setFilterStatus]. *)
Definition step_of (changed shown : bool) : Z :=
  if changed then (if shown then 1 else -1) else 0.

Definition changes (c : ShownChange) : Z :=
  Z.of_nat (List.length (newShown c)) - Z.of_nat (List.length (newHidden c)).

(** [d->hidden_by_filter] for a pointer to a dive; [false] for [NULL]. *)
Definition hidden_at (w : world) (d : dive_ptr) : bool :=
  match d with
  | Some i =>
      match nth_error (dives w) i with
      | Some dv => hidden_by_filter dv
      | None => false
      end
  | None => false
  end.

(** The dives without the one at the index [i]. *)
Fixpoint remove_nth {A : Type} (i : nat) (l : list A) : list A :=
  match l, i with
  | [], _ => []
  | _ :: rest, O => rest
  | x :: rest, S j => x :: remove_nth j rest
  end.

(** [deselect_dive] leaves the counter, the table, and the filter status
    and the dive sites of all dives alone. *)
Definition keeps_filter_status (deselect : nat -> world -> world) : Prop :=
  forall i w,
    shown_dives (deselect i w) = shown_dives w
    /\ map hidden_by_filter (dives (deselect i w))
       = map hidden_by_filter (dives w)
    /\ map dive_site (dives (deselect i w)) = map dive_site (dives w)
    /\ dive_table (deselect i w) = dive_table w.

(** Every dive object is in the table. *)
Definition table_complete (w : world) : Prop :=
  forall i, (i < List.length (dives w))%nat -> In i (dive_table w).

Section Calls.

Context `{FilterCollaborators}.

(** A call of [startFilterDiveSites] for each vector of [dss], and [n]
    calls of [stopFilterDiveSites]. *)
Definition starts (dss : list (list Z)) (f : DiveFilter) : DiveFilter :=
  fold_left (fun g ds => fst (startFilterDiveSites ds g)) dss f.

Definition stops (n : nat) (f : DiveFilter) : DiveFilter :=
  Nat.iter n (fun g => fst (stopFilterDiveSites g)) f.

End Calls.

End Filter.

(** ** A reference environment for the filter

    One environment in which the filter can be run.  The properties below
    hold for every environment; this one runs the filter on concrete
    dives. *)

Module FilterReference.

Import Filter.

(** Modelled from the spec: [deselect_dive], missing from the sources; the
    spec leaves the selection to its collaborators, and the simplest choice
    is taken: the dive is no longer selected, and no longer the current
    dive. *)
Definition deselect (i : nat) (w : world) : world :=
  mkWorld
    (set_nth i
       (fun dv => mkDive (hidden_by_filter dv) false (invalid dv)
                    (dive_site dv))
       (dives w))
    (dive_table w) (shown_dives w)
    (if ptr_eqb (current_dive w) (Some i) then None else current_dive w)
    (display_invalid_dives w).

(** Modelled from the spec: the collaborators of [divefilter.cpp], missing
    from the sources; the spec leaves the filtering of the dive list to them,
    and the simplest choice is taken: a full text query is its list of words
    and matches every dive, its result is the list of the dives of the
    table, and a constraint names the dive site a dive must have. *)
#[export] Instance collaborators : FilterCollaborators :=
  {| FullTextQuery := list string;
     doit := fun q => match q with [] => false | _ :: _ => true end;
     StringFilterMode := unit;
     FullTextResult := list nat;
     filter_constraint := Z;
     deselect_dive := deselect;
     fulltext_dive_matches := fun _ _ _ _ => true;
     fulltext_find_dives := fun w _ _ => dive_table w;
     dive_matches := fun ft d =>
       match d with
       | Some i => existsb (Nat.eqb i) ft
       | None => false
       end;
     filter_constraint_match_dive := fun c i w =>
       match nth_error (dives w) i with
       | Some dv => dive_site dv =? c
       | None => false
       end |}.

(** Three dives: the first shown and selected at the site 100, the second
    hidden at the site 200, the third shown and invalid at the site 100. *)
Definition three_dives : world :=
  mkWorld
    [mkDive false true false 100; mkDive true false false 200;
     mkDive false false true 100]
    [0%nat; 1%nat; 2%nat] 2 (Some 0%nat) false.

(** A filter with the constraint of the site 100, and a filter in dive
    site mode for the site 200. *)
Definition constraint_filter : DiveFilter :=
  mkFilter 0 [] (mkFilterData [] tt [100]).

Definition site_filter : DiveFilter :=
  mkFilter 1 [200] (mkFilterData [] tt []).

End FilterReference.

(** * Properties *)

Lemma Qltb_lt (a b : Q) : Qltb a b = true <-> (a < b)%Q.
Proof.
  unfold Qltb. rewrite negb_true_iff. split; intro Hab.
  - apply Qnot_le_lt. intro Hle. apply Qle_bool_iff in Hle. congruence.
  - destruct (Qle_bool b a) eqn:E; [|reflexivity].
    apply Qle_bool_iff in E. exfalso. exact (Qlt_not_le _ _ Hab E).
Qed.

Lemma Qltb_ge (a b : Q) : Qltb a b = false <-> (b <= a)%Q.
Proof.
  unfold Qltb. rewrite negb_false_iff. apply Qle_bool_iff.
Qed.

Lemma Zneqb_neq (a b : Z) : Zneqb a b = true <-> a <> b.
Proof. unfold Zneqb. rewrite negb_true_iff. apply Z.eqb_neq. Qed.

Lemma Zneqb_eq (a b : Z) : Zneqb a b = false <-> a = b.
Proof. unfold Zneqb. rewrite negb_false_iff. apply Z.eqb_eq. Qed.

Lemma Zgtb_gt (a b : Z) : (a >? b) = true <-> a > b.
Proof. rewrite Z.gtb_ltb, Z.ltb_lt. lia. Qed.

Lemma Zgtb_le (a b : Z) : (a >? b) = false <-> a <= b.
Proof. rewrite Z.gtb_ltb, Z.ltb_ge. lia. Qed.

(** ** The ICD threshold *)

(** C3. The two rows [add_icd_entry] writes for a gas change mark the change
    as a violation (the nitrogen figures are printed in red) exactly when
    [5 * dN2 > - dHe], a strict comparison of integers: a change with
    [dHe = -50] and [dN2 = 12] is marked, one with [dHe = -50] and [dN2 = 9]
    is not. *)
Theorem icd_entry_marks_violation :
  (forall (v : icd_data) (t amb : Z) (gas_from gas_to : gasmix),
      let e := add_icd_entry v t amb gas_from gas_to in
      (icd_dN2_color e = Red <-> 5 * dN2 v > - dHe v)
      /\ (icd_dN2_color e = DarkGrey <-> 5 * dN2 v <= - dHe v)
      /\ icd_dN2_bar_color e = icd_dN2_color e)
  /\ (forall t amb gas_from gas_to,
         icd_dN2_color (add_icd_entry (mkIcd 12 (-50)) t amb gas_from gas_to)
         = Red)
  /\ (forall t amb gas_from gas_to,
         icd_dN2_color (add_icd_entry (mkIcd 9 (-50)) t amb gas_from gas_to)
         = DarkGrey).
Proof.
  split; [|split; reflexivity].
  intros v t amb gas_from gas_to e. subst e. cbn [add_icd_entry icd_dN2_color
    icd_dN2_bar_color]. unfold icd_color.
  destruct (5 * dN2 v >? - dHe v) eqn:E.
  - apply Zgtb_gt in E. repeat split; intros; try congruence; try lia.
  - apply Zgtb_le in E. repeat split; intros; try congruence; try lia.
Qed.

Section CylinderProperties.

Context `{Collaborators}.

Variable prefs : preferences.
Variable d : dive.

(** ** Gas warnings of a cylinder *)


(** Every cylinder before the first unused one has its line in the
    report. *)
Lemma cylinders_in_use_reported (lastbottom : option divedatapoint)
    (pre : list cylinder_t) :
  forall (gasidx : Z) (cyl : cylinder_t) (post : list cylinder_t),
    Forall (fun x => cylinder_none x = false) pre ->
    cylinder_none cyl = false ->
    In (Consumption
          (fst (cylinder_consumption prefs d lastbottom
                  (gasidx + Z.of_nat (List.length pre)) cyl)))
       (fst (consumption prefs d lastbottom gasidx (pre ++ cyl :: post))).
Proof.
  induction pre as [|x pre IH]; intros gasidx cyl post Hpre Hcyl;
    cbn [app consumption List.length].
  - rewrite Hcyl. cbn [fst]. left. now rewrite Z.add_0_r.
  - apply Forall_cons_iff in Hpre. destruct Hpre as [Hx Hpre].
    rewrite Hx. cbn [fst]. right.
    replace (gasidx + Z.of_nat (S (List.length pre)))
      with (gasidx + 1 + Z.of_nat (List.length pre)) by lia.
    now apply IH.
Qed.

(** ** The minimum gas calculation *)

Lemma divemode_eqb_eq (a b : divemode_t) : divemode_eqb a b = true <-> a = b.
Proof. destruct a, b; cbn; split; congruence. Qed.

Lemma deco_mode_eqb_eq (a b : deco_mode) : deco_mode_eqb a b = true <-> a = b.
Proof. destruct a, b; cbn; split; congruence. Qed.

Lemma mingas_applies_iff (lastbottom : option divedatapoint) (gasidx : Z) :
  mingas_applies d lastbottom gasidx = true <->
  dc_divemode d = OC /\ decoMode <> RECREATIONAL
  /\ exists lb, lastbottom = Some lb /\ gasidx = cylinderid lb.
Proof.
  unfold mingas_applies. destruct lastbottom as [lb|].
  - rewrite !andb_true_iff, negb_true_iff, Z.eqb_eq, divemode_eqb_eq.
    split.
    + intros [[Hi Hm] Hd]. repeat split; [assumption| |eauto].
      intro E. apply deco_mode_eqb_eq in E. congruence.
    + intros (Hm & Hd & lb' & Hlb & Hi). inversion Hlb; subst lb'.
      repeat split; try assumption.
      destruct (deco_mode_eqb decoMode RECREATIONAL) eqn:E; [|reflexivity].
      apply deco_mode_eqb_eq in E. contradiction.
  - split; [congruence|]. intros (_ & _ & lb & Hlb & _). congruence.
Qed.

Lemma minimum_gas_writes (lb : divedatapoint) (cyl : cylinder_t) :
  snd (minimum_gas prefs d lb cyl) = Some (minimum_gas_mbar prefs d lb cyl).
Proof.
  unfold minimum_gas.
  destruct (start_mbar cyl >? minimum_gas_mbar prefs d lb cyl); reflexivity.
Qed.

Lemma cylinder_checks_ran (lastbottom : option divedatapoint) (gasidx : Z)
    (cyl : cylinder_t) :
  snd (cylinder_checks prefs d lastbottom gasidx cyl) <> None <->
  10000 <= end_mbar cyl
  /\ (inject_Z (deco_gas_used cyl) <= gas_at_end_pressure cyl)%Q
  /\ mingas_applies d lastbottom gasidx = true.
Proof.
  unfold cylinder_checks.
  destruct (end_mbar cyl <? 10000) eqn:Eend.
  { apply Z.ltb_lt in Eend. cbn. split; [congruence|]. intros [Hge _]. lia. }
  apply Z.ltb_ge in Eend.
  destruct (Qltb (gas_at_end_pressure cyl) (inject_Z (deco_gas_used cyl)))
    eqn:Egas.
  { apply Qltb_lt in Egas. cbn. split; [congruence|]. intros (_ & Hle & _).
    exfalso. exact (Qlt_not_le _ _ Egas Hle). }
  apply Qltb_ge in Egas.
  destruct lastbottom as [lb|].
  - destruct (mingas_applies d (Some lb) gasidx) eqn:Erun.
    + rewrite minimum_gas_writes. split; [auto|congruence].
    + cbn. split; [congruence|]. intros (_ & _ & E). congruence.
  - cbn. split; [congruence|]. intros (_ & _ & E). congruence.
Qed.

Lemma cylinder_checks_run (lb : divedatapoint) (gasidx : Z)
    (cyl : cylinder_t) :
  snd (cylinder_checks prefs d (Some lb) gasidx cyl) <> None ->
  cylinder_checks prefs d (Some lb) gasidx cyl = minimum_gas prefs d lb cyl.
Proof.
  intro Hran. pose proof Hran as Hc.
  apply cylinder_checks_ran in Hc. destruct Hc as (Hend & Hgas & Hrun).
  unfold cylinder_checks. apply Z.ltb_ge in Hend. apply Qltb_ge in Hgas.
  rewrite Hend, Hgas, Hrun. reflexivity.
Qed.


End CylinderProperties.

Section PO2Properties.

Context `{Collaborators}.

Variable prefs : preferences.
Variable d : dive.

Lemma po2_warning_not_open (p : divedatapoint) (w : chunk) :
  po2_warning prefs d p = Ok (Some w) -> w <> PO2Open.
Proof.
  unfold po2_warning. destruct (Zneqb (time p) 0); [|congruence].
  destruct (cylinder_at d (cylinderid p)) as [c|f]; cbn [bind]; [|congruence].
  repeat match goal with
         | |- context [if ?b then _ else _] => destruct b
         end; congruence.
Qed.

Lemma po2_warnings_members (l : list divedatapoint) :
  forall (b : bool) (ws : list chunk),
    po2_warnings prefs d l b = Ok ws ->
    forall c, c <> PO2Open ->
      (In c ws <-> exists p, In p l /\ po2_warning prefs d p = Ok (Some c)).
Proof.
  induction l as [|p rest IH]; intros b ws Hws c Hc; cbn [po2_warnings] in Hws.
  - inversion Hws; subst. cbn. split; [contradiction|].
    intros (p & [] & _).
  - destruct (po2_warning prefs d p) as [[w|]|f] eqn:Ep; cbn [bind] in Hws;
      [| |congruence].
    + destruct (po2_warnings prefs d rest true) as [ws'|f] eqn:Er;
        cbn [bind] in Hws; [|congruence].
      inversion Hws; subst ws. clear Hws.
      specialize (IH true ws' Er c Hc).
      rewrite in_app_iff. cbn [In]. rewrite IH. split.
      * intros [Hin | [-> | (q & Hq & Hw)]].
        -- destruct b; cbn in Hin; [contradiction|].
           destruct Hin as [<-|[]]. congruence.
        -- exists p. split; [now left|assumption].
        -- exists q. split; [now right|assumption].
      * intros (q & [<- | Hq] & Hw).
        -- right. left. congruence.
        -- right. right. eauto.
    + specialize (IH b ws Hws c Hc). rewrite IH. split.
      * intros (q & Hq & Hw). exists q. split; [now right|assumption].
      * intros (q & [<- | Hq] & Hw); [congruence|eauto].
Qed.

(** ** Warnings for pO2 *)


End PO2Properties.

Section LoopProperties.

Context `{Collaborators}.

Variable prefs : preferences.
Variable d : dive.

(** ** Waypoints the loop passes over *)


(** ** The last bottom waypoint *)

(** The test of line 218 reads [nextdp->entered] whenever [dp->entered] is
    set: for an entered waypoint that is reported and has no real successor
    the loop body dereferences [NULL]. *)
Lemma entered_waypoint_without_successor (st : loop_state)
    (p : divedatapoint) (rest : list divedatapoint) (c : cylinder_t) :
  time p <> 0 ->
  entered p = true ->
  cylinder_at d (cylinderid p) = Ok c ->
  skip_zero rest = [] ->
  10 <= time p - lasttime st \/ lastdepth st <> depth p ->
  leg_step prefs d st p rest = Fault NullDeref.
Proof.
  intros Ht Hent Hcyl Hrest Hreported. unfold leg_step.
  apply Z.eqb_neq in Ht. rewrite Ht, Hcyl, Hrest. unfold skip_leg, report_leg.
  rewrite Hent.
  cbn [bind head_dp next_gasmix negb andb andr is_some].
  assert (E : (time p - lasttime st <? 10) && (lastdepth st =? depth p)
              = false).
  { apply andb_false_iff. destruct Hreported as [Hr|Hr].
    - left. apply Z.ltb_ge. lia.
    - right. now apply Z.eqb_neq. }
  rewrite E. reflexivity.
Qed.

End LoopProperties.

(** ** Plans on which the report is built without fault *)

Lemma is_ok_Ok {A : Type} (a : A) : is_ok (Ok a).
Proof. exists a. reflexivity. Qed.

Lemma is_ok_bind {A B : Type} (m : res A) (k : A -> res B) :
  is_ok m -> (forall a, m = Ok a -> is_ok (k a)) -> is_ok (bind m k).
Proof. intros [a ->] Hk. cbn. now apply Hk. Qed.

Lemma skip_zero_length (l : list divedatapoint) :
  (List.length (skip_zero l) <= List.length l)%nat.
Proof.
  induction l as [|n rest IH]; cbn; [lia|].
  destruct (time n =? 0); cbn; lia.
Qed.

Lemma skip_zero_Forall (P : divedatapoint -> Prop) (l : list divedatapoint) :
  Forall P l -> Forall P (skip_zero l).
Proof.
  induction 1 as [|n rest Hn Hrest IH]; cbn; [constructor|].
  destruct (time n =? 0); [assumption|now constructor].
Qed.

Lemma skip_zero_ends_computed (l : list divedatapoint) :
  ends_computed l = true ->
  skip_zero l <> [] /\ ends_computed (skip_zero l) = true.
Proof.
  induction l as [|n rest IH]; cbn [ends_computed skip_zero];
    [discriminate|].
  intro Hl. destruct (time n =? 0) eqn:Et.
  - destruct rest as [|m rest'].
    + apply andb_true_iff in Hl. destruct Hl as [_ Hl].
      unfold Zneqb in Hl. rewrite Et in Hl. discriminate.
    + now apply IH.
  - split; [discriminate|exact Hl].
Qed.

Lemma ends_computed_tail (p : divedatapoint) (rest : list divedatapoint) :
  ends_computed (p :: rest) = true ->
  rest = [] /\ entered p = false /\ time p <> 0
  \/ rest <> [] /\ ends_computed rest = true.
Proof.
  cbn [ends_computed]. destruct rest as [|m rest'].
  - intro Hl. apply andb_true_iff in Hl. destruct Hl as [He Ht].
    left. apply negb_true_iff in He. apply Zneqb_neq in Ht. auto.
  - intro Hl. right. split; [discriminate|exact Hl].
Qed.

Section Totality.

Context `{Collaborators}.

Variable prefs : preferences.
Variable d : dive.

Ltac split_ifs :=
  repeat (cbn [bind andr orr deref depth_differs is_some is_null negb andb
               orb fst snd];
          match goal with
          | |- context [if ?b then _ else _] => destruct b
          end);
  cbn [bind andr orr deref depth_differs is_some is_null negb andb orb
       fst snd].

Lemma gaschange_after_has_next (p : divedatapoint)
    (nextdp : option divedatapoint) (g newgasmix : gasmix) :
  gaschange_after_at p nextdp g newgasmix = true -> is_some nextdp = true.
Proof. destruct nextdp; cbn; [reflexivity|discriminate]. Qed.

Lemma verbatim_segment_ok (st : loop_state) (p : divedatapoint)
    (next nextdp : option divedatapoint) (g : gasmix) (after : bool) :
  (after = true -> is_some nextdp = true) ->
  is_ok (verbatim_segment prefs st p next nextdp g after).
Proof.
  intro Hafter. unfold verbatim_segment.
  destruct nextdp as [n|].
  - split_ifs; apply is_ok_Ok.
  - destruct after; [specialize (Hafter eq_refl); discriminate|].
    split_ifs; apply is_ok_Ok.
Qed.

Lemma collapsed_segment_ok (st : loop_state) (p : divedatapoint)
    (next nextdp : option divedatapoint) (g newgasmix : gasmix)
    (isascent before after : bool) :
  (after = true -> is_some nextdp = true) ->
  is_ok (collapsed_segment prefs d st p next nextdp g newgasmix isascent
           before after).
Proof.
  intro Hafter. unfold collapsed_segment, print_segment, trailing_gaschange.
  destruct nextdp as [n|].
  - split_ifs; apply is_ok_Ok.
  - destruct after; [specialize (Hafter eq_refl); discriminate|].
    rewrite !andb_false_r. split_ifs; apply is_ok_Ok.
Qed.

Lemma collapsed_segment_after (st : loop_state) (p : divedatapoint)
    (next nextdp : option divedatapoint) (g newgasmix : gasmix)
    (isascent before after : bool) (r : loop_state * bool) :
  collapsed_segment prefs d st p next nextdp g newgasmix isascent
    before after = Ok r ->
  snd r = true -> after = true.
Proof.
  unfold collapsed_segment. intros Hr Hsnd.
  destruct after; [reflexivity|]. exfalso. revert Hr.
  destruct (print_segment prefs st p next nextdp isascent before false)
    as [show|f]; cbn [bind]; [|discriminate].
  destruct (negb show); [intro E; inversion E; subst r; discriminate|].
  destruct (trailing_gaschange p next nextdp isascent false) as [tr|f];
    cbn [bind]; [|discriminate].
  destruct tr.
  - destruct (deref nextdp); cbn [bind]; [|discriminate].
    intro E; inversion E; subst r; discriminate.
  - destruct before; intro E; inversion E; subst r; discriminate.
Qed.

Lemma verbatim_switch_ok (st : loop_state) (p : divedatapoint)
    (nextdp : option divedatapoint) (newgasmix : gasmix) (isascent : bool) :
  is_ok (verbatim_switch d st p nextdp newgasmix isascent).
Proof.
  unfold verbatim_switch. destruct nextdp as [n|]; split_ifs; apply is_ok_Ok.
Qed.

End Totality.

Section Termination.

Context `{Collaborators}.

Variable prefs : preferences.
Variable d : dive.

Lemma skip_leg_ok (st : loop_state) (p : divedatapoint)
    (next nextdp : option divedatapoint) (before after : bool) :
  is_ok (skip_leg st p next nextdp before after).
Proof.
  unfold skip_leg, andr, orr, depth_differs, deref.
  destruct nextdp as [n|], next as [q|];
    cbn [is_some bind]; rewrite ?andb_false_r, ?andb_true_r;
    repeat (cbn [bind negb andb];
            match goal with
            | |- context [if ?b then _ else _] => destruct b
            end);
    cbn [bind negb andb]; apply is_ok_Ok.
Qed.

Lemma report_leg_ok (st : loop_state) (p : divedatapoint)
    (next nextdp : option divedatapoint) (g newgasmix : gasmix)
    (isascent before after : bool) :
  (after = true -> is_some nextdp = true) ->
  (entered p = true -> is_some nextdp = true) ->
  is_ok (report_leg prefs d st p next nextdp g newgasmix isascent
           before after).
Proof.
  intros Hafter Hent. unfold report_leg.
  apply is_ok_bind.
  { unfold andr, deref. cbn [bind]. destruct (entered p); [|apply is_ok_Ok].
    destruct nextdp as [n|]; [apply is_ok_Ok|].
    specialize (Hent eq_refl). discriminate. }
  intros bottom _. apply is_ok_bind.
  { destruct (verbatim_plan prefs).
    - apply is_ok_bind; [now apply verbatim_segment_ok|].
      intros; apply is_ok_Ok.
    - now apply collapsed_segment_ok. }
  intros r Hr. apply is_ok_bind; [|intros; apply is_ok_Ok].
  destruct (snd r && verbatim_plan prefs); [|apply is_ok_Ok].
  apply verbatim_switch_ok.
Qed.

Lemma next_gasmix_ok (l : list divedatapoint) :
  cylinders_in_range d l -> is_ok (next_gasmix d (head_dp l)).
Proof.
  intros Hl. destruct l as [|n l']; cbn; [apply is_ok_Ok|].
  inversion Hl as [|? ? [c Hc] _]; subst. rewrite Hc. apply is_ok_Ok.
Qed.

(** The loop body steps to a suffix of the list, and does so without fault
    when the cylinders are in range and an entered waypoint has a real
    successor. *)
Lemma leg_step_next (st st' : loop_state) (p : divedatapoint)
    (rest l : list divedatapoint) :
  leg_step prefs d st p rest = Ok (st', l) ->
  (time p = 0 /\ l = rest) \/ (time p <> 0 /\ l = skip_zero rest).
Proof.
  unfold leg_step. destruct (time p =? 0) eqn:Et.
  - intro E. inversion E; subst. left. apply Z.eqb_eq in Et. auto.
  - apply Z.eqb_neq in Et. intro E. right. split; [assumption|].
    destruct (cylinder_at d (cylinderid p)); cbn [bind] in E;
      [|discriminate].
    destruct (next_gasmix d (head_dp (skip_zero rest))); cbn [bind] in E;
      [|discriminate].
    match type of E with
    | bind ?m _ = _ => destruct m as [[|]|]; cbn [bind] in E
    end; [inversion E; reflexivity| |discriminate].
    match type of E with
    | bind ?m _ = _ => destruct m; cbn [bind] in E
    end; [inversion E; reflexivity|discriminate].
Qed.

Lemma leg_step_ok (st : loop_state) (p : divedatapoint)
    (rest : list divedatapoint) :
  cylinders_in_range d (p :: rest) ->
  (entered p = true -> time p <> 0 -> skip_zero rest <> []) ->
  is_ok (leg_step prefs d st p rest).
Proof.
  intros Hcyl Hent. unfold leg_step.
  destruct (time p =? 0) eqn:Et; [apply is_ok_Ok|].
  apply Z.eqb_neq in Et.
  inversion Hcyl as [|? ? Hp Hrest]; subst.
  apply is_ok_bind; [assumption|]. intros c _.
  apply is_ok_bind.
  { apply next_gasmix_ok. now apply skip_zero_Forall. }
  intros newgasmix _.
  apply is_ok_bind; [apply skip_leg_ok|]. intros [|] _; [apply is_ok_Ok|].
  apply is_ok_bind; [|intros; apply is_ok_Ok].
  apply report_leg_ok.
  - apply gaschange_after_has_next.
  - intro He. specialize (Hent He Et).
    destruct (skip_zero rest); [contradiction|reflexivity].
Qed.

Ltac split_cases :=
  repeat (cbn [bind fst snd andb negb];
          match goal with
          | |- context [match ?q with Some _ => _ | None => _ end] =>
              destruct q
          | |- context [if ?b then _ else _] => destruct b
          end);
  cbn [bind fst snd].

Lemma leg_step_fault (st : loop_state) (p : divedatapoint)
    (rest : list divedatapoint) (f : fault) :
  leg_step prefs d st p rest = Fault f -> f <> OutOfFuel.
Proof.
  intros E Hf. subst f. revert E. unfold leg_step.
  destruct (time p =? 0); [discriminate|].
  unfold next_gasmix, cylinder_at.
  destruct (cylinderid p <? 0); cbn [bind]; [discriminate|].
  destruct (nth_error (cylinder d) (Z.to_nat (cylinderid p)));
    cbn [bind]; [|discriminate].
  destruct (head_dp (skip_zero rest)) as [n|] eqn:En; cbn [bind].
  - destruct (cylinderid n <? 0); cbn [bind]; [discriminate|].
    destruct (nth_error (cylinder d) (Z.to_nat (cylinderid n)));
      cbn [bind]; [|discriminate].
    unfold skip_leg, report_leg, verbatim_segment, collapsed_segment,
      verbatim_switch, print_segment, trailing_gaschange, andr, orr,
      depth_differs, deref.
    cbn [is_some is_null negb]. split_cases; discriminate.
  - unfold skip_leg, report_leg, verbatim_segment, collapsed_segment,
      verbatim_switch, print_segment, trailing_gaschange, andr, orr,
      depth_differs, deref.
    cbn [is_some is_null negb]. split_cases; discriminate.
Qed.

Lemma legs_never_out_of_fuel (fuel : nat) :
  forall (l : list divedatapoint) (st : loop_state),
    (List.length l <= fuel)%nat ->
    legs prefs d fuel st l <> Fault OutOfFuel.
Proof.
  induction fuel as [|fuel IH]; intros l st Hlen.
  - destruct l; cbn in *; [discriminate|lia].
  - destruct l as [|p rest]; cbn [legs]; [discriminate|].
    cbn [List.length] in Hlen.
    destruct (leg_step prefs d st p rest) as [[st' l]|f] eqn:Estep;
      cbn [bind fst snd].
    + apply IH. apply leg_step_next in Estep.
      pose proof (skip_zero_length rest).
      destruct Estep as [[_ ->]|[_ ->]]; lia.
    + apply leg_step_fault in Estep. congruence.
Qed.

Lemma legs_ok (fuel : nat) :
  forall (l : list divedatapoint) (st : loop_state),
    (List.length l <= fuel)%nat ->
    cylinders_in_range d l ->
    l = [] \/ ends_computed l = true ->
    is_ok (legs prefs d fuel st l).
Proof.
  induction fuel as [|fuel IH]; intros l st Hlen Hcyl Hend.
  - destruct l; cbn in *; [apply is_ok_Ok|lia].
  - destruct l as [|p rest]; cbn [legs]; [apply is_ok_Ok|].
    destruct Hend as [Hnil|Hend]; [discriminate|].
    cbn [List.length] in Hlen.
    inversion Hcyl as [|? ? Hp Hrest]; subst.
    apply is_ok_bind.
    + apply leg_step_ok; [assumption|]. intros He Ht.
      apply ends_computed_tail in Hend.
      destruct Hend as [(_ & Hne & _)|(_ & Hr)]; [congruence|].
      now apply skip_zero_ends_computed.
    + intros [st' l] Hstep. cbn [fst snd].
      apply leg_step_next in Hstep.
      pose proof (skip_zero_length rest).
      apply ends_computed_tail in Hend.
      destruct Hstep as [[Ht ->]|[Ht ->]].
      * apply IH; [lia|assumption|].
        destruct Hend as [(_ & _ & Hne)|(_ & Hr)]; [contradiction|now right].
      * apply IH; [lia|now apply skip_zero_Forall|].
        destruct Hend as [(-> & _)|(_ & Hr)]; [now left|].
        right. now apply skip_zero_ends_computed.
Qed.

Lemma po2_warnings_ok (l : list divedatapoint) :
  cylinders_in_range d l ->
  forall b, is_ok (po2_warnings prefs d l b).
Proof.
  induction 1 as [|p rest [c Hc] Hrest IH]; intro b; cbn [po2_warnings];
    [apply is_ok_Ok|].
  apply is_ok_bind.
  - unfold po2_warning. rewrite Hc. cbn [bind].
    repeat match goal with
           | |- context [if ?b then _ else _] => destruct b
           end; apply is_ok_Ok.
  - intros [w|] _; [|apply IH].
    apply is_ok_bind; [apply IH|]. intros; apply is_ok_Ok.
Qed.

End Termination.

Lemma closes_report_app (l m : list chunk) :
  closes_report m = true -> closes_report (l ++ m) = true.
Proof.
  unfold closes_report. rewrite rev_app_distr.
  destruct (rev m) as [|c r]; [discriminate|]. cbn. auto.
Qed.

Lemma closes_report_cons (c : chunk) (m : list chunk) :
  closes_report m = true -> closes_report (c :: m) = true.
Proof. exact (closes_report_app [c] m). Qed.

Section ReportProperties.

Context `{Collaborators}.

Variable gl : globals.
Variable prefs : preferences.
Variable current_date : string.
Variable plan : diveplan.
Variable d : dive.
Variable show_disclaimer : bool.

Lemma full_report_is_full (text : chunk) (r : dive * option Z) :
  full_report prefs current_date plan d show_disclaimer text = Ok r ->
  is_full_report (notes (fst r)) = true.
Proof.
  unfold full_report.
  destruct (legs prefs d _ _ (dp plan)) as [st|f]; cbn [bind];
    [|discriminate].
  destruct (po2_section prefs _ (dp plan)) as [pw|f]; cbn [bind];
    [|discriminate].
  intro E. inversion E; subst r; clear E. cbn [fst notes set_notes].
  unfold is_full_report. apply andb_true_iff. split.
  - rewrite !existsb_app. cbn [existsb is_cns_line orb].
    rewrite !orb_true_r. reflexivity.
  - do 2 apply closes_report_app. do 4 apply closes_report_cons.
    do 3 apply closes_report_app. reflexivity.
Qed.

Lemma full_report_terminates (text : chunk) :
  full_report prefs current_date plan d show_disclaimer text
  <> Fault OutOfFuel.
Proof.
  unfold full_report. cbv zeta.
  destruct (legs prefs d _ _ (dp plan)) as [st|f] eqn:El; cbn [bind].
  - destruct (po2_section prefs _ (dp plan)) as [pw|f] eqn:Ep; cbn [bind];
      [discriminate|].
    intro E. inversion E; subst f. clear El. revert Ep. unfold po2_section.
    destruct (divemode_eqb (dc_divemode (recompute_statistics d)) CCR);
      cbn [negb]; [discriminate|].
    generalize false. induction (dp plan) as [|p rest IH]; intro b;
      cbn [po2_warnings]; [discriminate|].
    destruct (po2_warning prefs _ p) as [[w|]|f] eqn:Ew; cbn [bind].
    + destruct (po2_warnings prefs _ rest true) eqn:Er; cbn [bind];
        [discriminate|].
      intro E'. inversion E'; subst. exact (IH true Er).
    + apply IH.
    + intro E'. inversion E'; subst. revert Ew. unfold po2_warning, cylinder_at.
      repeat match goal with
             | |- context [match ?q with Some _ => _ | None => _ end] =>
                 destruct q; cbn [bind]
             | |- context [if ?b then _ else _] => destruct b; cbn [bind]
             end; discriminate.
  - intro E. inversion E; subst f.
    exact (legs_never_out_of_fuel prefs d _ _ _ (le_n _) El).
Qed.

Lemma full_report_ok (text : chunk) :
  cylinders_in_range d (dp plan) ->
  cylinders_in_range (recompute_statistics d) (dp plan) ->
  ends_computed (dp plan) = true ->
  is_ok (full_report prefs current_date plan d show_disclaimer text).
Proof.
  intros Hd Hd1 Hend. unfold full_report.
  apply is_ok_bind.
  { apply legs_ok; [apply le_n|assumption|now right]. }
  intros st _. apply is_ok_bind; [|intros; apply is_ok_Ok].
  unfold po2_section. destruct (negb _); [|apply is_ok_Ok].
  now apply po2_warnings_ok.
Qed.

(** ** Early results *)

(** C5.  [add_plan_to_notes] ends early in three cases: without waypoints
    it leaves the dive as it was; after an error of the deco calculation
    the notes are the single warning line and nothing else of the dive is
    recomputed; for a negative surface interval (overlapping dives) the
    notes are the disclaimer, if asked for, and the banner.  In every other
    case the function terminates, every report it writes is a full one, and
    it does write one when the waypoints name cylinders of the dive and the
    plan ends in a computed waypoint with a time. *)
Theorem early_results (error : Z) :
  let text :=
    Disclaimer (if deco_mode_eqb decoMode VPMB then VPMB else BUEHLMANN) in
  let gl' := mkGlobals (Some text) in
  let result :=
    add_plan_to_notes gl prefs current_date plan d show_disclaimer error in
  (dp plan = [] -> result = Ok (mkOutcome gl' d None))
  /\ (dp plan <> [] -> error <> 0 ->
      result = Ok (mkOutcome gl' (set_notes d (Some [AbortWarning])) None))
  /\ (dp plan <> [] -> error = 0 -> surface_interval plan < 0 ->
      result =
      Ok (mkOutcome gl'
            (set_notes d
               (Some ((if show_disclaimer then [text] else [])
                      ++ [BannerOverlapping])))
            None))
  /\ (dp plan <> [] -> error = 0 -> 0 <= surface_interval plan ->
      result <> Fault OutOfFuel
      /\ (forall o, result = Ok o ->
                    is_full_report (notes (out_dive o)) = true)
      /\ (cylinders_in_range d (dp plan) ->
          cylinders_in_range (recompute_statistics d) (dp plan) ->
          ends_computed (dp plan) = true ->
          is_ok result)).
Proof.
  intros text gl' result. subst result. unfold add_plan_to_notes.
  fold text. fold gl'.
  destruct (dp plan) as [|p0 rest] eqn:Edp.
  - repeat split; intros; try reflexivity; congruence.
  - split; [discriminate|]. split; [|split].
    + intros _ Herr. apply Zneqb_neq in Herr. rewrite Herr. reflexivity.
    + intros _ -> Hsi. apply Z.ltb_lt in Hsi. cbn [Zneqb Z.eqb negb].
      rewrite Hsi. reflexivity.
    + intros _ -> Hsi. apply Z.ltb_ge in Hsi. cbn [Zneqb Z.eqb negb].
      rewrite Hsi. split; [|split].
      * pose proof (full_report_terminates text) as Ht.
        destruct (full_report _ _ _ _ _ _) as [r|f]; cbn [bind];
          [discriminate|congruence].
      * intros o. pose proof (full_report_is_full text) as Hf.
        destruct (full_report _ _ _ _ _ _) as [r|f]; cbn [bind];
          [|discriminate].
        intro E. inversion E; subst o. cbn [out_dive]. now apply Hf.
      * intros Hd Hd1 Hend. rewrite <- Edp in Hd, Hd1, Hend.
        apply is_ok_bind; [now apply full_report_ok|].
        intros; apply is_ok_Ok.
Qed.

End ReportProperties.

(** ** The ICD table *)

Section IcdProperties.

Context `{Collaborators}.

Variable prefs : preferences.
Variable d : dive.

Ltac split_hyp E :=
  repeat (cbn [bind fst snd andb negb andr orr deref depth_differs
               is_some is_null] in E;
          match type of E with
          | context [match ?q with Some _ => _ | None => _ end] =>
              destruct q
          | context [if ?b then _ else _] => destruct b eqn:?
          end);
  cbn [bind fst snd andb negb] in E.

Ltac icd_fields :=
  cbn [icdbuffer icdwarning lastprintgasmix end_of_leg set_printed
       set_lastprintgasmix set_lastprintsetpoint set_lastbottomdp
       record_icd set_icd emit] in *.

Lemma report_leg_icd (st st' : loop_state) (p : divedatapoint)
    (next nextdp : option divedatapoint) (g newgasmix : gasmix)
    (isascent before after : bool) :
  report_leg prefs d st p next nextdp g newgasmix isascent before after
  = Ok st' ->
  icd_unchanged st st' \/ icd_recorded d p st st'.
Proof.
  unfold report_leg, verbatim_segment, collapsed_segment, verbatim_switch,
    print_segment, trailing_gaschange.
  intro E. destruct nextdp as [n|], next as [q|];
    split_hyp E; try discriminate; injection E as <-;
    icd_fields;
    first [ left; split; reflexivity
          | right; unfold icd_recorded, icd_entry_at; do 2 eexists;
            split; [|split; reflexivity];
            repeat match goal with
                   | Hb : _ && _ = true |- _ =>
                       apply andb_true_iff in Hb; destruct Hb
                   end; assumption ].
Qed.

Lemma report_leg_icd_only (st st' : loop_state) (p : divedatapoint)
    (next nextdp : option divedatapoint) (g newgasmix : gasmix)
    (isascent before after : bool) :
  report_leg prefs d st p next nextdp g newgasmix isascent before after
  = Ok st' ->
  icdbuffer st' = icdbuffer st
  \/ exists t gas_to,
       icd_recording_leg prefs st p isascent before t
       /\ get_he (lastprintgasmix st) > 0
       /\ icdbuffer st' =
          icdbuffer st
          ++ [IcdRow (icd_entry_at d p t (lastprintgasmix st) gas_to)].
Proof.
  unfold report_leg, verbatim_segment, collapsed_segment, verbatim_switch,
    print_segment, trailing_gaschange.
  intro E. destruct nextdp as [n|], next as [q|], isascent, before;
    destruct (verbatim_plan prefs) eqn:Hmode;
    destruct (Zneqb (setpoint p) 0) eqn:Hsp;
    split_hyp E; try discriminate; injection E as <-;
    icd_fields;
    first [ match goal with
            | Hx : _ && false = true |- _ =>
                rewrite andb_false_r in Hx; discriminate Hx
            end
          | left; reflexivity
          | right; unfold icd_recording_leg, icd_entry_at;
            try apply Zneqb_eq in Hsp;
            do 2 eexists;
            refine (conj _ (conj (proj1 (Zgtb_gt _ _) ltac:(eassumption))
                              eq_refl));
            first [ left; split; [exact Hmode|]; split; [exact Hsp|];
                    first [ left; split; reflexivity
                          | right; split; reflexivity ]
                  | right; split; [exact Hmode|]; split; reflexivity ] ].
Qed.

(** The last bottom waypoint is the last reported waypoint that was entered
    by hand and is followed by a computed one. *)
Lemma report_leg_lastbottom (st st' : loop_state) (p : divedatapoint)
    (next nextdp : option divedatapoint) (g newgasmix : gasmix)
    (isascent before after : bool) :
  report_leg prefs d st p next nextdp g newgasmix isascent before after
  = Ok st' ->
  lastbottomdp st' =
  match nextdp with
  | Some n => if entered p && negb (entered n) then Some p
              else lastbottomdp st
  | None => lastbottomdp st
  end.
Proof.
  unfold report_leg, verbatim_segment, collapsed_segment, verbatim_switch,
    print_segment, trailing_gaschange.
  intro E. destruct nextdp as [n|], next as [q|];
    split_hyp E; try discriminate; injection E as <-;
    cbn [andb negb]; icd_fields; cbn [lastbottomdp]; reflexivity.
Qed.

Lemma leg_step_icd (st st' : loop_state) (p : divedatapoint)
    (rest l : list divedatapoint) :
  leg_step prefs d st p rest = Ok (st', l) ->
  (time p = 0 /\ st' = st)
  \/ (time p <> 0 /\ (icd_unchanged st st' \/ icd_recorded d p st st')).
Proof.
  unfold leg_step. destruct (time p =? 0) eqn:Et.
  { apply Z.eqb_eq in Et. intro E. injection E as <- <-. now left. }
  apply Z.eqb_neq in Et. intro E. right. split; [assumption|].
  destruct (cylinder_at d (cylinderid p)); cbn [bind] in E; [|discriminate].
  destruct (next_gasmix d (head_dp (skip_zero rest))); cbn [bind] in E;
    [|discriminate].
  match type of E with
  | bind ?m _ = _ => destruct m as [[|]|]; cbn [bind] in E
  end; [injection E as <- <-; left; split; reflexivity| |discriminate].
  match type of E with
  | bind ?m _ = _ => destruct m as [s|] eqn:Er; cbn [bind] in E
  end; [|discriminate].
  injection E as <- <-. exact (report_leg_icd _ _ _ _ _ _ _ _ _ _ Er).
Qed.

Lemma icd_rows_app (a b : list icd_chunk) :
  icd_rows (a ++ b) = icd_rows a ++ icd_rows b.
Proof.
  induction a as [|[|e] a IH]; cbn; [reflexivity|assumption|].
  now rewrite IH.
Qed.

Lemma skip_zero_incl (l : list divedatapoint) (x : divedatapoint) :
  In x (skip_zero l) -> In x l.
Proof.
  induction l as [|n rest IH]; cbn; [auto|].
  destruct (time n =? 0); cbn; auto.
Qed.

Lemma skip_zero_nonzero (l : list divedatapoint) :
  nonzero_waypoints (skip_zero l) = nonzero_waypoints l.
Proof.
  unfold nonzero_waypoints. induction l as [|n rest IH]; cbn; [reflexivity|].
  unfold Zneqb at 2. destruct (time n =? 0) eqn:Et; cbn [negb]; [assumption|].
  cbn [filter]. unfold Zneqb. rewrite Et. reflexivity.
Qed.

Lemma icd_invariant_step (L : list divedatapoint) (st st' : loop_state)
    (p : divedatapoint) :
  In p L -> time p <> 0 ->
  icd_invariant d L st ->
  icd_unchanged st st' \/ icd_recorded d p st st' ->
  icd_invariant d L st'
  /\ (List.length (icd_rows (icdbuffer st'))
      <= S (List.length (icd_rows (icdbuffer st))))%nat.
Proof.
  intros Hp Ht [Hw Hrows] [[Hb Hi]|(t & g & Hhe & Hb & Hi)].
  - unfold icd_invariant. rewrite Hb, Hi. auto.
  - unfold icd_invariant. rewrite Hb, Hi, icd_rows_app. cbn [icd_rows].
    rewrite existsb_app, length_app. cbn [existsb List.length].
    split; [split|lia].
    + rewrite Hw. unfold icd_entry_at.
      change (icd_violation
                (add_icd_entry
                   (snd (isobaric_counterdiffusion (lastprintgasmix st) g))
                   t (depth_to_mbar (depth p) d) (lastprintgasmix st) g))
        with (fst (isobaric_counterdiffusion (lastprintgasmix st) g)).
      destruct (fst (isobaric_counterdiffusion (lastprintgasmix st) g));
        cbn [orb]; [now rewrite orb_true_r|now rewrite orb_false_r].
    + apply Forall_app. split; [assumption|]. constructor; [|constructor].
      unfold icd_entry_ok. split.
      * apply Zgtb_gt. exact Hhe.
      * exists p, t. repeat split; assumption.
Qed.

Lemma legs_icd (L : list divedatapoint) (fuel : nat) :
  forall (l : list divedatapoint) (st st' : loop_state),
    legs prefs d fuel st l = Ok st' ->
    (forall x, In x l -> In x L) ->
    icd_invariant d L st ->
    icd_invariant d L st'
    /\ (List.length (icd_rows (icdbuffer st'))
        <= List.length (icd_rows (icdbuffer st)) + nonzero_waypoints l)%nat.
Proof.
  induction fuel as [|fuel IH]; intros l st st' Hlegs Hin Hinv.
  - destruct l; cbn in Hlegs; [|discriminate].
    injection Hlegs as <-. split; [assumption|lia].
  - destruct l as [|p rest]; cbn [legs] in Hlegs.
    { injection Hlegs as <-. split; [assumption|lia]. }
    destruct (leg_step prefs d st p rest) as [[s1 l1]|f] eqn:Estep;
      cbn [bind fst snd] in Hlegs; [|discriminate].
    pose proof (leg_step_next prefs d _ _ _ _ _ Estep) as Hnext.
    apply leg_step_icd in Estep.
    unfold nonzero_waypoints. cbn [filter].
    destruct Estep as [[Ht ->]|[Ht Hstep]].
    + destruct Hnext as [[_ ->]|[Hne _]]; [|contradiction].
      apply Zneqb_eq in Ht. rewrite Ht.
      apply (IH _ _ _ Hlegs); [|assumption].
      intros x Hx. apply Hin. now right.
    + destruct Hnext as [[He _]|[_ ->]]; [contradiction|].
      pose proof Ht as Ht'. apply Zneqb_neq in Ht'. rewrite Ht'.
      cbn [List.length].
      destruct (icd_invariant_step L st s1 p) as [Hinv1 Hlen1];
        [apply Hin; now left|assumption|assumption|assumption|].
      destruct (IH _ _ _ Hlegs) as [Hinv2 Hlen2]; [|assumption|].
      { intros x Hx. apply Hin. right. now apply skip_zero_incl. }
      split; [assumption|].
      rewrite skip_zero_nonzero in Hlen2.
      unfold nonzero_waypoints in Hlen2. lia.
Qed.


End IcdProperties.

(** ** A bottom stay followed by the final ascent *)

Section BottomAndAscent.

Context `{Collaborators}.

Variable prefs : preferences.
Variable d : dive.
Variables D cid : Z.
Variable c : cylinder_t.

Hypothesis Hcyl : cylinder_at d cid = Ok c.
Hypothesis Hsame : gasmix_distance (cyl_gasmix c) (cyl_gasmix c) = 0.

Ltac state_fields :=
  cbn [buffer icdbuffer lastdepth lasttime lastsetpoint newdepth
       lastprintdepth lastprintsetpoint lastprintgasmix lastentered
       icdwarning lastbottomdp end_of_leg set_printed set_lastprintgasmix
       set_lastprintsetpoint set_lastbottomdp record_icd set_icd emit].

Lemma rows_in_emit_row (st : loop_state) (r : leg_row) :
  rows_in (buffer st ++ [LegRow r]) = S (rows_in (buffer st)).
Proof.
  unfold rows_in. rewrite filter_app, length_app. cbn. lia.
Qed.

Lemma not_reached_early (st : loop_state) (p : divedatapoint) (t : Z) :
  lasttime st <= t -> t + 10 <= time p ->
  (time p - lasttime st <? 10) && (lastdepth st =? depth p) = false.
Proof.
  intros Hl Ht. apply andb_false_iff. left. apply Z.ltb_ge. lia.
Qed.

Lemma collapsed_bottom_step (st : loop_state) (p n : divedatapoint)
    (rest : list divedatapoint) (t : Z) :
  verbatim_plan prefs = false ->
  is_bottom D cid p ->
  0 <= t -> lasttime st <= t -> t + 10 <= time p ->
  time n <> 0 -> cylinderid n = cid -> setpoint n = 0 ->
  exists st',
    leg_step prefs d st p (n :: rest) = Ok (st', n :: rest)
    /\ rows_in (buffer st') = S (rows_in (buffer st))
    /\ gas_printed c st'
    /\ lastdepth st' = D
    /\ lasttime st' = time p.
Proof.
  intros Hmode (Hent & Hdepth & Hcid & Hsp) Ht0 Hlast Htime Hn Hncid Hnsp.
  unfold leg_step.
  assert (Et : (time p =? 0) = false) by (apply Z.eqb_neq; lia).
  rewrite Et, Hcid, Hcyl. cbn [bind skip_zero head_dp next_gasmix].
  apply Z.eqb_neq in Hn. rewrite Hn. cbn [head_dp next_gasmix].
  rewrite Hncid, Hcyl. cbn [bind].
  unfold gaschange_after_at. rewrite Hsame, Hsp, Hnsp.
  cbn [Zneqb Z.eqb negb orb].
  unfold skip_leg. rewrite Hent.
  cbn [negb andb andr orr bind is_some deref].
  rewrite (not_reached_early st p t Hlast Htime). cbn [andb andr bind].
  unfold report_leg. rewrite Hent, Hmode.
  cbn [negb andb andr orr bind is_some deref].
  unfold collapsed_segment, print_segment, trailing_gaschange.
  rewrite Hent, Hsp.
  match goal with
  | |- context [orr (Ok (display_transitions prefs)) (orr (Ok true) ?x)] =>
      replace (orr (Ok (display_transitions prefs)) (orr (Ok true) x))
        with (Ok (A := bool) true)
        by (destruct (display_transitions prefs); reflexivity)
  end.
  cbn [bind negb andb orb andr orr Zneqb Z.eqb].
  rewrite !andb_false_r. cbn [bind andr].
  unfold gas_printed.
  destruct (gaschange_before_at _ p (cyl_gasmix c)) eqn:Ebefore;
    cbn [bind fst snd andb].
  - eexists. split; [reflexivity|].
    repeat match goal with
           | |- context [if ?b then _ else _] => destruct b
           end; state_fields;
      (split; [apply rows_in_emit_row|]);
      (split; [split; [exact Hsame|reflexivity]|]);
      (split; [exact Hdepth|reflexivity]).
  - eexists. split; [reflexivity|].
    apply orb_false_iff in Ebefore. destruct Ebefore as [Eg Es].
    apply Zneqb_eq in Eg, Es. rewrite Hsp in Es.
    repeat match goal with
           | |- context [if ?b then _ else _] => destruct b
           end; state_fields;
      (split; [apply rows_in_emit_row|]);
      (split; [split; [exact Eg|exact Es]|]);
      (split; [exact Hdepth|reflexivity]).
Qed.

Lemma collapsed_ascent_step (st : loop_state) (a : divedatapoint) :
  verbatim_plan prefs = false ->
  is_final_ascent D cid a ->
  gas_printed c st ->
  lastdepth st = D ->
  exists st',
    leg_step prefs d st a [] = Ok (st', [])
    /\ rows_in (buffer st') = S (rows_in (buffer st)).
Proof.
  intros Hmode (Hent & Hdepth & Hcid & Hsp & Ht) [Hg Hs] Hlast.
  unfold leg_step. apply Z.eqb_neq in Ht.
  rewrite Ht, Hcid, Hcyl. cbn [bind skip_zero head_dp next_gasmix].
  unfold gaschange_after_at, gaschange_before_at.
  rewrite Hg, Hs, Hsp. cbn [Zneqb Z.eqb negb orb].
  unfold skip_leg. rewrite Hent, Hlast.
  assert (Ed : (D =? depth a) = false) by (apply Z.eqb_neq; congruence).
  rewrite Ed, !andb_false_r.
  cbn [negb andb andr orr bind is_some deref].
  unfold report_leg. rewrite Hent, Hmode.
  cbn [negb andb andr orr bind is_some deref].
  unfold collapsed_segment, print_segment, trailing_gaschange.
  rewrite Hent. cbn [is_null is_some negb].
  replace (orr (Ok (display_transitions prefs)) _)
    with (Ok (A := bool) true)
    by (destruct (display_transitions prefs); reflexivity).
  rewrite !andb_false_r.
  cbn [bind negb andb orb andr orr fst snd].
  eexists. split; [reflexivity|]. state_fields. apply rows_in_emit_row.
Qed.

(** The waypoint after a waypoint of the bottom stay. *)
Lemma bottom_successor (a p : divedatapoint) (bottoms : list divedatapoint) :
  is_final_ascent D cid a ->
  Forall (is_bottom D cid) bottoms ->
  0 <= time p ->
  spaced (time p) bottoms ->
  exists n rest,
    bottoms ++ [a] = n :: rest
    /\ time n <> 0 /\ cylinderid n = cid /\ setpoint n = 0
    /\ (bottoms = [] -> n = a)
    /\ (bottoms <> [] -> depth n = D).
Proof.
  intros (Hent & Hdepth & Hcid & Hsp & Ht) Hb Hp Hs.
  destruct bottoms as [|n bs]; cbn [app].
  - exists a, []. repeat split; auto. congruence.
  - inversion Hb as [|? ? (_ & Hnd & Hncid & Hnsp) _]; subst.
    destruct Hs as [Hn _].
    exists n, (bs ++ [a]). repeat split; auto; try lia. discriminate.
Qed.

(** The collapsed plan has one row for each waypoint of a bottom stay and
    one for the final ascent. *)
Lemma collapsed_bottom_and_ascent (a : divedatapoint) :
  verbatim_plan prefs = false ->
  is_final_ascent D cid a ->
  forall (bottoms : list divedatapoint) (st : loop_state) (t : Z)
         (fuel : nat),
    Forall (is_bottom D cid) bottoms ->
    spaced t bottoms ->
    0 <= t -> lasttime st <= t ->
    (bottoms = [] -> gas_printed c st /\ lastdepth st = D) ->
    (List.length (bottoms ++ [a]) <= fuel)%nat ->
    exists st',
      legs prefs d fuel st (bottoms ++ [a]) = Ok st'
      /\ rows_in (buffer st') = (rows_in (buffer st)
                                 + List.length bottoms + 1)%nat.
Proof.
  intros Hmode Ha bottoms.
  induction bottoms as [|p bs IH]; intros st t fuel Hb Hs Ht Hlast Hst Hfuel.
  - destruct (Hst eq_refl) as [Hg Hd].
    destruct fuel as [|fuel]; [cbn in Hfuel; lia|].
    destruct (collapsed_ascent_step st a Hmode Ha Hg Hd) as (st' & E & Hr).
    exists st'. cbn [app legs]. rewrite E. cbn [bind fst snd legs].
    destruct fuel; (split; [reflexivity|cbn [List.length]; lia]).
  - apply Forall_cons_iff in Hb. destruct Hb as [Hp Hbs]. destruct Hs as [Htp Hs].
    destruct fuel as [|fuel]; [cbn in Hfuel; lia|].
    destruct (bottom_successor a p bs Ha Hbs ltac:(lia) Hs)
      as (n & rest & Erest & Hn & Hncid & Hnsp & _).
    cbn [app legs]. rewrite Erest.
    destruct (collapsed_bottom_step st p n rest t Hmode Hp Ht Hlast Htp
                Hn Hncid Hnsp) as (st1 & E & Hr & Hg & Hd & Hl).
    rewrite E. cbn [bind fst snd]. rewrite <- Erest.
    destruct (IH st1 (time p) fuel Hbs Hs) as (st' & E' & Hr');
      [lia|lia|auto| |].
    { cbn [app List.length] in Hfuel. lia. }
    exists st'. split; [exact E'|]. rewrite Hr', Hr. cbn [List.length]. lia.
Qed.

Lemma lines_in_emit (st : loop_state) (c0 : chunk) :
  is_verbatim_line c0 = true ->
  lines_in (buffer st ++ [c0]) = S (lines_in (buffer st)).
Proof.
  intro Hc. unfold lines_in. rewrite filter_app, length_app. cbn [filter].
  rewrite Hc. cbn. lia.
Qed.

(** The head of [leg_step] for a waypoint of the bottom stay, or the final
    ascent, when no gas change follows: the waypoint is reported. *)
Lemma verbatim_bottom_step (st : loop_state) (p n : divedatapoint)
    (rest : list divedatapoint) (t : Z) :
  verbatim_plan prefs = true ->
  is_bottom D cid p ->
  0 <= t -> lasttime st <= t -> t + 10 <= time p ->
  time n <> 0 -> cylinderid n = cid -> setpoint n = 0 ->
  exists st',
    leg_step prefs d st p (n :: rest) = Ok (st', n :: rest)
    /\ lines_in (buffer st') =
       (lines_in (buffer st)
        + (if ((lastprintdepth st =? D)%Z && (depth n =? D)%Z)%bool
           then 0 else 1))%nat
    /\ (lastprintdepth st = D -> newdepth st = D ->
        lastprintdepth st' = D /\ newdepth st' = D)
    /\ (lastprintdepth st <> D ->
        lastprintdepth st' = D /\ newdepth st' = D)
    /\ lastdepth st' = D
    /\ lasttime st' <= time p.
Proof.
  intros Hmode (Hent & Hdepth & Hcid & Hsp) Ht0 Hlast Htime Hn Hncid Hnsp.
  unfold leg_step.
  assert (Et : (time p =? 0) = false) by (apply Z.eqb_neq; lia).
  rewrite Et, Hcid, Hcyl. cbn [bind skip_zero head_dp next_gasmix].
  apply Z.eqb_neq in Hn. rewrite Hn. cbn [head_dp next_gasmix].
  rewrite Hncid, Hcyl. cbn [bind].
  unfold gaschange_after_at. rewrite Hsame, Hsp, Hnsp.
  cbn [Zneqb Z.eqb negb orb].
  unfold skip_leg. rewrite Hent.
  cbn [negb andb andr orr bind is_some deref].
  rewrite (not_reached_early st p t Hlast Htime). cbn [andb andr bind].
  unfold report_leg. rewrite Hent, Hmode.
  cbn [negb andb andr orr bind is_some deref].
  assert (Eswap : forall x y, (x =? y) = (y =? x)) by (intros; apply Z.eqb_sym).
  unfold verbatim_segment, Zneqb, depth_differs.
  destruct (negb (entered n)), (display_transitions prefs); state_fields;
    cbn [deref bind is_some andr];
    rewrite Hent, Hdepth; unfold Zneqb;
    rewrite (Eswap D (lastprintdepth st)), (Eswap D (depth n));
    destruct (lastprintdepth st =? D) eqn:Eprint;
    destruct (depth n =? D) eqn:Enext;
    cbn [negb andb andr orr bind is_some deref fst snd];
    (eexists; split; [reflexivity|]); state_fields;
    first [apply Z.eqb_eq in Eprint | apply Z.eqb_neq in Eprint];
    (split; [rewrite ?lines_in_emit by reflexivity; state_fields; lia|]);
    (split; [auto|]); (split; [intros; try contradiction; auto|]);
    (split; [exact Hdepth|lia]).
Qed.

Lemma verbatim_ascent_step (st : loop_state) (a : divedatapoint) :
  verbatim_plan prefs = true ->
  is_final_ascent D cid a ->
  lastprintdepth st = D ->
  lastdepth st = D ->
  exists st',
    leg_step prefs d st a [] = Ok (st', [])
    /\ lines_in (buffer st') = S (lines_in (buffer st)).
Proof.
  intros Hmode (Hent & Hdepth & Hcid & Hsp & Ht) Hprint Hlast.
  unfold leg_step. apply Z.eqb_neq in Ht.
  rewrite Ht, Hcid, Hcyl. cbn [bind skip_zero head_dp next_gasmix].
  unfold gaschange_after_at.
  unfold skip_leg. rewrite Hent, Hlast.
  assert (Ed : (D =? depth a) = false) by (apply Z.eqb_neq; congruence).
  rewrite Ed, !andb_false_r.
  cbn [negb andb andr orr bind is_some deref].
  unfold report_leg. rewrite Hent, Hmode.
  cbn [negb andb andr orr bind is_some deref].
  unfold verbatim_segment. rewrite Hent, Hprint.
  assert (Ed' : Zneqb (depth a) D = true) by (now apply Zneqb_neq).
  rewrite Ed'. cbn [is_null is_some negb].
  replace (orr (Ok (display_transitions prefs)) _)
    with (Ok (A := bool) true)
    by (destruct (display_transitions prefs); reflexivity).
  cbn [bind negb andb orb andr orr fst snd].
  eexists. split; [reflexivity|]. state_fields.
  now apply lines_in_emit.
Qed.

(** The verbatim plan has a line for the final ascent, and before it one
    line for the rest of the bottom stay, if there is one. *)
Lemma verbatim_bottom_and_ascent (a : divedatapoint) :
  verbatim_plan prefs = true ->
  is_final_ascent D cid a ->
  forall (bottoms : list divedatapoint) (st : loop_state) (t : Z)
         (fuel : nat),
    Forall (is_bottom D cid) bottoms ->
    spaced t bottoms ->
    0 <= t -> lasttime st <= t ->
    lastprintdepth st = D -> newdepth st = D -> lastdepth st = D ->
    (List.length (bottoms ++ [a]) <= fuel)%nat ->
    exists st',
      legs prefs d fuel st (bottoms ++ [a]) = Ok st'
      /\ lines_in (buffer st') =
         (lines_in (buffer st)
          + match bottoms with [] => 1 | _ :: _ => 2 end)%nat.
Proof.
  intros Hmode Ha bottoms.
  induction bottoms as [|p bs IH];
    intros st t fuel Hb Hs Ht Hlast Hprint Hnew Hdepth Hfuel.
  - destruct fuel as [|fuel]; [cbn in Hfuel; lia|].
    destruct (verbatim_ascent_step st a Hmode Ha Hprint Hdepth)
      as (st' & E & Hr).
    exists st'. cbn [app legs]. rewrite E. cbn [bind fst snd legs].
    destruct fuel; (split; [reflexivity|lia]).
  - apply Forall_cons_iff in Hb. destruct Hb as [Hp Hbs]. destruct Hs as [Htp Hs].
    destruct fuel as [|fuel]; [cbn in Hfuel; lia|].
    destruct (bottom_successor a p bs Ha Hbs ltac:(lia) Hs)
      as (n & rest & Erest & Hn & Hncid & Hnsp & Hlastb & Hmid).
    cbn [app legs]. rewrite Erest.
    destruct (verbatim_bottom_step st p n rest t Hmode Hp Ht Hlast Htp
                Hn Hncid Hnsp)
      as (st1 & E & Hr & Hkeep & _ & Hd1 & Hl1).
    rewrite E. cbn [bind fst snd]. rewrite <- Erest.
    destruct (Hkeep Hprint Hnew) as [Hp1 Hn1].
    destruct (IH st1 (time p) fuel Hbs Hs) as (st' & E' & Hr');
      try assumption; try lia.
    { cbn [app List.length] in Hfuel. lia. }
    exists st'. split; [exact E'|]. rewrite Hr', Hr, Hprint.
    rewrite Z.eqb_refl. cbn [andb].
    destruct bs as [|q bs'].
    + rewrite (Hlastb eq_refl).
      destruct Ha as (_ & Hda & _). apply Z.eqb_neq in Hda. rewrite Hda. lia.
    + rewrite Hmid by discriminate. rewrite Z.eqb_refl. lia.
Qed.

(** ** Collapsing a bottom stay *)

(** C8.  For a plan on a single gas without setpoint made of a bottom stay
    of [n >= 1] waypoints entered by hand at one depth, at least 10 seconds
    apart, and one computed final ascent, the collapsed plan has a row for
    every waypoint, [n + 1] rows, so exactly 2 rows when the bottom stay is a
    single waypoint; the verbatim plan has 2 lines when the bottom stay is a
    single waypoint and 3 lines otherwise: the transition to the depth, one
    line for the rest of the stay and the final transition. *)
Theorem bottom_stay_and_final_ascent (bottoms : list divedatapoint)
    (a : divedatapoint) (buf : list chunk) (icdbuf : list icd_chunk) :
  D <> 0 ->
  bottoms <> [] ->
  Forall (is_bottom D cid) bottoms ->
  spaced 0 bottoms ->
  is_final_ascent D cid a ->
  exists st,
    legs prefs d (List.length (bottoms ++ [a])) (initial_state buf icdbuf)
      (bottoms ++ [a]) = Ok st
    /\ (verbatim_plan prefs = false ->
        rows_in (buffer st) = (rows_in buf + List.length bottoms + 1)%nat
        /\ (List.length bottoms = 1%nat ->
            rows_in (buffer st) = (rows_in buf + 2)%nat))
    /\ (verbatim_plan prefs = true ->
        lines_in (buffer st) =
        (lines_in buf + match bottoms with [_] => 2 | _ => 3 end)%nat).
Proof.
  intros HD Hne Hb Hs Ha.
  destruct (verbatim_plan prefs) eqn:Hmode.
  - destruct bottoms as [|p bs]; [contradiction|].
    apply Forall_cons_iff in Hb. destruct Hb as [Hp Hbs]. destruct Hs as [Htp Hs].
    destruct (bottom_successor a p bs Ha Hbs ltac:(lia) Hs)
      as (n & rest & Erest & Hn & Hncid & Hnsp & _).
    cbn [app List.length legs]. rewrite Erest.
    destruct (verbatim_bottom_step (initial_state buf icdbuf) p n rest 0
                Hmode Hp (Z.le_refl 0) (Z.le_refl 0) Htp Hn Hncid Hnsp)
      as (st1 & E & Hr & _ & Hfirst & Hd1 & Hl1).
    rewrite E. cbn [bind fst snd]. rewrite <- Erest.
    destruct Hfirst as [Hp1 Hn1].
    { cbn. congruence. }
    destruct (verbatim_bottom_and_ascent a Hmode Ha bs st1 (time p)
                (List.length (bs ++ [a])) Hbs Hs)
      as (st' & E' & Hr'); try assumption; try lia.
    exists st'. split; [exact E'|]. split; [discriminate|]. intros _.
    rewrite Hr', Hr. cbn [initial_state buffer lastprintdepth].
    assert (E0 : (0 =? D) = false) by (apply Z.eqb_neq; congruence).
    rewrite E0. cbn [andb]. destruct bs; lia.
  - destruct (collapsed_bottom_and_ascent a Hmode Ha bottoms
                (initial_state buf icdbuf) 0
                (List.length (bottoms ++ [a])) Hb Hs)
      as (st' & E' & Hr'); try (cbn; lia).
    { intro. contradiction. }
    exists st'. split; [exact E'|]. split; [|discriminate]. intros _.
    cbn [initial_state buffer] in Hr'. split; [exact Hr'|].
    intro Hone. rewrite Hr', Hone. lia.
Qed.

End BottomAndAscent.

(** ** Running the report twice *)

Section Idempotence.

Context `{Collaborators}.

Variable prefs : preferences.

Section Extensionality.

Variables d d' : dive.

Hypothesis Hcyl : cylinder d = cylinder d'.
Hypothesis Hmode : dc_divemode d = dc_divemode d'.
Hypothesis Hmbar : forall x, depth_to_mbar x d = depth_to_mbar x d'.
Hypothesis Hbar : forall x, depth_to_bar x d = depth_to_bar x d'.
Hypothesis Hatm : forall x, depth_to_atm x d = depth_to_atm x d'.

Lemma leg_step_ext (st : loop_state) (p : divedatapoint)
    (rest : list divedatapoint) :
  leg_step prefs d st p rest = leg_step prefs d' st p rest.
Proof.
  unfold leg_step, report_leg, collapsed_segment, verbatim_switch,
    record_icd, next_gasmix, cylinder_at.
  rewrite Hcyl, (Hmbar (depth p)). reflexivity.
Qed.

Lemma legs_ext (fuel : nat) :
  forall (l : list divedatapoint) (st : loop_state),
    legs prefs d fuel st l = legs prefs d' fuel st l.
Proof.
  induction fuel as [|fuel IH]; intros [|p rest] st; cbn [legs];
    try reflexivity.
  rewrite leg_step_ext.
  destruct (leg_step prefs d' st p rest) as [[s l]|f]; cbn [bind fst snd];
    [apply IH|reflexivity].
Qed.

Lemma cylinder_consumption_ext (lb : option divedatapoint) (gasidx : Z)
    (cyl : cylinder_t) :
  cylinder_consumption prefs d lb gasidx cyl
  = cylinder_consumption prefs d' lb gasidx cyl.
Proof.
  unfold cylinder_consumption, cylinder_checks, mingas_applies.
  destruct lb as [lb|]; [|reflexivity].
  unfold minimum_gas, mingas_note_of, mingas_margin, minimum_gas_mbar,
    mingas_mliter.
  rewrite Hmode, (Hbar (depth lb)). reflexivity.
Qed.

Lemma consumption_ext (lb : option divedatapoint)
    (cyls : list cylinder_t) :
  forall gasidx,
    consumption prefs d lb gasidx cyls = consumption prefs d' lb gasidx cyls.
Proof.
  induction cyls as [|cyl rest IH]; intro gasidx; cbn [consumption];
    [reflexivity|].
  rewrite cylinder_consumption_ext, IH. reflexivity.
Qed.

Lemma po2_section_ext (l : list divedatapoint) :
  po2_section prefs d l = po2_section prefs d' l.
Proof.
  unfold po2_section. rewrite Hmode.
  destruct (negb (divemode_eqb (dc_divemode d') CCR)); [|reflexivity].
  generalize false. induction l as [|p rest IH]; intro b;
    cbn [po2_warnings]; [reflexivity|].
  assert (Ep : po2_warning prefs d p = po2_warning prefs d' p).
  { unfold po2_warning, cylinder_at.
    rewrite Hcyl, Hmode, (Hatm (depth p)). reflexivity. }
  rewrite Ep.
  destruct (po2_warning prefs d' p) as [[w|]|f]; cbn [bind];
    [rewrite IH; reflexivity|apply IH|reflexivity].
Qed.

End Extensionality.

(** What the report needs of the collaborators that read or write the dive:
    the conversions of a depth read the cylinders and the dive mode at most;
    [update_cylinder_related_info] keeps both and the notes, does not read
    the notes, and recomputes the same statistics when run again. *)
Hypothesis depth_reads_plan_data :
  forall (d d' : dive) (x : Z),
    same_plan_data d d' ->
    depth_to_mbar x d = depth_to_mbar x d'
    /\ depth_to_bar x d = depth_to_bar x d'
    /\ depth_to_atm x d = depth_to_atm x d'.

Hypothesis update_keeps_plan_data :
  forall d : dive, same_plan_data d (update_cylinder_related_info d).

Hypothesis update_ignores_notes :
  forall (d : dive) (n : option (list chunk)),
    update_cylinder_related_info (set_notes d n)
    = set_notes (update_cylinder_related_info d) n.

Hypothesis recompute_again :
  forall d : dive,
    recompute_statistics (recompute_statistics d) = recompute_statistics d.

Lemma recompute_keeps_plan_data (d : dive) :
  same_plan_data d (recompute_statistics d).
Proof.
  unfold recompute_statistics.
  destruct (update_keeps_plan_data (set_maxcns (set_cns d 0) 0)) as [Hc Hm].
  split; [exact Hc|exact Hm].
Qed.

Lemma full_report_again (current_date : string) (plan : diveplan)
    (d : dive) (show_disclaimer : bool) (text : chunk)
    (r : dive * option Z) :
  full_report prefs current_date plan d show_disclaimer text = Ok r ->
  full_report prefs current_date plan (fst r) show_disclaimer text = Ok r.
Proof.
  unfold full_report. cbv zeta.
  destruct (legs prefs d _ _ (dp plan)) as [st|f] eqn:El; cbn [bind];
    [|discriminate].
  destruct (po2_section prefs _ (dp plan)) as [pw|f] eqn:Ep; cbn [bind];
    [|discriminate].
  intro E. injection E as <-. cbn [fst].
  set (d1 := recompute_statistics d) in *.
  match goal with
  | |- context [set_notes d1 ?n] => set (N := n) in *
  end.
  destruct (recompute_keeps_plan_data d) as [Hc1 Hm1]. fold d1 in Hc1, Hm1.
  assert (Hsame : same_plan_data d (set_notes d1 N)) by (split; assumption).
  assert (Hsame1 : same_plan_data d1 (set_notes d1 N)) by (split; reflexivity).
  assert (Hre : recompute_statistics (set_notes d1 N) = set_notes d1 N).
  { unfold recompute_statistics.
    change (set_maxcns (set_cns (set_notes d1 N) 0) 0)
      with (set_notes (set_maxcns (set_cns d1 0) 0) N).
    rewrite update_ignores_notes.
    change (update_cylinder_related_info (set_maxcns (set_cns d1 0) 0))
      with (recompute_statistics d1).
    unfold d1. rewrite recompute_again. reflexivity. }
  rewrite Hre.
  replace (has_trimix (set_notes d1 N)) with (has_trimix d)
    by (unfold has_trimix; cbn [cylinder set_notes]; now rewrite Hc1).
  rewrite <- (legs_ext d (set_notes d1 N)); [|exact Hc1|].
  2:{ intro x. now apply depth_reads_plan_data. }
  rewrite El. cbn [bind].
  rewrite <- (po2_section_ext d1 (set_notes d1 N)); [|reflexivity..|].
  2:{ intro x. now apply depth_reads_plan_data. }
  rewrite Ep. cbn [bind].
  rewrite <- (consumption_ext d1 (set_notes d1 N)); [|reflexivity|].
  2:{ intro x. now apply depth_reads_plan_data. }
  reflexivity.
Qed.

(** ** Idempotence *)


End Idempotence.

(** * The properties on concrete plans *)

Module Examples.

Import Reference.








(** C5, counterexample.  A plan with waypoints, computed without error, for
    a dive that overlaps another one: the notes end after the banner. *)
Lemma overlapping_dives_end_early :
  let plan := mkPlan square_plan (-1) 1013 30 70 0 0 0 in
  let d := dive_of [bottom_tank] in
  dp plan <> []
  /\ exists o,
       add_plan_to_notes gl0 prefs0 "today" plan d false 0 = Ok o
       /\ notes (out_dive o) = Some [BannerOverlapping]
       /\ is_full_report (notes (out_dive o)) = false.
Proof.
  intros plan d. split; [discriminate|].
  eexists. split; [vm_compute; reflexivity|]. split; reflexivity.
Qed.

Lemma early_results_witness :
  let d := dive_of [bottom_tank] in
  is_ok (add_plan_to_notes gl0 prefs0 "today" (plan_of square_plan) d false 0).
Proof.
  intro d.
  destruct (early_results gl0 prefs0 "today" (plan_of square_plan) d false 0)
    as (_ & _ & _ & Hfull).
  destruct Hfull as (_ & _ & Hok); [discriminate|reflexivity|cbn; lia|].
  apply Hok; [| |reflexivity];
    repeat constructor; eexists; reflexivity.
Defined.


(** C8, counterexample.  A bottom stay of two waypoints on one gas and the
    final ascent: three rows in the collapsed plan; and with a third
    waypoint in the stay, four waypoints with a time and three lines in the
    verbatim plan. *)
Lemma three_rows_for_bottom_and_ascent :
  let d := dive_of [bottom_tank] in
  let longer :=
    [mkDp 600 30000 0 0 true; mkDp 1200 30000 0 0 true;
     mkDp 1800 30000 0 0 true; mkDp 2100 0 0 0 false] in
  (exists o,
      report prefs0 (plan_of square_plan) d = Ok o
      /\ count_chunks is_leg_row (notes (out_dive o)) = 3%nat)
  /\ (exists o,
         report (verbatim prefs0) (plan_of longer) d = Ok o
         /\ nonzero_waypoints longer = 4%nat
         /\ count_chunks is_verbatim_line (notes (out_dive o)) = 3%nat).
Proof.
  intros d longer. split.
  - eexists. split; [vm_compute; reflexivity|]. reflexivity.
  - eexists. split; [vm_compute; reflexivity|]. split; reflexivity.
Qed.

Lemma bottom_stay_and_final_ascent_witness :
  let d := dive_of [bottom_tank] in
  let bottoms := [mkDp 600 30000 0 0 true] in
  let a := mkDp 1500 0 0 0 false in
  exists st,
    legs prefs0 d (List.length (bottoms ++ [a])) (initial_state [] [])
      (bottoms ++ [a]) = Ok st
    /\ rows_in (buffer st) = 2%nat.
Proof.
  intros d bottoms a.
  assert (Hcyl : cylinder_at d 0 = Ok bottom_tank) by reflexivity.
  assert (Hsame : gasmix_distance (cyl_gasmix bottom_tank)
                    (cyl_gasmix bottom_tank) = 0) by reflexivity.
  destruct (bottom_stay_and_final_ascent prefs0 d 30000 0 bottom_tank
              Hcyl Hsame bottoms a [] [])
    as (st & Hlegs & Hrows & _).
  - discriminate.
  - discriminate.
  - repeat constructor.
  - cbn. lia.
  - repeat split; discriminate.
  - exists st. split; [exact Hlegs|].
    destruct (Hrows eq_refl) as [_ Htwo]. exact (Htwo eq_refl).
Defined.


(** C10.  A plan whose only waypoint was entered by hand: the test of line
    218 reads [nextdp->entered] with [nextdp == NULL]. *)
Theorem entered_final_waypoint_dereferences_null :
  add_plan_to_notes gl0 prefs0 "today"
    (plan_of [mkDp 600 10000 0 0 true]) (dive_of [bottom_tank]) false 0
  = Fault NullDeref.
Proof. vm_compute. reflexivity. Qed.

End Examples.

(** * Further properties of the plan report *)

(** ** diveplan_duration *)

Lemma max_time_bounds (l : list divedatapoint) :
  forall a : Z,
    a <= max_time l a
    /\ (forall p, In p l -> time p <= max_time l a)
    /\ (max_time l a = a \/ exists p, In p l /\ time p = max_time l a).
Proof.
  induction l as [|q rest IH]; intro a; cbn [max_time].
  - split; [lia|]. split; [intros p []|now left].
  - destruct (IH (if a <? time q then time q else a)) as (Hle & Hall & Hmax).
    destruct (a <? time q) eqn:E;
      [apply Z.ltb_lt in E|apply Z.ltb_ge in E].
    + split; [lia|]. split.
      * intros p [<-|Hp]; [lia|now apply Hall].
      * right. destruct Hmax as [Hm|(p & Hp & Hm)].
        -- exists q. split; [now left|lia].
        -- exists p. split; [now right|assumption].
    + split; [lia|]. split.
      * intros p [<-|Hp]; [lia|now apply Hall].
      * destruct Hmax as [Hm|(p & Hp & Hm)]; [now left|].
        right. exists p. split; [now right|assumption].
Qed.


Lemma max_time_swap (l : list divedatapoint) (x y : divedatapoint) (a : Z) :
  max_time (x :: y :: l) a = max_time (y :: x :: l) a.
Proof.
  cbn [max_time]. f_equal.
  destruct (a <? time x) eqn:E1, (a <? time y) eqn:E2;
    repeat match goal with
           | |- context [?u <? ?v] => destruct (Z.ltb_spec u v)
           end;
    try apply Z.ltb_lt in E1; try apply Z.ltb_ge in E1;
    try apply Z.ltb_lt in E2; try apply Z.ltb_ge in E2; lia.
Qed.

(** X2.  The duration of a plan does not depend on the order of its
    waypoints. *)
Theorem diveplan_duration_permutation (plan plan' : diveplan) :
  Permutation (dp plan) (dp plan') ->
  diveplan_duration plan = diveplan_duration plan'.
Proof.
  intro Hperm. unfold diveplan_duration. f_equal. f_equal.
  generalize 0. induction Hperm as [|x l l' _ IH|x y l|l l' l'' _ IH1 _ IH2];
    intro a.
  - reflexivity.
  - cbn [max_time]. apply IH.
  - apply max_time_swap.
  - now rewrite IH1.
Qed.

(** ** What the waypoint loop writes *)

Lemma subsequence_refl {A : Type} (l : list A) : subsequence l l.
Proof. induction l; constructor; assumption. Qed.

Lemma subsequence_nil_l {A : Type} (l : list A) : subsequence [] l.
Proof. induction l; constructor; assumption. Qed.

Lemma subsequence_skip_zero (ps l : list divedatapoint) :
  subsequence ps (skip_zero l) -> subsequence ps l.
Proof.
  induction l as [|n rest IH]; cbn [skip_zero]; [auto|].
  destruct (time n =? 0); [|auto]. intro Hs. constructor. auto.
Qed.

Lemma subsequence_In {A : Type} (l1 l2 : list A) :
  subsequence l1 l2 -> forall x, In x l1 -> In x l2.
Proof.
  induction 1 as [|y l1 l2 _ IH|y l1 l2 _ IH]; intros x Hx.
  - assumption.
  - right. auto.
  - destruct Hx as [<-|Hx]; [now left|right; auto].
Qed.

Section LoopOutput.

Context `{Collaborators}.

Variable prefs : preferences.
Variable d : dive.

Ltac split_hyp E :=
  repeat (cbn [bind fst snd andb negb andr orr deref depth_differs
               is_some is_null] in E;
          match type of E with
          | context [match ?q with Some _ => _ | None => _ end] =>
              destruct q
          | context [if ?b then _ else _] => destruct b eqn:?
          end);
  cbn [bind fst snd andb negb] in E.

Ltac absurd_and :=
  match goal with
  | Hx : _ && false = true |- _ =>
      rewrite andb_false_r in Hx; discriminate Hx
  end.

Ltac buffer_fields :=
  cbn [buffer end_of_leg set_printed set_lastprintgasmix
       set_lastprintsetpoint set_lastbottomdp record_icd set_icd emit] in *.

(** A reported leg of the collapsed plan writes nothing or one row, the
    row of its waypoint. *)
Lemma report_leg_collapsed_out (st st' : loop_state) (p : divedatapoint)
    (next nextdp : option divedatapoint) (g newgasmix : gasmix)
    (isascent before after : bool) :
  verbatim_plan prefs = false ->
  report_leg prefs d st p next nextdp g newgasmix isascent before after
  = Ok st' ->
  buffer st' = buffer st
  \/ exists c, buffer st' = buffer st ++ [c]
               /\ is_row_of prefs get_depth_units c p.
Proof.
  intro Hv.
  unfold report_leg, collapsed_segment, print_segment, trailing_gaschange.
  rewrite Hv. intro E. destruct nextdp as [n|], next as [q|];
    split_hyp E; try discriminate; try absurd_and;
    injection E as <-; buffer_fields;
    first [ left; reflexivity
          | right; eexists; split; [reflexivity|];
            eexists; split; [reflexivity|split; reflexivity] ].
Qed.

(** A reported leg of the verbatim plan writes at most the line of its
    waypoint, followed by at most one gas switch. *)
Lemma report_leg_verbatim_out (st st' : loop_state) (p : divedatapoint)
    (next nextdp : option divedatapoint) (g newgasmix : gasmix)
    (isascent before after : bool) :
  verbatim_plan prefs = true ->
  report_leg prefs d st p next nextdp g newgasmix isascent before after
  = Ok st' ->
  exists line switch,
    buffer st' = buffer st ++ line ++ switch
    /\ (line = [] \/ exists c, line = [c]
                               /\ is_line_of FRACTION get_depth_units c p)
    /\ (switch = [] \/ exists sp, switch = [SwitchGas newgasmix sp]).
Proof.
  intro Hv.
  unfold report_leg, verbatim_segment, verbatim_switch.
  rewrite Hv. intro E. destruct nextdp as [n|], next as [q|];
    split_hyp E; try discriminate; injection E as <-;
    buffer_fields;
    first [ exists [], []; rewrite app_nil_r;
            split; [reflexivity|split; left; reflexivity]
          | eexists [_], []; rewrite app_nil_r;
            split; [reflexivity|];
            split; [right; eexists; split; [reflexivity|];
                    eexists; split; [eauto|split; reflexivity]
                   |left; reflexivity]
          | eexists [], [_]; cbn [app];
            split; [reflexivity|];
            split; [left; reflexivity|right; eexists; reflexivity]
          | eexists [_], [_]; rewrite <- app_assoc; cbn [app];
            split; [reflexivity|];
            split; [right; eexists; split; [reflexivity|];
                    eexists; split; [eauto|split; reflexivity]
                   |right; eexists; reflexivity] ].
Qed.

(** The loop body either passes over the waypoint, leaving the state as it
    was, or reports it. *)
Lemma leg_step_cases (st st' : loop_state) (p : divedatapoint)
    (rest l : list divedatapoint) :
  leg_step prefs d st p rest = Ok (st', l) ->
  (time p = 0 /\ st' = st /\ l = rest)
  \/ (time p <> 0 /\ l = skip_zero rest
      /\ is_ok (cylinder_at d (cylinderid p))
      /\ is_ok (next_gasmix d (head_dp (skip_zero rest)))
      /\ (st' = st
          \/ exists g newgasmix isascent before after,
               report_leg prefs d st p (head_dp rest)
                 (head_dp (skip_zero rest)) g newgasmix isascent before
                 after = Ok st')).
Proof.
  unfold leg_step. destruct (time p =? 0) eqn:Et.
  { apply Z.eqb_eq in Et. intro E. injection E as <- <-. now left. }
  apply Z.eqb_neq in Et. intro E. right. split; [assumption|].
  destruct (cylinder_at d (cylinderid p)) as [c|]; cbn [bind] in E;
    [|discriminate].
  destruct (next_gasmix d (head_dp (skip_zero rest))) as [g'|];
    cbn [bind] in E; [|discriminate].
  match type of E with
  | bind ?m _ = _ => destruct m as [[|]|]; cbn [bind] in E
  end; [| |discriminate].
  - injection E as <- <-. repeat split; try apply is_ok_Ok. now left.
  - match type of E with
    | bind ?m _ = _ => destruct m as [s|] eqn:Er; cbn [bind] in E
    end; [|discriminate].
    injection E as <- <-. repeat split; try apply is_ok_Ok.
    right. do 5 eexists. exact Er.
Qed.

(** The rows of the collapsed plan are rows of waypoints with a time, in
    the order of the plan, at most one for a waypoint. *)
Lemma legs_collapsed_rows (fuel : nat) :
  verbatim_plan prefs = false ->
  forall (l : list divedatapoint) (st st' : loop_state),
    legs prefs d fuel st l = Ok st' ->
    exists out ps,
      buffer st' = buffer st ++ out
      /\ subsequence ps l
      /\ Forall (fun p => time p <> 0) ps
      /\ Forall2 (is_row_of prefs get_depth_units) out ps.
Proof.
  intro Hv. induction fuel as [|fuel IH]; intros l st st' Hlegs.
  - destruct l; cbn in Hlegs; [|discriminate]. injection Hlegs as <-.
    exists [], []. rewrite app_nil_r. repeat split; constructor.
  - destruct l as [|p rest]; cbn [legs] in Hlegs.
    { injection Hlegs as <-. exists [], []. rewrite app_nil_r.
      repeat split; constructor. }
    destruct (leg_step prefs d st p rest) as [[s1 l1]|f] eqn:Estep;
      cbn [bind fst snd] in Hlegs; [|discriminate].
    destruct (IH _ _ _ Hlegs) as (out & ps & Hbuf & Hsub & Hnz & Hrows).
    apply leg_step_cases in Estep.
    destruct Estep as [(_ & -> & ->)|(Ht & -> & _ & _ & Hst)].
    { exists out, ps. repeat split; try assumption. now constructor. }
    apply subsequence_skip_zero in Hsub.
    destruct Hst as [->|(g & g' & a & b & c & Hrep)].
    { exists out, ps. repeat split; try assumption. now constructor. }
    destruct (report_leg_collapsed_out _ _ _ _ _ _ _ _ _ _ Hv Hrep)
      as [Hb|(row & Hb & Hrow)]; rewrite Hb in Hbuf.
    + exists out, ps. repeat split; try assumption. now constructor.
    + exists (row :: out), (p :: ps). rewrite <- app_assoc in Hbuf.
      repeat split; try assumption; now constructor.
Qed.

(** The verbatim plan consists of lines of waypoints with a time, in the
    order of the plan and at most one for a waypoint, and of gas switches, at
    most one for a waypoint with a time. *)
Lemma legs_verbatim_lines (fuel : nat) :
  verbatim_plan prefs = true ->
  forall (l : list divedatapoint) (st st' : loop_state),
    legs prefs d fuel st l = Ok st' ->
    exists out ps,
      buffer st' = buffer st ++ out
      /\ Forall (fun c => is_verbatim_line c || is_switch_gas c = true) out
      /\ subsequence ps l
      /\ Forall (fun p => time p <> 0) ps
      /\ Forall2 (is_line_of FRACTION get_depth_units)
           (filter is_verbatim_line out) ps
      /\ (List.length (filter is_switch_gas out) <= nonzero_waypoints l)%nat.
Proof.
  intro Hv. induction fuel as [|fuel IH]; intros l st st' Hlegs.
  - destruct l; cbn in Hlegs; [|discriminate]. injection Hlegs as <-.
    exists [], []. rewrite app_nil_r. cbn.
    repeat split; try constructor.
  - destruct l as [|p rest]; cbn [legs] in Hlegs.
    { injection Hlegs as <-. exists [], []. rewrite app_nil_r. cbn.
      repeat split; try constructor. }
    destruct (leg_step prefs d st p rest) as [[s1 l1]|f] eqn:Estep;
      cbn [bind fst snd] in Hlegs; [|discriminate].
    destruct (IH _ _ _ Hlegs)
      as (out & ps & Hbuf & Hkind & Hsub & Hnz & Hlines & Hsw).
    apply leg_step_cases in Estep.
    destruct Estep as [(Ht & -> & ->)|(Ht & -> & _ & _ & Hst)].
    { exists out, ps. repeat split; try assumption; [now constructor|].
      unfold nonzero_waypoints in *. cbn [filter].
      destruct (Zneqb (time p) 0); cbn [List.length]; lia. }
    apply subsequence_skip_zero in Hsub.
    rewrite skip_zero_nonzero in Hsw.
    unfold nonzero_waypoints in *. cbn [filter].
    pose proof Ht as Ht'. apply Zneqb_neq in Ht'. rewrite Ht'.
    cbn [List.length].
    destruct Hst as [->|(g & g' & a & b & c & Hrep)].
    { exists out, ps. repeat split; try assumption; [now constructor|lia]. }
    destruct (report_leg_verbatim_out _ _ _ _ _ _ _ _ _ _ Hv Hrep)
      as (line & switch & Hb & Hline & Hswitch).
    rewrite Hb, <- !app_assoc in Hbuf.
    destruct Hline as [->|(c0 & -> & Hc0)];
      destruct Hswitch as [->|(sp & ->)]; cbn [app] in Hbuf.
    + exists out, ps. repeat split; try assumption; [now constructor|lia].
    + exists (SwitchGas g' sp :: out), ps. cbn [filter is_verbatim_line
        is_switch_gas List.length].
      repeat split; try assumption; [now constructor|now constructor|lia].
    + assert (Hv0 : is_verbatim_line c0 = true)
        by (destruct Hc0 as (ln & [-> | ->] & _); reflexivity).
      assert (Hs0 : is_switch_gas c0 = false)
        by (destruct Hc0 as (ln & [-> | ->] & _); reflexivity).
      exists (c0 :: out), (p :: ps). cbn [filter]. rewrite Hv0, Hs0.
      repeat split; try assumption; try (now constructor); try lia.
      constructor; [now rewrite Hv0|assumption].
    + assert (Hv0 : is_verbatim_line c0 = true)
        by (destruct Hc0 as (ln & [-> | ->] & _); reflexivity).
      assert (Hs0 : is_switch_gas c0 = false)
        by (destruct Hc0 as (ln & [-> | ->] & _); reflexivity).
      exists (c0 :: SwitchGas g' sp :: out), (p :: ps).
      cbn [filter is_verbatim_line is_switch_gas List.length].
      rewrite Hv0, Hs0. cbn [List.length].
      repeat split; try assumption; try (now constructor); try lia.
      constructor; [now rewrite Hv0|]. now constructor.
Qed.

End LoopOutput.

(** ** The parts of a full report *)

Lemma filter_disjoint {A : Type} (f g : A -> bool) (l : list A) :
  (forall c, g c = true -> f c = false) ->
  Forall (fun c => g c = true) l -> filter f l = [].
Proof.
  intros Hfg Hl. induction Hl as [|c l Hc _ IH]; cbn [filter]; [reflexivity|].
  now rewrite (Hfg c Hc).
Qed.

Lemma lines_are_no_rows (c : chunk) :
  is_verbatim_line c || is_switch_gas c = true -> is_leg_row c = false.
Proof. destruct c; cbn; congruence. Qed.

Section ReportParts.

Context `{Collaborators}.

Variable gl : globals.
Variable prefs : preferences.
Variable current_date : string.
Variable plan : diveplan.
Variable d : dive.
Variable show_disclaimer : bool.

Lemma consumption_chunks (d1 : dive) (lb : option divedatapoint)
    (cyls : list cylinder_t) :
  forall gasidx : Z,
    Forall (fun c => is_consumption c = true)
      (fst (consumption prefs d1 lb gasidx cyls)).
Proof.
  induction cyls as [|cyl rest IH]; intro gasidx; cbn [consumption].
  - constructor.
  - destruct (cylinder_none cyl); cbn [fst]; constructor;
      [reflexivity|apply IH].
Qed.

Lemma po2_warning_chunk (d1 : dive) (p : divedatapoint) (w : chunk) :
  po2_warning prefs d1 p = Ok (Some w) -> is_po2_warning_chunk w = true.
Proof.
  unfold po2_warning. destruct (Zneqb (time p) 0); [|discriminate].
  destruct (cylinder_at d1 (cylinderid p)); cbn [bind]; [|discriminate].
  repeat match goal with
         | |- context [if ?b then _ else _] => destruct b
         end; intro E; try discriminate; injection E as <-; reflexivity.
Qed.

Lemma po2_warnings_chunks (d1 : dive) (l : list divedatapoint) :
  forall (b : bool) (ws : list chunk),
    po2_warnings prefs d1 l b = Ok ws ->
    Forall (fun c => is_po2_chunk c = true) ws.
Proof.
  induction l as [|p rest IH]; intros b ws Hws; cbn [po2_warnings] in Hws.
  - injection Hws as <-. constructor.
  - destruct (po2_warning prefs d1 p) as [[w|]|f] eqn:Ep; cbn [bind] in Hws;
      [| |discriminate].
    + destruct (po2_warnings prefs d1 rest true) as [ws'|f] eqn:Er;
        cbn [bind] in Hws; [|discriminate].
      injection Hws as <-. apply Forall_app. split.
      * destruct b; repeat constructor.
      * constructor; [|exact (IH _ _ Er)].
        apply po2_warning_chunk in Ep. destruct w; try discriminate.
        reflexivity.
    + exact (IH _ _ Hws).
Qed.

(** A full report is the output of the waypoint loop, run on a buffer that
    holds the head of the report, followed by the lines after the table, the
    lines of the cylinders, the ICD section, the warnings for pO2 and the
    closing [</div>]. *)
Lemma full_report_parts (text : chunk) (r : dive * option Z) :
  is_frame_chunk text = true ->
  full_report prefs current_date plan d show_disclaimer text = Ok r ->
  let d1 := recompute_statistics d in
  exists head st mid pw,
    legs prefs d (List.length (dp plan))
      (initial_state head (if has_trimix d then [IcdHeader] else []))
      (dp plan) = Ok st
    /\ po2_section prefs d1 (dp plan) = Ok pw
    /\ Forall (fun c => is_frame_chunk c = true) head
    /\ (exists v, In (RuntimeLine (diveplan_duration plan) v) head)
    /\ Forall (fun c => is_frame_chunk c = true) mid
    /\ notes (fst r) =
       Some (buffer st ++ mid
             ++ fst (consumption prefs d1 (lastbottomdp st) 0 (cylinder d1))
             ++ (if has_trimix d
                 then [IcdTable (icdbuffer st)]
                      ++ (if icdwarning st then [IcdWarning] else [])
                      ++ [IcdSectionEnd]
                 else [])
             ++ pw ++ [ReportEnd])
    /\ snd r = snd (consumption prefs d1 (lastbottomdp st) 0 (cylinder d1))
    /\ In (CnsOtu (cns d1) (otu d1)) mid.
Proof.
  intros Htext E d1. unfold full_report in E. cbv zeta in E.
  match type of E with
  | bind ?m _ = _ => destruct m as [st|f] eqn:El; cbn [bind] in E
  end; [|discriminate].
  match type of E with
  | bind ?m _ = _ => destruct m as [pw|f] eqn:Ep; cbn [bind] in E
  end; [|discriminate].
  injection E as <-. cbn [fst snd notes set_notes].
  eexists _, st,
    ((if verbatim_plan prefs then [] else [TableEnd])
     ++ [CnsOtu (cns d1) (otu d1);
         deco_model_line plan;
         AtmPressure (surface_pressure plan)
           (double_to_int
              (get_depth_units (altitude_mm (surface_pressure plan))));
         ConsumptionHead
           (if divemode_eqb (dc_divemode d1) CCR then None
            else Some (get_volume_units (bottomsac prefs),
                       get_volume_units (decosac prefs)))]), pw.
  split; [exact El|].
  split; [first [exact Ep|reflexivity]|].
  split; [|split; [|split; [|split; [|split; [reflexivity|]]]]].
  4: { rewrite <- app_assoc. reflexivity. }
  4: { apply in_or_app. right. left. reflexivity. }
  - apply Forall_app. split.
    + destruct show_disclaimer; repeat constructor. assumption.
    + unfold banner.
      destruct (surface_interval plan >=? 48 * 60 * 60),
        (verbatim_plan prefs); repeat constructor.
  - eexists. apply in_or_app. right. right. left. reflexivity.
  - apply Forall_app. split; [|repeat constructor].
    destruct (verbatim_plan prefs); repeat constructor.
Qed.

Lemma add_plan_to_notes_full (error : Z) (o : outcome) :
  reaches_full_report plan error ->
  add_plan_to_notes gl prefs current_date plan d show_disclaimer error
  = Ok o ->
  exists text,
    is_frame_chunk text = true
    /\ full_report prefs current_date plan d show_disclaimer text
       = Ok (out_dive o, out_minimum_gas o).
Proof.
  intros (Hdp & -> & Hsi). unfold add_plan_to_notes.
  destruct (dp plan) as [|p0 rest] eqn:Edp; [contradiction|].
  cbn [Zneqb Z.eqb negb].
  destruct (surface_interval plan <? 0) eqn:Es;
    [apply Z.ltb_lt in Es; lia|].
  match goal with
  | |- context [full_report _ _ _ _ _ ?t] =>
      destruct (full_report prefs current_date plan d show_disclaimer t)
        as [r|f] eqn:Er; cbn [bind]; [|discriminate];
      intro E; injection E as <-; exists t
  end.
  split; [reflexivity|]. cbn [out_dive out_minimum_gas].
  now destruct r.
Qed.

(** The table of the plan is the only part of a full report written by
    the waypoint loop. *)
Lemma report_around_table (error : Z) (o : outcome) (b : list chunk) :
  reaches_full_report plan error ->
  add_plan_to_notes gl prefs current_date plan d show_disclaimer error
  = Ok o ->
  notes (out_dive o) = Some b ->
  exists head st tail,
    legs prefs d (List.length (dp plan))
      (initial_state head (if has_trimix d then [IcdHeader] else []))
      (dp plan) = Ok st
    /\ b = buffer st ++ tail
    /\ Forall (fun c => is_loop_chunk c = false) head
    /\ (exists v, In (RuntimeLine (diveplan_duration plan) v) head)
    /\ Forall (fun c => is_loop_chunk c = false) tail.
Proof.
  intros Hfull E Hb.
  destruct (add_plan_to_notes_full _ _ Hfull E) as (text & Htext & Er).
  destruct (full_report_parts _ _ Htext Er)
    as (head & st & mid & pw & Hlegs & Hpw & Hhead & Hrun & Hmid & Hnotes
        & _).
  cbn [fst] in Hnotes. rewrite Hnotes in Hb. injection Hb as <-.
  exists head, st. eexists. split; [exact Hlegs|]. split; [reflexivity|].
  split.
  { revert Hhead. apply Forall_impl. intros []; cbn; congruence. }
  split; [exact Hrun|].
  repeat (apply Forall_app; split).
  - revert Hmid. apply Forall_impl. intros []; cbn; congruence.
  - generalize (consumption_chunks (recompute_statistics d) (lastbottomdp st)
                  (cylinder (recompute_statistics d)) 0).
    apply Forall_impl. intros []; cbn; congruence.
  - destruct (has_trimix d); [|constructor].
    destruct (icdwarning st); repeat constructor.
  - unfold po2_section in Hpw.
    destruct (negb _) in Hpw; [|injection Hpw as <-; constructor].
    generalize (po2_warnings_chunks _ _ _ _ Hpw).
    apply Forall_impl. intros []; cbn; congruence.
  - repeat constructor.
Qed.

Lemma full_report_has_notes (error : Z) (o : outcome) :
  reaches_full_report plan error ->
  add_plan_to_notes gl prefs current_date plan d show_disclaimer error
  = Ok o ->
  exists b, notes (out_dive o) = Some b.
Proof.
  intros Hfull E.
  destruct (add_plan_to_notes_full _ _ Hfull E) as (text & Htext & Er).
  destruct (full_report_parts _ _ Htext Er)
    as (head & st & mid & pw & _ & _ & _ & _ & _ & Hnotes & _).
  eexists. exact Hnotes.
Qed.

Lemma filter_outside_table (f : chunk -> bool) (l : list chunk) :
  (forall c, f c = true -> is_loop_chunk c = true) ->
  Forall (fun c => is_loop_chunk c = false) l -> filter f l = [].
Proof.
  intros Hf Hl. induction Hl as [|c l Hc _ IH]; cbn [filter]; [reflexivity|].
  destruct (f c) eqn:E; [|assumption].
  apply Hf in E. congruence.
Qed.

Lemma rows_are_rows (out : list chunk) (ps : list divedatapoint) :
  Forall2 (is_row_of prefs get_depth_units) out ps ->
  filter is_leg_row out = out
  /\ filter is_verbatim_line out = []
  /\ filter is_switch_gas out = [].
Proof.
  induction 1 as [|c p out ps (r & -> & _) _ (IH1 & IH2 & IH3)];
    cbn [filter is_leg_row is_verbatim_line is_switch_gas];
    [repeat split|].
  rewrite IH1. repeat split; assumption.
Qed.

(** The table of a collapsed plan consists of rows of waypoints with a
    time, in the order of the plan, at most one for a waypoint. *)
Lemma collapsed_report_rows (error : Z) (o : outcome) (b : list chunk) :
  verbatim_plan prefs = false ->
  reaches_full_report plan error ->
  add_plan_to_notes gl prefs current_date plan d show_disclaimer error
  = Ok o ->
  notes (out_dive o) = Some b ->
  filter is_verbatim_line b = []
  /\ filter is_switch_gas b = []
  /\ exists ps,
       subsequence ps (dp plan)
       /\ Forall (fun p => time p <> 0) ps
       /\ Forall2 (is_row_of prefs get_depth_units) (filter is_leg_row b) ps.
Proof.
  intros Hv Hfull E Hb.
  destruct (report_around_table _ _ _ Hfull E Hb)
    as (head & st & tail & Hlegs & -> & Hhead & _ & Htail).
  destruct (legs_collapsed_rows prefs d _ Hv _ _ _ Hlegs)
    as (out & ps & Hbuf & Hsub & Hnz & Hrows).
  cbn [buffer initial_state] in Hbuf. rewrite Hbuf.
  destruct (rows_are_rows _ _ Hrows) as (Hr1 & Hr2 & Hr3).
  rewrite !filter_app, Hr1, Hr2, Hr3.
  rewrite !(filter_outside_table _ head), !(filter_outside_table _ tail);
    try assumption; try (intros []; cbn; congruence).
  cbn [app]. rewrite app_nil_r. repeat split. exists ps. auto.
Qed.

(** The verbatim plan of a report consists of the lines of waypoints with
    a time, in the order of the plan and at most one for a waypoint, and of
    gas switches, at most one for a waypoint with a time. *)
Lemma verbatim_report_lines (error : Z) (o : outcome) (b : list chunk) :
  verbatim_plan prefs = true ->
  reaches_full_report plan error ->
  add_plan_to_notes gl prefs current_date plan d show_disclaimer error
  = Ok o ->
  notes (out_dive o) = Some b ->
  filter is_leg_row b = []
  /\ (List.length (filter is_switch_gas b) <= nonzero_waypoints (dp plan))%nat
  /\ exists ps,
       subsequence ps (dp plan)
       /\ Forall (fun p => time p <> 0) ps
       /\ Forall2 (is_line_of FRACTION get_depth_units)
            (filter is_verbatim_line b) ps.
Proof.
  intros Hv Hfull E Hb.
  destruct (report_around_table _ _ _ Hfull E Hb)
    as (head & st & tail & Hlegs & -> & Hhead & _ & Htail).
  destruct (legs_verbatim_lines prefs d _ Hv _ _ _ Hlegs)
    as (out & ps & Hbuf & Hkind & Hsub & Hnz & Hlines & Hsw).
  cbn [buffer initial_state] in Hbuf. rewrite Hbuf.
  rewrite !filter_app.
  rewrite !(filter_outside_table _ head), !(filter_outside_table _ tail);
    try assumption; try (intros []; cbn; congruence).
  cbn [app]. rewrite !app_nil_r.
  split; [|split; [assumption|exists ps; auto]].
  exact (filter_disjoint _ _ _ lines_are_no_rows Hkind).
Qed.

End ReportParts.

(** ** The table of the plan *)

Lemma subsequence_filter {A : Type} (f : A -> bool) (ps l : list A) :
  subsequence ps l -> Forall (fun p => f p = true) ps ->
  subsequence ps (filter f l).
Proof.
  induction 1 as [|x ps l _ IH|x ps l _ IH]; intro Hps; cbn [filter].
  - constructor.
  - destruct (f x); [constructor|]; auto.
  - apply Forall_cons_iff in Hps. destruct Hps as [Hx Hps].
    rewrite Hx. apply subsequence_take. auto.
Qed.

Lemma subsequence_sorted {A : Type} (R : A -> A -> Prop) (ps l : list A) :
  subsequence ps l -> StronglySorted R l -> StronglySorted R ps.
Proof.
  induction 1 as [|x ps l Hsub IH|x ps l Hsub IH]; intro Hl.
  - constructor.
  - apply StronglySorted_inv in Hl. tauto.
  - apply StronglySorted_inv in Hl. destruct Hl as [Hl Hx].
    constructor; [auto|].
    apply Forall_forall. intros y Hy.
    rewrite Forall_forall in Hx. apply Hx.
    exact (subsequence_In _ _ Hsub y Hy).
Qed.

Lemma sorted_map {A B : Type} (R : A -> A -> Prop) (S : B -> B -> Prop)
    (f : A -> B) (l : list A) :
  (forall x y, R x y -> S (f x) (f y)) ->
  StronglySorted R l -> StronglySorted S (map f l).
Proof.
  intros Hf. induction 1 as [|x l _ IH Hx]; cbn [map]; constructor;
    [assumption|].
  apply Forall_map. revert Hx. apply Forall_impl. intros y. apply Hf.
Qed.

Lemma row_runtimes_filter (b : list chunk) :
  row_runtimes b = row_runtimes (filter is_leg_row b).
Proof.
  unfold row_runtimes. induction b as [|c b IH]; [reflexivity|].
  destruct c; cbn [flat_map filter is_leg_row app]; try assumption.
  now rewrite IH.
Qed.

Lemma row_runtimes_rows (prefs : preferences) (get_depth : Z -> Q)
    (out : list chunk) (ps : list divedatapoint) :
  Forall2 (is_row_of prefs get_depth) out ps ->
  row_runtimes out =
  if display_runtime prefs
  then map (fun p => Z.quot (time p + 30) 60) ps else [].
Proof.
  unfold row_runtimes.
  induction 1 as [|c p out ps (r & -> & _ & Hr) _ IH]; cbn [flat_map map].
  - now destruct (display_runtime prefs).
  - rewrite Hr, IH. now destruct (display_runtime prefs).
Qed.

Section TableProperties.

Context `{Collaborators}.

Variable gl : globals.
Variable prefs : preferences.
Variable current_date : string.
Variable plan : diveplan.
Variable d : dive.
Variable show_disclaimer : bool.

(** X3.  In a full report with the collapsed plan, the rows of the table
    are rows of waypoints with a time other than zero: they come in the
    order of the plan, no waypoint has more than one row, and each row shows
    the depth of its waypoint and, when runtimes are displayed, its time
    rounded to the minute.  The report holds no line of the verbatim plan
    and no gas switch line. *)
Theorem collapsed_rows_follow_waypoints (error : Z) (o : outcome) :
  verbatim_plan prefs = false ->
  reaches_full_report plan error ->
  add_plan_to_notes gl prefs current_date plan d show_disclaimer error
  = Ok o ->
  exists b ps,
    notes (out_dive o) = Some b
    /\ filter is_verbatim_line b = []
    /\ filter is_switch_gas b = []
    /\ subsequence ps (dp plan)
    /\ Forall (fun p => time p <> 0) ps
    /\ Forall2 (is_row_of prefs get_depth_units) (filter is_leg_row b) ps.
Proof.
  intros Hv Hfull E.
  destruct (full_report_has_notes gl prefs current_date plan d
              show_disclaimer error o Hfull E) as (b & Hb).
  destruct (collapsed_report_rows gl prefs current_date plan d
              show_disclaimer error o b Hv Hfull E Hb)
    as (H1 & H2 & ps & H3 & H4 & H5).
  exists b, ps. auto 10.
Qed.

(** X4.  In a full report with the verbatim plan, the lines of the plan
    are lines of waypoints with a time other than zero: they come in the
    order of the plan, no waypoint has more than one line, and each line
    shows the depth and the runtime of its waypoint.  There are no more gas
    switch lines than waypoints with a time, and the report holds no table
    row. *)
Theorem verbatim_lines_follow_waypoints (error : Z) (o : outcome) :
  verbatim_plan prefs = true ->
  reaches_full_report plan error ->
  add_plan_to_notes gl prefs current_date plan d show_disclaimer error
  = Ok o ->
  exists b ps,
    notes (out_dive o) = Some b
    /\ filter is_leg_row b = []
    /\ (List.length (filter is_switch_gas b)
        <= nonzero_waypoints (dp plan))%nat
    /\ subsequence ps (dp plan)
    /\ Forall (fun p => time p <> 0) ps
    /\ Forall2 (is_line_of FRACTION get_depth_units)
         (filter is_verbatim_line b) ps.
Proof.
  intros Hv Hfull E.
  destruct (full_report_has_notes gl prefs current_date plan d
              show_disclaimer error o Hfull E) as (b & Hb).
  destruct (verbatim_report_lines gl prefs current_date plan d
              show_disclaimer error o b Hv Hfull E Hb)
    as (H1 & H2 & ps & H3 & H4 & H5).
  exists b, ps. auto 10.
Qed.

(** X5.  When the waypoints with a time come in the order of their times,
    the runtime column of the table never decreases from one row to the
    next. *)
Theorem runtime_column_nondecreasing (error : Z) (o : outcome) :
  reaches_full_report plan error ->
  StronglySorted (fun p q => time p <= time q)
    (filter (fun p => Zneqb (time p) 0) (dp plan)) ->
  add_plan_to_notes gl prefs current_date plan d show_disclaimer error
  = Ok o ->
  exists b,
    notes (out_dive o) = Some b /\ StronglySorted Z.le (row_runtimes b).
Proof.
  intros Hfull Hsorted E.
  destruct (full_report_has_notes gl prefs current_date plan d
              show_disclaimer error o Hfull E) as (b & Hb).
  exists b. split; [assumption|]. rewrite row_runtimes_filter.
  destruct (verbatim_plan prefs) eqn:Hv.
  - destruct (verbatim_report_lines gl prefs current_date plan d
                show_disclaimer error o b Hv Hfull E Hb) as (-> & _).
    constructor.
  - destruct (collapsed_report_rows gl prefs current_date plan d
                show_disclaimer error o b Hv Hfull E Hb)
      as (_ & _ & ps & Hsub & Hnz & Hrows).
    rewrite (row_runtimes_rows _ _ _ _ Hrows).
    destruct (display_runtime prefs); [|constructor].
    apply (sorted_map (fun p q => time p <= time q)).
    + intros x y Hxy. apply Z.quot_le_mono; lia.
    + apply (subsequence_sorted _ _ _
               (subsequence_filter (fun p => Zneqb (time p) 0) _ _ Hsub
                  ltac:(revert Hnz; apply Forall_impl; intro;
                        apply Zneqb_neq))).
      assumption.
Qed.

(** X6.  A full report shows the duration of the plan in its runtime
    line, and no row of the table shows a runtime beyond it. *)
Theorem rows_within_duration (error : Z) (o : outcome) :
  reaches_full_report plan error ->
  add_plan_to_notes gl prefs current_date plan d show_disclaimer error
  = Ok o ->
  exists b,
    notes (out_dive o) = Some b
    /\ (exists v, In (RuntimeLine (diveplan_duration plan) v) b)
    /\ Forall (fun t => t <= diveplan_duration plan) (row_runtimes b).
Proof.
  intros Hfull E.
  destruct (full_report_has_notes gl prefs current_date plan d
              show_disclaimer error o Hfull E) as (b & Hb).
  exists b. split; [assumption|]. split.
  - destruct (report_around_table gl prefs current_date plan d
                show_disclaimer error o b Hfull E Hb)
      as (head & st & tail & Hlegs & -> & _ & (v & Hv) & _).
    exists v. apply in_or_app. left.
    assert (Hout : exists out, buffer st = head ++ out).
    { destruct (verbatim_plan prefs) eqn:Hmode.
      - destruct (legs_verbatim_lines prefs d _ Hmode _ _ _ Hlegs)
          as (out & _ & Hbuf & _). now exists out.
      - destruct (legs_collapsed_rows prefs d _ Hmode _ _ _ Hlegs)
          as (out & _ & Hbuf & _). now exists out. }
    destruct Hout as (out & ->). apply in_or_app. now left.
  - rewrite row_runtimes_filter.
    destruct (verbatim_plan prefs) eqn:Hv.
    + destruct (verbatim_report_lines gl prefs current_date plan d
                  show_disclaimer error o b Hv Hfull E Hb) as (-> & _).
      constructor.
    + destruct (collapsed_report_rows gl prefs current_date plan d
                  show_disclaimer error o b Hv Hfull E Hb)
        as (_ & _ & ps & Hsub & Hnz & Hrows).
      rewrite (row_runtimes_rows _ _ _ _ Hrows).
      destruct (display_runtime prefs); [|constructor].
      apply Forall_map. apply Forall_forall. intros p Hp.
      unfold diveplan_duration. apply Z.quot_le_mono; [lia|].
      destruct (max_time_bounds (dp plan) 0) as (_ & Hall & _).
      specialize (Hall p (subsequence_In _ _ Hsub p Hp)). lia.
Qed.

End TableProperties.

(** ** The last bottom waypoint and the minimum gas *)

Lemma skip_zero_suffix (l : list divedatapoint) :
  exists zs, l = zs ++ skip_zero l.
Proof.
  induction l as [|n rest (zs & IH)]; cbn [skip_zero]; [now exists []|].
  destruct (time n =? 0); [|now exists []].
  exists (n :: zs). cbn [app]. now f_equal.
Qed.

Lemma bottom_waypoint_of_suffix (pre l : list divedatapoint)
    (p : divedatapoint) :
  bottom_waypoint_of l p -> bottom_waypoint_of (pre ++ l) p.
Proof.
  intros (pre' & post & n & -> & Hp).
  exists (pre ++ pre'), post, n. rewrite <- app_assoc. auto.
Qed.

Section MinimumGas.

Context `{Collaborators}.

Variable prefs : preferences.

(** The loop leaves [lastbottomdp] as it was or sets it to a bottom
    waypoint of the plan. *)
Lemma legs_lastbottom (d : dive) (fuel : nat) :
  forall (l : list divedatapoint) (st st' : loop_state),
    legs prefs d fuel st l = Ok st' ->
    lastbottomdp st' = lastbottomdp st
    \/ exists p, lastbottomdp st' = Some p /\ bottom_waypoint_of l p.
Proof.
  induction fuel as [|fuel IH]; intros l st st' Hlegs.
  { destruct l; cbn in Hlegs; [|discriminate]. injection Hlegs as <-.
    now left. }
  destruct l as [|p0 rest]; cbn [legs] in Hlegs.
  { injection Hlegs as <-. now left. }
  destruct (leg_step prefs d st p0 rest) as [[s1 l1]|f] eqn:Estep;
    cbn [bind fst snd] in Hlegs; [|discriminate].
  specialize (IH _ _ _ Hlegs).
  apply leg_step_cases in Estep.
  destruct Estep as [(_ & -> & ->)|(Ht & -> & _ & _ & Hst)].
  { destruct IH as [IH|(p & Hp & Hb)]; [now left|right].
    exists p. split; [assumption|].
    exact (bottom_waypoint_of_suffix [p0] _ _ Hb). }
  assert (IH' : lastbottomdp st' = lastbottomdp s1
                \/ exists p, lastbottomdp st' = Some p
                             /\ bottom_waypoint_of (p0 :: rest) p).
  { destruct IH as [IH|(p & Hp & Hb)]; [now left|right].
    exists p. split; [assumption|].
    destruct (skip_zero_suffix rest) as (zs & Hzs).
    rewrite Hzs. exact (bottom_waypoint_of_suffix (p0 :: zs) _ _ Hb). }
  clear IH. destruct IH' as [IH|IH]; [|now right]. rewrite IH.
  destruct Hst as [->|(g & g' & a & b & c & Hrep)]; [now left|].
  apply report_leg_lastbottom in Hrep. rewrite Hrep.
  destruct (head_dp (skip_zero rest)) as [n|] eqn:En; [|now left].
  destruct (entered p0) eqn:Ee, (entered n) eqn:En'; cbn [andb negb];
    try (now left).
  right. exists p0. split; [reflexivity|].
  exists [], rest, n. auto.
Qed.

(** The value the loop over the cylinders writes to
    [lastbottomdp->minimum_gas] is the one of the cylinder of the last
    bottom waypoint. *)
Lemma consumption_minimum_gas (d : dive) (lb : option divedatapoint)
    (cyls : list cylinder_t) :
  forall (gasidx m : Z),
    snd (consumption prefs d lb gasidx cyls) = Some m ->
    exists p cyl,
      lb = Some p
      /\ gasidx <= cylinderid p
      /\ nth_error cyls (Z.to_nat (cylinderid p - gasidx)) = Some cyl
      /\ m = minimum_gas_mbar prefs d p cyl
      /\ dc_divemode d = OC
      /\ decoMode <> RECREATIONAL.
Proof.
  induction cyls as [|cyl rest IH]; intros gasidx m; cbn [consumption].
  { discriminate. }
  destruct (cylinder_none cyl); [discriminate|]. cbn [snd].
  destruct (snd (consumption prefs d lb (gasidx + 1) rest)) as [m'|] eqn:Er.
  - intro E. injection E as ->.
    destruct (IH _ _ Er) as (p & c & Hlb & Hge & Hnth & Hm & Hmode).
    exists p, c. repeat split; try tauto; [lia|].
    replace (Z.to_nat (cylinderid p - gasidx))
      with (S (Z.to_nat (cylinderid p - (gasidx + 1)))) by lia.
    exact Hnth.
  - intro E. unfold cylinder_consumption in E.
    destruct (Zneqb (type_size cyl) 0); cbn [snd] in E; [|discriminate].
    assert (Hran : snd (cylinder_checks prefs d lb gasidx cyl) <> None)
      by congruence.
    pose proof Hran as Hc. apply cylinder_checks_ran in Hc.
    destruct Hc as (_ & _ & Happ). apply mingas_applies_iff in Happ.
    destruct Happ as (Hmode & Hdeco & p & -> & ->).
    rewrite (cylinder_checks_run _ _ _ _ _ Hran), minimum_gas_writes in E.
    injection E as <-.
    exists p, cyl. rewrite Z.sub_diag. repeat split; auto. lia.
Qed.


End MinimumGas.

(** ** The sections after the table *)

Lemma consumption_lines_app (a b : list chunk) :
  consumption_lines (a ++ b) = consumption_lines a ++ consumption_lines b.
Proof. apply flat_map_app. Qed.

Lemma consumption_lines_none (g : chunk -> bool) (l : list chunk) :
  (forall c, g c = true -> is_consumption c = false) ->
  Forall (fun c => g c = true) l -> consumption_lines l = [].
Proof.
  intros Hg Hl. induction Hl as [|c l Hc _ IH]; [reflexivity|].
  cbn [consumption_lines flat_map]. fold (consumption_lines l).
  rewrite IH. apply Hg in Hc. destruct c; try reflexivity. discriminate.
Qed.

Section Sections.

Context `{Collaborators}.

Variable gl : globals.
Variable prefs : preferences.
Variable current_date : string.
Variable plan : diveplan.
Variable d : dive.
Variable show_disclaimer : bool.

(** The loop writes to the buffer: what was there stays in front. *)
Lemma legs_buffer (fuel : nat) (l : list divedatapoint)
    (st st' : loop_state) :
  legs prefs d fuel st l = Ok st' ->
  exists out,
    buffer st' = buffer st ++ out
    /\ Forall (fun c => is_loop_chunk c = true) out.
Proof.
  intro Hlegs. destruct (verbatim_plan prefs) eqn:Hmode.
  - destruct (legs_verbatim_lines prefs d _ Hmode _ _ _ Hlegs)
      as (out & _ & Hbuf & Hkind & _).
    exists out. split; [assumption|]. revert Hkind. apply Forall_impl.
    intros []; cbn; congruence.
  - destruct (legs_collapsed_rows prefs d _ Hmode _ _ _ Hlegs)
      as (out & ps & Hbuf & _ & _ & Hrows).
    exists out. split; [assumption|]. clear Hbuf.
    induction Hrows as [|c p out ps (r & -> & _) _ IH]; constructor;
      [reflexivity|assumption].
Qed.

(** The loop appends rows to the ICD table. *)
Lemma legs_icdbuffer (fuel : nat) :
  forall (l : list divedatapoint) (st st' : loop_state),
    legs prefs d fuel st l = Ok st' ->
    exists es, icdbuffer st' = icdbuffer st ++ map IcdRow es.
Proof.
  induction fuel as [|fuel IH]; intros l st st' Hlegs.
  { destruct l; cbn in Hlegs; [|discriminate]. injection Hlegs as <-.
    exists []. now rewrite app_nil_r. }
  destruct l as [|p rest]; cbn [legs] in Hlegs.
  { injection Hlegs as <-. exists []. now rewrite app_nil_r. }
  destruct (leg_step prefs d st p rest) as [[s1 l1]|f] eqn:Estep;
    cbn [bind fst snd] in Hlegs; [|discriminate].
  destruct (IH _ _ _ Hlegs) as (es & Hes).
  apply leg_step_icd in Estep.
  destruct Estep as [(_ & ->)|(_ & [(Hb & _)|(t & g & _ & Hb & _)])].
  - now exists es.
  - exists es. now rewrite <- Hb.
  - eexists (_ :: es). rewrite Hes, Hb, <- app_assoc. reflexivity.
Qed.

(** What a full report holds outside the table of the plan. *)
Lemma report_sections (error : Z) (o : outcome) :
  reaches_full_report plan error ->
  add_plan_to_notes gl prefs current_date plan d show_disclaimer error
  = Ok o ->
  let d1 := recompute_statistics d in
  exists head out mid pw st,
    legs prefs d (List.length (dp plan))
      (initial_state head (if has_trimix d then [IcdHeader] else []))
      (dp plan) = Ok st
    /\ po2_section prefs d1 (dp plan) = Ok pw
    /\ Forall (fun c => is_frame_chunk c = true) head
    /\ Forall (fun c => is_loop_chunk c = true) out
    /\ Forall (fun c => is_frame_chunk c = true) mid
    /\ Forall (fun c => is_po2_chunk c = true) pw
    /\ notes (out_dive o) =
       Some (head ++ out ++ mid
             ++ fst (consumption prefs d1 (lastbottomdp st) 0 (cylinder d1))
             ++ (if has_trimix d
                 then [IcdTable (icdbuffer st)]
                      ++ (if icdwarning st then [IcdWarning] else [])
                      ++ [IcdSectionEnd]
                 else [])
             ++ pw ++ [ReportEnd])
    /\ buffer st = head ++ out
    /\ (exists v, In (RuntimeLine (diveplan_duration plan) v) head)
    /\ out_minimum_gas o
       = snd (consumption prefs d1 (lastbottomdp st) 0 (cylinder d1))
    /\ In (CnsOtu (cns d1) (otu d1)) mid.
Proof.
  intros Hfull E d1.
  destruct (add_plan_to_notes_full _ _ _ _ _ _ _ _ Hfull E)
    as (text & Htext & Er).
  destruct (full_report_parts _ _ _ _ _ _ _ Htext Er)
    as (head & st & mid & pw & Hlegs & Hpw & Hhead & Hrun & Hmid & Hnotes
        & Hmin & Hcns).
  destruct (legs_buffer _ _ _ _ Hlegs) as (out & Hbuf & Hout).
  cbn [buffer initial_state] in Hbuf. cbn [fst] in Hnotes.
  cbn [snd] in Hmin.
  rewrite Hbuf, <- app_assoc in Hnotes.
  exists head, out, mid, pw, st. repeat split; try assumption.
  unfold po2_section in Hpw.
  destruct (negb _) in Hpw; [|injection Hpw as <-; constructor].
  exact (po2_warnings_chunks _ _ _ _ _ Hpw).
Qed.

Lemma consumption_lines_of (d1 : dive) (lb : option divedatapoint)
    (cyls : list cylinder_t) :
  forall gasidx : Z,
    let lines :=
      consumption_lines (fst (consumption prefs d1 lb gasidx cyls)) in
    let used := cylinders_in_use cylinder_none cyls in
    map cl_gas lines = map cyl_gasmix used
    /\ map cl_volume lines
       = map (fun cyl => get_volume_units (gas_used cyl)) used
    /\ map (fun l => is_some (cl_pressure l)) lines
       = map (fun cyl => Zneqb (type_size cyl) 0) used.
Proof.
  induction cyls as [|cyl rest IH]; intro gasidx;
    cbn [consumption cylinders_in_use].
  { repeat split. }
  destruct (cylinder_none cyl); [repeat split|].
  cbn [fst consumption_lines flat_map app map].
  fold (consumption_lines
          (fst (consumption prefs d1 lb (gasidx + 1) rest))).
  destruct (IH (gasidx + 1)) as (IH1 & IH2 & IH3).
  rewrite IH1, IH2, IH3. unfold cylinder_consumption.
  destruct (Zneqb (type_size cyl) 0); repeat split.
Qed.

(** X8.  A full report has one line for each cylinder of the dive up to
    the first one that is not in use, in the order of the cylinders: the
    line shows the gas and the used volume of its cylinder, and a pressure
    exactly when the cylinder has a size.  Cylinders after an unused one
    are not reported. *)
Theorem one_line_for_each_cylinder_in_use (error : Z) (o : outcome) :
  reaches_full_report plan error ->
  add_plan_to_notes gl prefs current_date plan d show_disclaimer error
  = Ok o ->
  exists b,
    notes (out_dive o) = Some b
    /\ let lines := consumption_lines b in
       let used :=
         cylinders_in_use cylinder_none
           (cylinder (recompute_statistics d)) in
       map cl_gas lines = map cyl_gasmix used
       /\ map cl_volume lines
          = map (fun cyl => get_volume_units (gas_used cyl)) used
       /\ map (fun l => is_some (cl_pressure l)) lines
          = map (fun cyl => Zneqb (type_size cyl) 0) used.
Proof.
  intros Hfull E.
  destruct (report_sections _ _ Hfull E)
    as (head & out & mid & pw & st & _ & _ & Hhead & Hout & Hmid & Hpw
        & Hnotes & _).
  eexists. split; [exact Hnotes|]. cbv zeta.
  rewrite !consumption_lines_app.
  rewrite (consumption_lines_none is_frame_chunk head
             ltac:(intros []; cbn; congruence) Hhead).
  rewrite (consumption_lines_none is_loop_chunk out
             ltac:(intros []; cbn; congruence) Hout).
  rewrite (consumption_lines_none is_frame_chunk mid
             ltac:(intros []; cbn; congruence) Hmid).
  rewrite (consumption_lines_none is_po2_chunk pw
             ltac:(intros []; cbn; congruence) Hpw).
  cbn [app].
  replace (consumption_lines
             (if has_trimix d
              then [IcdTable (icdbuffer st)]
                   ++ (if icdwarning st then [IcdWarning] else [])
                   ++ [IcdSectionEnd]
              else [])) with (@nil cylinder_line)
    by (destruct (has_trimix d), (icdwarning st); reflexivity).
  cbn [consumption_lines flat_map app]. rewrite app_nil_r.
  apply consumption_lines_of.
Qed.

(** X9.  A full report has an ICD section exactly when the dive has an open
    circuit cylinder with helium.  The section is the table, which starts
    with its header and has a row for each recorded gas change, then the
    warning line exactly when one of the rows is for a change that violates
    the ratio, then its closing line.  Without such a cylinder the report
    holds none of them. *)
Theorem icd_section_of_report (error : Z) (o : outcome) :
  reaches_full_report plan error ->
  add_plan_to_notes gl prefs current_date plan d show_disclaimer error
  = Ok o ->
  exists b,
    notes (out_dive o) = Some b
    /\ (has_trimix d = false -> filter is_icd_chunk b = [])
    /\ (has_trimix d = true ->
        exists es,
          filter is_icd_chunk b =
          [IcdTable (IcdHeader :: map IcdRow es)]
          ++ (if existsb icd_violation es then [IcdWarning] else [])
          ++ [IcdSectionEnd]).
Proof.
  intros Hfull E.
  destruct (report_sections _ _ Hfull E)
    as (head & out & mid & pw & st & Hlegs & _ & Hhead & Hout & Hmid & Hpw
        & Hnotes & _).
  eexists. split; [exact Hnotes|].
  rewrite !filter_app.
  rewrite (filter_disjoint is_icd_chunk is_frame_chunk head
             ltac:(intros []; cbn; congruence) Hhead).
  rewrite (filter_disjoint is_icd_chunk is_loop_chunk out
             ltac:(intros []; cbn; congruence) Hout).
  rewrite (filter_disjoint is_icd_chunk is_frame_chunk mid
             ltac:(intros []; cbn; congruence) Hmid).
  rewrite (filter_disjoint is_icd_chunk is_po2_chunk pw
             ltac:(intros []; cbn; congruence) Hpw).
  rewrite (filter_disjoint is_icd_chunk is_consumption _
             ltac:(intros []; cbn; congruence)
             (consumption_chunks prefs _ _ _ _)).
  cbn [app filter is_icd_chunk]. rewrite app_nil_r.
  split; intro Htri; rewrite Htri in *; [reflexivity|].
  destruct (legs_icdbuffer _ _ _ _ Hlegs) as (es & Hes).
  cbn [icdbuffer initial_state app] in Hes.
  destruct (legs_icd prefs d (dp plan) _ _ _ _ Hlegs) as [[Hw _] _].
  { auto. }
  { split; [reflexivity|constructor]. }
  exists es. rewrite Hw, Hes. cbn [icd_rows].
  replace (icd_rows (map IcdRow es)) with es
    by (clear; induction es; cbn; congruence).
  destruct (existsb icd_violation es); reflexivity.
Qed.

(** X26.  A full report consists, in this order, of its head (the
    disclaimer if asked for, the banner, the runtime line and the head of
    the table), the rows or lines the waypoint loop wrote, the lines after
    the table with the CNS and OTU, the lines of the cylinders, the ICD
    section, the warnings for pO2 and the closing line: chunks of one part
    never turn up in another. *)
Theorem report_layout (error : Z) (o : outcome) :
  reaches_full_report plan error ->
  add_plan_to_notes gl prefs current_date plan d show_disclaimer error
  = Ok o ->
  exists head table mid cyls icd po2,
    notes (out_dive o)
    = Some (head ++ table ++ mid ++ cyls ++ icd ++ po2 ++ [ReportEnd])
    /\ Forall (fun c => is_frame_chunk c = true) head
    /\ Forall (fun c => is_loop_chunk c = true) table
    /\ Forall (fun c => is_frame_chunk c = true) mid
    /\ Forall (fun c => is_consumption c = true) cyls
    /\ Forall (fun c => is_icd_chunk c = true) icd
    /\ Forall (fun c => is_po2_chunk c = true) po2
    /\ (exists v, In (RuntimeLine (diveplan_duration plan) v) head)
    /\ In (CnsOtu (cns (recompute_statistics d))
             (otu (recompute_statistics d))) mid.
Proof.
  intros Hfull E.
  destruct (report_sections _ _ Hfull E)
    as (head & out & mid & pw & st & Hlegs & _ & Hhead & Hout & Hmid & Hpw
        & Hnotes & Hbuf & Hrun & _ & Hcns).
  exists head, out, mid. eexists. eexists. exists pw.
  split; [exact Hnotes|].
  repeat split; try assumption.
  - apply consumption_chunks.
  - destruct (has_trimix d), (icdwarning st); repeat constructor.
Qed.

End Sections.

(** ** The warnings for pO2 in the report *)

Section PO2Section.

Context `{Collaborators}.

Variable prefs : preferences.

Lemma po2_warning_has_time (d1 : dive) (p : divedatapoint) (w : chunk) :
  po2_warning prefs d1 p = Ok (Some w) -> Zneqb (time p) 0 = true.
Proof.
  unfold po2_warning. destruct (Zneqb (time p) 0); [reflexivity|discriminate].
Qed.

(** The warnings come after the line that opens them, which is written
    once, before the first warning. *)
Lemma po2_warnings_shape (d1 : dive) (l : list divedatapoint) :
  forall (opened : bool) (ws : list chunk),
    po2_warnings prefs d1 l opened = Ok ws ->
    (ws = []
     \/ exists w rest,
          ws = (if opened then [] else [PO2Open]) ++ w :: rest
          /\ Forall (fun c => is_po2_warning_chunk c = true) (w :: rest))
    /\ (List.length (filter is_po2_warning_chunk ws)
        <= nonzero_waypoints l)%nat.
Proof.
  induction l as [|p rest IH]; intros opened ws Hws;
    cbn [po2_warnings] in Hws.
  { injection Hws as <-. split; [now left|cbn; lia]. }
  unfold nonzero_waypoints in *. cbn [filter].
  destruct (po2_warning prefs d1 p) as [[w|]|f] eqn:Ep; cbn [bind] in Hws;
    [| |discriminate].
  - destruct (po2_warnings prefs d1 rest true) as [ws'|f] eqn:Er;
      cbn [bind] in Hws; [|discriminate].
    injection Hws as <-.
    destruct (IH _ _ Er) as (Hshape & Hlen).
    rewrite (po2_warning_has_time _ _ _ Ep).
    pose proof (po2_warning_chunk prefs _ _ _ Ep) as Hw.
    assert (Hall : Forall (fun c => is_po2_warning_chunk c = true) ws').
    { destruct Hshape as [->|(w' & r' & -> & Hr')]; [constructor|].
      exact Hr'. }
    split.
    + right. exists w, ws'. split; [reflexivity|now constructor].
    + rewrite filter_app. cbn [filter]. rewrite Hw.
      rewrite length_app. cbn [List.length].
      destruct opened; cbn; lia.
  - destruct (IH _ _ Hws) as (Hshape & Hlen). split; [assumption|].
    destruct (Zneqb (time p) 0); cbn [List.length]; lia.
Qed.

(** X10.  The warnings for pO2 of a full report are either absent or one
    opening line followed by one or more warnings; there are at most as
    many warnings as waypoints with a time, and none for a closed circuit
    dive. *)
Theorem po2_section_of_report (gl : globals) (current_date : string)
    (plan : diveplan) (d : dive) (show_disclaimer : bool) (error : Z)
    (o : outcome) :
  reaches_full_report plan error ->
  add_plan_to_notes gl prefs current_date plan d show_disclaimer error
  = Ok o ->
  exists b,
    notes (out_dive o) = Some b
    /\ (filter is_po2_chunk b = []
        \/ exists w rest,
             filter is_po2_chunk b = PO2Open :: w :: rest
             /\ Forall (fun c => is_po2_warning_chunk c = true) (w :: rest))
    /\ (List.length (filter is_po2_warning_chunk b)
        <= nonzero_waypoints (dp plan))%nat
    /\ (dc_divemode (recompute_statistics d) = CCR ->
        filter is_po2_chunk b = []).
Proof.
  intros Hfull E.
  destruct (report_sections gl prefs current_date plan d show_disclaimer
              error o Hfull E)
    as (head & out & mid & pw & st & _ & Hpo2 & Hhead & Hout & Hmid & Hpw
        & Hnotes & _).
  eexists. split; [exact Hnotes|].
  assert (Hicd : forall f : chunk -> bool,
            (forall c, is_icd_chunk c = true -> f c = false) ->
            filter f
              (if has_trimix d
               then [IcdTable (icdbuffer st)]
                    ++ (if icdwarning st then [IcdWarning] else [])
                    ++ [IcdSectionEnd]
               else []) = []).
  { intros f Hf. apply (filter_disjoint f is_icd_chunk); [assumption|].
    destruct (has_trimix d), (icdwarning st); repeat constructor. }
  assert (Hfilter : filter is_po2_chunk
            (head ++ out ++ mid
             ++ fst (consumption prefs (recompute_statistics d)
                       (lastbottomdp st) 0
                       (cylinder (recompute_statistics d)))
             ++ (if has_trimix d
                 then [IcdTable (icdbuffer st)]
                      ++ (if icdwarning st then [IcdWarning] else [])
                      ++ [IcdSectionEnd]
                 else [])
             ++ pw ++ [ReportEnd]) = pw).
  { rewrite !filter_app.
    rewrite (filter_disjoint is_po2_chunk is_frame_chunk head
               ltac:(intros []; cbn; congruence) Hhead).
    rewrite (filter_disjoint is_po2_chunk is_loop_chunk out
               ltac:(intros []; cbn; congruence) Hout).
    rewrite (filter_disjoint is_po2_chunk is_frame_chunk mid
               ltac:(intros []; cbn; congruence) Hmid).
    rewrite (filter_disjoint is_po2_chunk is_consumption _
               ltac:(intros []; cbn; congruence)
               (consumption_chunks prefs _ _ _ _)).
    rewrite (Hicd is_po2_chunk ltac:(intros []; cbn; congruence)).
    cbn [app filter is_po2_chunk]. rewrite app_nil_r.
    clear - Hpw. induction Hpw as [|c l Hc _ IH]; [reflexivity|].
    cbn [filter]. now rewrite Hc, IH. }
  assert (Hcount : filter is_po2_warning_chunk
            (head ++ out ++ mid
             ++ fst (consumption prefs (recompute_statistics d)
                       (lastbottomdp st) 0
                       (cylinder (recompute_statistics d)))
             ++ (if has_trimix d
                 then [IcdTable (icdbuffer st)]
                      ++ (if icdwarning st then [IcdWarning] else [])
                      ++ [IcdSectionEnd]
                 else [])
             ++ pw ++ [ReportEnd]) = filter is_po2_warning_chunk pw).
  { rewrite !filter_app.
    rewrite (filter_disjoint is_po2_warning_chunk is_frame_chunk head
               ltac:(intros []; cbn; congruence) Hhead).
    rewrite (filter_disjoint is_po2_warning_chunk is_loop_chunk out
               ltac:(intros []; cbn; congruence) Hout).
    rewrite (filter_disjoint is_po2_warning_chunk is_frame_chunk mid
               ltac:(intros []; cbn; congruence) Hmid).
    rewrite (filter_disjoint is_po2_warning_chunk is_consumption _
               ltac:(intros []; cbn; congruence)
               (consumption_chunks prefs _ _ _ _)).
    rewrite (Hicd is_po2_warning_chunk ltac:(intros []; cbn; congruence)).
    cbn [app filter is_po2_warning_chunk]. now rewrite app_nil_r. }
  rewrite Hfilter, Hcount. clear Hfilter Hcount Hicd.
  unfold po2_section in Hpo2.
  destruct (divemode_eqb (dc_divemode (recompute_statistics d)) CCR) eqn:Em;
    cbn [negb] in Hpo2.
  { injection Hpo2 as <-. split; [now left|]. split; [cbn; lia|reflexivity]. }
  destruct (po2_warnings_shape _ _ _ _ Hpo2) as (Hshape & Hlen).
  split; [exact Hshape|]. split; [exact Hlen|].
  intro Hccr. apply divemode_eqb_eq in Hccr. congruence.
Qed.

End PO2Section.

(** ** Plans at the edge *)

Section EdgePlans.

Context `{Collaborators}.

Variable gl : globals.
Variable prefs : preferences.
Variable current_date : string.
Variable plan : diveplan.
Variable d : dive.
Variable show_disclaimer : bool.

Lemma legs_without_times (fuel : nat) :
  forall (l : list divedatapoint) (st : loop_state),
    (List.length l <= fuel)%nat ->
    Forall (fun p => time p = 0) l ->
    legs prefs d fuel st l = Ok st.
Proof.
  induction fuel as [|fuel IH]; intros l st Hlen Hl.
  { destruct l; [reflexivity|cbn in Hlen; lia]. }
  destruct l as [|p rest]; [reflexivity|]. cbn [legs].
  apply Forall_cons_iff in Hl. destruct Hl as [Hp Hrest].
  unfold leg_step. rewrite Hp. cbn [Z.eqb bind fst snd].
  apply IH; [cbn in Hlen; lia|assumption].
Qed.

Lemma po2_warnings_without_times (d1 : dive) (l : list divedatapoint) :
  Forall (fun p => time p = 0) l ->
  forall opened, po2_warnings prefs d1 l opened = Ok [].
Proof.
  induction 1 as [|p rest Hp _ IH]; intro opened; cbn [po2_warnings];
    [reflexivity|].
  unfold po2_warning. rewrite Hp. cbn [Zneqb Z.eqb negb bind]. apply IH.
Qed.

Lemma max_time_without_times (l : list divedatapoint) :
  Forall (fun p => time p = 0) l -> max_time l 0 = 0.
Proof.
  induction 1 as [|p rest Hp _ IH]; cbn [max_time]; [reflexivity|].
  now rewrite Hp.
Qed.

(** X11.  A plan none of whose waypoints has a time still gets a full
    report, whatever cylinders its waypoints name: the report has no row,
    no line of the verbatim plan, no gas switch and no warning for pO2, it
    shows a runtime of 0 minutes, and no minimum gas is calculated. *)
Theorem plan_without_times (error : Z) :
  reaches_full_report plan error ->
  Forall (fun p => time p = 0) (dp plan) ->
  exists o b,
    add_plan_to_notes gl prefs current_date plan d show_disclaimer error
    = Ok o
    /\ notes (out_dive o) = Some b
    /\ is_full_report (notes (out_dive o)) = true
    /\ filter is_loop_chunk b = []
    /\ filter is_po2_chunk b = []
    /\ (exists v, In (RuntimeLine 0 v) b)
    /\ out_minimum_gas o = None.
Proof.
  intros Hfull Hzero.
  assert (Hok : exists o,
             add_plan_to_notes gl prefs current_date plan d show_disclaimer
               error = Ok o).
  { destruct Hfull as (Hdp & -> & Hsi). unfold add_plan_to_notes.
    destruct (dp plan) as [|p0 rest] eqn:Edp; [contradiction|].
    cbn [Zneqb Z.eqb negb].
    destruct (surface_interval plan <? 0) eqn:Es;
      [apply Z.ltb_lt in Es; lia|].
    unfold full_report. cbv zeta. rewrite Edp.
    rewrite legs_without_times; [|apply le_n|assumption].
    cbn [bind]. unfold po2_section.
    destruct (negb _); [rewrite po2_warnings_without_times by assumption|];
      cbn [bind]; eexists; reflexivity. }
  destruct Hok as (o & E). exists o.
  destruct (report_sections gl prefs current_date plan d show_disclaimer
              error o Hfull E)
    as (head & out & mid & pw & st & Hlegs & Hpo2 & Hhead & Hout & Hmid
        & Hpw & Hnotes & Hbuf & (v & Hrun) & Hmin & _).
  destruct (add_plan_to_notes_full gl prefs current_date plan d
              show_disclaimer error o Hfull E) as (text & Htext & Er).
  rewrite legs_without_times in Hlegs; [|apply le_n|assumption].
  injection Hlegs as <-.
  cbn [buffer lastbottomdp icdbuffer icdwarning initial_state] in *.
  assert (Hout0 : out = []).
  { apply (app_inv_head head). now rewrite app_nil_r. }
  assert (Hpw0 : pw = []).
  { unfold po2_section in Hpo2.
    destruct (negb _) in Hpo2; [|now injection Hpo2].
    rewrite po2_warnings_without_times in Hpo2 by assumption.
    now injection Hpo2. }
  subst out pw.
  eexists. split; [exact E|]. split; [exact Hnotes|].
  split; [|split; [|split; [|split]]].
  - exact (full_report_is_full prefs current_date plan d show_disclaimer
             text (out_dive o, out_minimum_gas o) Er).
  - rewrite !filter_app.
    rewrite (filter_disjoint is_loop_chunk is_frame_chunk head
               ltac:(intros []; cbn; congruence) Hhead).
    rewrite (filter_disjoint is_loop_chunk is_frame_chunk mid
               ltac:(intros []; cbn; congruence) Hmid).
    rewrite (filter_disjoint is_loop_chunk is_consumption _
               ltac:(intros []; cbn; congruence)
               (consumption_chunks prefs _ _ _ _)).
    destruct (has_trimix d); reflexivity.
  - rewrite !filter_app.
    rewrite (filter_disjoint is_po2_chunk is_frame_chunk head
               ltac:(intros []; cbn; congruence) Hhead).
    rewrite (filter_disjoint is_po2_chunk is_frame_chunk mid
               ltac:(intros []; cbn; congruence) Hmid).
    rewrite (filter_disjoint is_po2_chunk is_consumption _
               ltac:(intros []; cbn; congruence)
               (consumption_chunks prefs _ _ _ _)).
    destruct (has_trimix d); reflexivity.
  - exists v. apply in_or_app. left.
    unfold diveplan_duration in Hrun.
    now rewrite max_time_without_times in Hrun by assumption.
  - rewrite Hmin.
    match goal with
    | |- snd ?c = None => destruct (snd c) as [m|] eqn:Em; [|reflexivity]
    end.
    destruct (consumption_minimum_gas prefs _ _ _ _ _ Em)
      as (p & _ & Hp & _). discriminate Hp.
Qed.

Lemma skip_zero_Forall_back (P : divedatapoint -> Prop)
    (l : list divedatapoint) :
  (forall x, time x = 0 -> P x) ->
  Forall P (skip_zero l) -> Forall P l.
Proof.
  intro Hz. induction l as [|n rest IH]; cbn [skip_zero]; [auto|].
  destruct (time n =? 0) eqn:Et; [|auto].
  apply Z.eqb_eq in Et. intro Hrest. constructor; auto.
Qed.

Lemma legs_reads_cylinders (fuel : nat) :
  forall (l : list divedatapoint) (st st' : loop_state),
    legs prefs d fuel st l = Ok st' ->
    Forall (fun p => time p <> 0 -> is_ok (cylinder_at d (cylinderid p))) l.
Proof.
  induction fuel as [|fuel IH]; intros l st st' Hlegs.
  { destruct l; cbn in Hlegs; [constructor|discriminate]. }
  destruct l as [|p rest]; cbn [legs] in Hlegs; [constructor|].
  destruct (leg_step prefs d st p rest) as [[s1 l1]|f] eqn:Estep;
    cbn [bind fst snd] in Hlegs; [|discriminate].
  specialize (IH _ _ _ Hlegs).
  apply leg_step_cases in Estep.
  destruct Estep as [(Ht & _ & ->)|(Ht & -> & Hc & _)].
  - constructor; [contradiction|assumption].
  - constructor; [auto|].
    apply skip_zero_Forall_back; [contradiction|assumption].
Qed.

Lemma po2_warnings_read_cylinders (d1 : dive) (l : list divedatapoint) :
  forall (opened : bool) (ws : list chunk),
    po2_warnings prefs d1 l opened = Ok ws ->
    Forall (fun p => time p <> 0 -> is_ok (cylinder_at d1 (cylinderid p))) l.
Proof.
  induction l as [|p rest IH]; intros opened ws Hws; [constructor|].
  cbn [po2_warnings] in Hws.
  assert (Hp : time p <> 0 -> is_ok (cylinder_at d1 (cylinderid p))).
  { intro Ht. apply Zneqb_neq in Ht. unfold po2_warning in Hws.
    rewrite Ht in Hws.
    destruct (cylinder_at d1 (cylinderid p)); [apply is_ok_Ok|].
    discriminate. }
  destruct (po2_warning prefs d1 p) as [[w|]|f]; cbn [bind] in Hws;
    [| |discriminate].
  - destruct (po2_warnings prefs d1 rest true) eqn:Er; cbn [bind] in Hws;
      [|discriminate].
    constructor; [assumption|exact (IH _ _ Er)].
  - constructor; [assumption|exact (IH _ _ Hws)].
Qed.


End EdgePlans.

(** ** The columns of the ICD table *)

Section IcdColumns.

Context `{Collaborators}.

(** X13.  In the rows [add_icd_entry] writes for a gas change at a
    positive ambient pressure, the change of nitrogen is printed in red
    exactly when it exceeds the largest allowed change printed beside it,
    in the row of the fractions and in the row of the partial pressures
    alike. *)
Theorem icd_red_exceeds_printed_limit (v : icd_data) (t amb : Z)
    (gas_from gas_to : gasmix) :
  0 < amb ->
  let e := add_icd_entry v t amb gas_from gas_to in
  (icd_dN2_color e = Red <-> (icd_max_dN2_pct e < icd_dN2_pct e)%Q)
  /\ (icd_dN2_bar_color e = Red <-> (icd_max_dN2_bar e < icd_dN2_bar e)%Q).
Proof.
  intros Hamb e. subst e.
  cbn [add_icd_entry icd_dN2_color icd_dN2_bar_color icd_max_dN2_pct
       icd_dN2_pct icd_max_dN2_bar icd_dN2_bar].
  unfold icd_color.
  assert (Hpct : ((2 # 10) * (inject_Z (- dHe v) / 10)
                  < inject_Z (dN2 v) / 10)%Q <-> 5 * dN2 v > - dHe v).
  { cbv [Qlt Qmult Qdiv Qinv inject_Z Qnum Qden]. lia. }
  assert (Hbar : (inject_Z (amb * - dHe v) / 5000000
                  < inject_Z (amb * dN2 v) / 1000000)%Q
                 <-> 5 * dN2 v > - dHe v).
  { cbv [Qlt Qmult Qdiv Qinv inject_Z Qnum Qden]. nia. }
  rewrite Hpct, Hbar.
  destruct (5 * dN2 v >? - dHe v) eqn:E.
  - apply Zgtb_gt in E. split; split; auto.
  - apply Zgtb_le in E. split; split; intro; try discriminate; lia.
Qed.

End IcdColumns.

(** * Properties of the dive filter *)

Module FilterProperties.

Import Filter.

Lemma nth_error_set_nth {A : Type} (f : A -> A) (l : list A) :
  forall i j : nat,
    nth_error (set_nth i f l) j =
    if Nat.eqb j i then option_map f (nth_error l i) else nth_error l j.
Proof.
  induction l as [|x rest IH]; intros i j; cbn [set_nth].
  - destruct (Nat.eqb j i); destruct i, j; reflexivity.
  - destruct i as [|i], j as [|j]; cbn [nth_error Nat.eqb option_map];
      try reflexivity.
    apply IH.
Qed.

Lemma length_set_nth {A : Type} (f : A -> A) (l : list A) :
  forall i : nat, List.length (set_nth i f l) = List.length l.
Proof.
  induction l as [|x rest IH]; intros [|i]; cbn; auto.
Qed.

Lemma map_set_nth_same {A B : Type} (g : A -> B) (f : A -> A) (l : list A) :
  (forall x, g (f x) = g x) ->
  forall i : nat, map g (set_nth i f l) = map g l.
Proof.
  intro Hg. induction l as [|x rest IH]; intros [|i]; cbn; auto.
  - now rewrite Hg.
  - now rewrite IH.
Qed.

Lemma count_shown_map (l l' : list dive) :
  map hidden_by_filter l = map hidden_by_filter l' ->
  count_shown l = count_shown l'.
Proof.
  unfold count_shown. revert l'.
  induction l as [|x l IH]; intros [|y l'] E; try discriminate;
    [reflexivity|].
  cbn [map] in E. injection E as Ex E. cbn [filter]. rewrite Ex.
  specialize (IH _ E).
  destruct (negb (hidden_by_filter y)); cbn [List.length]; lia.
Qed.

Lemma count_shown_set_hidden (h : bool) (l : list dive) :
  forall (i : nat) (dv : dive),
    nth_error l i = Some dv ->
    count_shown
      (set_nth i (fun x => mkDive h (selected x) (invalid x) (dive_site x)) l)
    = count_shown l + (Z.b2z (negb h) - Z.b2z (negb (hidden_by_filter dv))).
Proof.
  unfold count_shown.
  induction l as [|x rest IH]; intros [|i] dv Hnth; cbn [nth_error] in Hnth;
    try discriminate.
  - injection Hnth as ->. cbn [set_nth filter hidden_by_filter].
    destruct h, (hidden_by_filter dv); cbn [negb List.length Z.b2z]; lia.
  - cbn [set_nth filter]. specialize (IH _ _ Hnth).
    destruct (negb (hidden_by_filter x)); cbn [List.length]; lia.
Qed.

Lemma count_shown_hidden (l : list dive) :
  count_shown l + count_hidden l = Z.of_nat (List.length l).
Proof.
  unfold count_shown, count_hidden.
  induction l as [|x rest IH]; cbn [filter List.length]; [reflexivity|].
  destruct (hidden_by_filter x); cbn [negb List.length]; lia.
Qed.

Section Counter.

Context `{FilterCollaborators}.

Hypothesis deselect_keeps : keeps_filter_status deselect_dive.

Lemma setFilterStatus_counts (d : dive_ptr) (shown changed : bool)
    (w w' : world) :
  setFilterStatus d shown w = Ok (changed, w') ->
  shown_dives w' = shown_dives w + step_of changed shown
  /\ count_shown (dives w') = count_shown (dives w) + step_of changed shown
  /\ map dive_site (dives w') = map dive_site (dives w)
  /\ dive_table w' = dive_table w.
Proof.
  unfold setFilterStatus. destruct d as [i|].
  2:{ intro E. injection E as <- <-. cbn. repeat split; lia. }
  unfold dive_at. destruct (nth_error (dives w) i) as [dv|] eqn:Hnth;
    cbn [bind]; [|discriminate].
  intro E. injection E as <- <-.
  set (w1 := set_hidden i (negb shown) w).
  set (w2 := if negb shown && selected dv then deselect_dive i w1 else w1).
  assert (H2 : shown_dives w2 = shown_dives w
               /\ map hidden_by_filter (dives w2)
                  = map hidden_by_filter (dives w1)
               /\ map dive_site (dives w2) = map dive_site (dives w)
               /\ dive_table w2 = dive_table w).
  { assert (Hs : map dive_site (dives w1) = map dive_site (dives w))
      by (apply map_set_nth_same; reflexivity).
    subst w2. destruct (negb shown && selected dv); [|auto].
    destruct (deselect_keeps i w1) as (Hc & Hh & Hd & Ht).
    repeat split; try assumption; congruence. }
  destruct H2 as (Hc & Hh & Hd & Ht).
  assert (Hcount : count_shown (dives w2)
                   = count_shown (dives w)
                     + (Z.b2z (negb (negb shown))
                        - Z.b2z (negb (hidden_by_filter dv)))).
  { rewrite (count_shown_map _ _ Hh). subst w1. cbn [dives set_hidden].
    now apply count_shown_set_hidden. }
  unfold step_of.
  destruct (hidden_by_filter dv), shown;
    cbn [xorb negb Z.b2z set_shown_dives shown_dives dives dive_table] in *;
    repeat split; try assumption; lia.
Qed.

Lemma updateDiveStatus_counts (d : dive_ptr) (newStatus : bool)
    (c c' : ShownChange) (w w' : world) :
  updateDiveStatus d newStatus c w = Ok (c', w') ->
  shown_dives w' - shown_dives w = changes c' - changes c
  /\ count_shown (dives w') - count_shown (dives w) = changes c' - changes c
  /\ map dive_site (dives w') = map dive_site (dives w)
  /\ dive_table w' = dive_table w.
Proof.
  unfold updateDiveStatus.
  destruct (setFilterStatus d newStatus w) as [[changed w1]|] eqn:E;
    cbn [bind fst snd]; [|discriminate].
  intro E'. injection E' as <- <-.
  destruct (setFilterStatus_counts _ _ _ _ _ E) as (Hs & Hc & Hd & Ht).
  unfold step_of in *. unfold changes.
  destruct changed, newStatus; cbn [newShown newHidden];
    rewrite ?length_app; cbn [List.length];
    repeat split; try assumption; lia.
Qed.

Lemma update_each_counts (newStatus : world -> dive_ptr -> res bool)
    (ds : list dive_ptr) :
  forall (c c' : ShownChange) (w w' : world),
    update_each newStatus ds c w = Ok (c', w') ->
    shown_dives w' - shown_dives w = changes c' - changes c
    /\ count_shown (dives w') - count_shown (dives w) = changes c' - changes c
    /\ map dive_site (dives w') = map dive_site (dives w)
    /\ dive_table w' = dive_table w.
Proof.
  induction ds as [|d rest IH]; intros c c' w w'; cbn [update_each].
  { intro E. injection E as <- <-. repeat split; lia. }
  destruct (newStatus w d) as [s|]; cbn [bind]; [|discriminate].
  destruct (updateDiveStatus d s c w) as [[c1 w1]|] eqn:E1;
    cbn [bind fst snd]; [|discriminate].
  intro E. destruct (IH _ _ _ _ E) as (Hs & Hc & Hd & Ht).
  destruct (updateDiveStatus_counts _ _ _ _ _ _ E1) as (Hs1 & Hc1 & Hd1 & Ht1).
  repeat split; try congruence; lia.
Qed.

(** X14.  When [deselect_dive] keeps the filter status of the dives,
    [update] moves the counter [shown_dives] by the number of dives it
    reports as newly shown minus the number it reports as newly hidden, and
    the number of dives that are not hidden moves by the same amount: the
    difference between the counter and the number of shown dives is the
    same before and after. *)
Theorem update_counts_changes (f : DiveFilter) (ds : list dive_ptr)
    (w w' : world) (c : ShownChange) :
  update f ds w = Ok (c, w') ->
  shown_dives w' = shown_dives w + changes c
  /\ count_shown (dives w') = count_shown (dives w) + changes c
  /\ shown_dives w' - count_shown (dives w')
     = shown_dives w - count_shown (dives w).
Proof.
  unfold update.
  match goal with
  | |- bind ?m _ = _ -> _ => destruct m as [[c1 w1]|] eqn:E
  end; cbn [bind]; [|discriminate].
  intro E'. unfold set_currentChanged in E'. cbn [fst snd] in E'.
  injection E' as <- <-.
  destruct (update_each_counts _ _ _ _ _ _ E) as (Hs & Hc & _).
  unfold changes in *. cbn [newShown newHidden no_change List.length] in *.
  repeat split; lia.
Qed.

(** The counter after [updateAll]. *)
Lemma updateAll_counts (f : DiveFilter) (w w' : world)
    (c : ShownChange) :
  updateAll f w = Ok (c, w') ->
  shown_dives w' = changes c
  /\ shown_dives w' = count_shown (dives w') - count_shown (dives w).
Proof.
  unfold updateAll. cbv zeta.
  match goal with
  | |- bind ?m _ = _ -> _ => destruct m as [[c1 w1]|] eqn:E
  end; cbn [bind]; [|discriminate].
  intro E'. unfold set_currentChanged in E'. cbn [fst snd] in E'.
  injection E' as <- <-.
  assert (Hcounts :
    shown_dives w1 - shown_dives (set_shown_dives 0 w)
    = changes c1 - changes no_change
    /\ count_shown (dives w1) - count_shown (dives (set_shown_dives 0 w))
       = changes c1 - changes no_change).
  { destruct (diveSiteMode f); [|destruct (doit (fullText (filterData f)))];
      destruct (update_each_counts _ _ _ _ _ _ E) as (Hs & Hc & _); auto. }
  destruct Hcounts as (Hs & Hc).
  unfold changes in *.
  cbn [newShown newHidden no_change List.length set_shown_dives shown_dives
       dives] in *.
  repeat split; lia.
Qed.

(** X15.  [updateAll] sets the counter to zero before it walks through
    the table, and [setFilterStatus] counts changes only: afterwards
    [shown_dives] is the number of dives that became shown minus the number
    that became hidden, that is the number of shown dives after the call
    minus the number before it.  The counter is the number of shown dives
    exactly when no dive was shown before the call. *)
Theorem updateAll_counts_changes (f : DiveFilter) (w w' : world)
    (c : ShownChange) :
  updateAll f w = Ok (c, w') ->
  shown_dives w' = changes c
  /\ shown_dives w' = count_shown (dives w') - count_shown (dives w)
  /\ (shown_dives w' = count_shown (dives w') <-> count_shown (dives w) = 0).
Proof.
  intro E. destruct (updateAll_counts _ _ _ _ E) as (H1 & H2).
  repeat split; lia.
Qed.

Lemma show_each_shows (ds : list nat) :
  forall w w1 : world,
    show_each ds w = Ok w1 ->
    List.length (dives w1) = List.length (dives w)
    /\ dive_table w1 = dive_table w
    /\ forall j dv1,
         nth_error (dives w1) j = Some dv1 ->
         hidden_by_filter dv1 = true ->
         ~ In j ds
         /\ exists dv, nth_error (dives w) j = Some dv
                       /\ hidden_by_filter dv = true.
Proof.
  induction ds as [|i rest IH]; intros w w1; cbn [show_each].
  { intro E. injection E as <-. repeat split; eauto. }
  destruct (dive_at w (Some i)) as [dv|] eqn:Ei; cbn [bind]; [|discriminate].
  intro E. destruct (IH _ _ E) as (Hlen & Ht & Hhid).
  cbn [set_hidden dives dive_table] in Hlen, Ht, Hhid.
  rewrite length_set_nth in Hlen.
  split; [assumption|]. split; [assumption|].
  intros j dv1 Hj1 Hh1.
  destruct (Hhid _ _ Hj1 Hh1) as (Hrest & dv' & Hj & Hh').
  rewrite nth_error_set_nth in Hj.
  destruct (Nat.eqb j i) eqn:Eji.
  - destruct (nth_error (dives w) i); cbn [option_map] in Hj;
      [|discriminate].
    injection Hj as <-. discriminate Hh'.
  - apply Nat.eqb_neq in Eji. split; [|eauto].
    intros [->|Hin]; [now apply Eji|auto].
Qed.

Lemma all_shown_count (l : list dive) :
  (forall j dv, nth_error l j = Some dv -> hidden_by_filter dv = false) ->
  count_shown l = Z.of_nat (List.length l).
Proof.
  unfold count_shown. induction l as [|x rest IH]; intro Hall;
    [reflexivity|].
  cbn [filter]. rewrite (Hall O x eq_refl). cbn [negb List.length].
  rewrite Nat2Z.inj_succ, IH; [lia|].
  intros j dv Hj. exact (Hall (S j) dv Hj).
Qed.

(** X16.  [reset] shows every dive of the table and then calls
    [updateAll], which starts the counter from zero again: when every dive
    is in the table, [shown_dives] ends as minus the number of dives the
    filter hides, and is never positive. *)
Theorem reset_leaves_hidden_count (f : DiveFilter) (w w' : world) :
  table_complete w ->
  reset f w = Ok w' ->
  shown_dives w' = - count_hidden (dives w')
  /\ shown_dives w' <= 0
  /\ List.length (dives w') = List.length (dives w).
Proof.
  intros Hcomplete. unfold reset. cbv zeta.
  destruct (show_each _ _) as [w1|] eqn:Eshow; cbn [bind]; [|discriminate].
  destruct (updateAll f w1) as [[c w2]|] eqn:Eall; cbn [bind snd];
    [|discriminate].
  intro E. injection E as <-.
  destruct (show_each_shows _ _ _ Eshow) as (Hlen & Ht & Hhid).
  cbn [set_shown_dives dives dive_table] in Hlen, Ht, Hhid.
  assert (Hall : count_shown (dives w1) = Z.of_nat (List.length (dives w1))).
  { apply all_shown_count. intros j dv Hj.
    destruct (hidden_by_filter dv) eqn:Hh; [|reflexivity].
    exfalso. apply (proj1 (Hhid _ _ Hj Hh)). apply Hcomplete.
    rewrite <- Hlen. apply nth_error_Some. congruence. }
  assert (Hlen2 : List.length (dives w2) = List.length (dives w1)).
  { revert Eall. unfold updateAll. cbv zeta.
    match goal with
    | |- bind ?m _ = _ -> _ => destruct m as [[c1 w3]|] eqn:E
    end; cbn [bind]; [|discriminate].
    intro E'. unfold set_currentChanged in E'. cbn [fst snd] in E'.
    injection E' as _ <-.
    assert (Hd : map dive_site (dives w3)
                 = map dive_site (dives (set_shown_dives 0 w1))).
    { destruct (diveSiteMode f); [|destruct (doit (fullText (filterData f)))];
        destruct (update_each_counts _ _ _ _ _ _ E) as (_ & _ & Hd & _);
        exact Hd. }
    cbn [set_shown_dives dives] in Hd.
    apply (f_equal (@List.length Z)) in Hd. now rewrite !length_map in Hd. }
  destruct (updateAll_counts _ _ _ _ Eall) as (_ & Hs).
  pose proof (count_shown_hidden (dives w2)) as Hsum.
  pose proof (Nat2Z.is_nonneg (List.length (filter hidden_by_filter (dives w2)))).
  unfold count_hidden in *.
  repeat split; try lia.
Qed.

Lemma setFilterStatus_flags (k : nat) (shown changed : bool)
    (w w1 : world) :
  setFilterStatus (Some k) shown w = Ok (changed, w1) ->
  (k < List.length (dives w))%nat
  /\ forall i,
       nth_error (map hidden_by_filter (dives w1)) i =
       if Nat.eqb i k then Some (negb shown)
       else nth_error (map hidden_by_filter (dives w)) i.
Proof.
  unfold setFilterStatus, dive_at.
  destruct (nth_error (dives w) k) as [dv|] eqn:Hnth; cbn [bind];
    [|discriminate].
  intro E. injection E as _ Hw1. split.
  { apply nth_error_Some. congruence. }
  intro i.
  assert (H1 : nth_error
                 (map hidden_by_filter
                    (dives (set_hidden k (negb shown) w))) i
               = if Nat.eqb i k then Some (negb shown)
                 else nth_error (map hidden_by_filter (dives w)) i).
  { rewrite !nth_error_map. cbn [set_hidden dives].
    rewrite nth_error_set_nth.
    destruct (Nat.eqb i k); [now rewrite Hnth|reflexivity]. }
  rewrite <- Hw1. clear Hw1.
  destruct (xorb _ shown); cbn [set_shown_dives dives];
    destruct (negb shown && selected dv); try exact H1;
    destruct (deselect_keeps k (set_hidden k (negb shown) w))
      as (_ & -> & _); exact H1.
Qed.

Lemma update_each_sites (f : DiveFilter) (ds : list dive_ptr) :
  forall (c c' : ShownChange) (w w' : world),
    update_each (site_status f) ds c w = Ok (c', w') ->
    forall i,
      nth_error (map hidden_by_filter (dives w')) i =
      if existsb (ptr_eqb (Some i)) ds
      then option_map (fun s => negb (contains (dive_sites f) s))
             (nth_error (map dive_site (dives w)) i)
      else nth_error (map hidden_by_filter (dives w)) i.
Proof.
  induction ds as [|d rest IH]; intros c c' w w'; cbn [update_each].
  { intro E. injection E as _ <-. reflexivity. }
  unfold site_status at 1, dive_at.
  destruct d as [k|]; cbn [bind]; [|discriminate].
  destruct (nth_error (dives w) k) as [dv|] eqn:Hnth; cbn [bind];
    [|discriminate].
  destruct (updateDiveStatus _ _ c w) as [[c1 w1]|] eqn:E1;
    cbn [bind fst snd]; [|discriminate].
  intros E i. rewrite (IH _ _ _ _ E i).
  destruct (updateDiveStatus_counts _ _ _ _ _ _ E1) as (_ & _ & Hd & _).
  rewrite Hd. clear IH E.
  unfold updateDiveStatus in E1.
  destruct (setFilterStatus _ _ w) as [[ch w2]|] eqn:E2; cbn [bind snd] in E1;
    [|discriminate].
  injection E1 as _ <-.
  destruct (setFilterStatus_flags _ _ _ _ _ E2) as (_ & Hflags).
  cbn [existsb ptr_eqb].
  destruct (existsb (ptr_eqb (Some i)) rest);
    [now rewrite orb_true_r|].
  rewrite orb_false_r, Hflags.
  destruct (Nat.eqb i k) eqn:Eik; [|reflexivity].
  apply Nat.eqb_eq in Eik. subst i.
  rewrite nth_error_map, Hnth. reflexivity.
Qed.

(** X17.  [setFilterStatus] reports a change once: a second call for the
    same dive with the same status reports none and leaves the counter as
    it is. *)
Theorem setFilterStatus_again (d : dive_ptr) (shown changed : bool)
    (w w1 : world) :
  setFilterStatus d shown w = Ok (changed, w1) ->
  exists w2,
    setFilterStatus d shown w1 = Ok (false, w2)
    /\ shown_dives w2 = shown_dives w1
    /\ count_shown (dives w2) = count_shown (dives w1).
Proof.
  intro E. pose proof E as E0. revert E. unfold setFilterStatus.
  destruct d as [i|].
  2:{ intro E. injection E as <- <-. exists w. auto. }
  unfold dive_at. destruct (nth_error (dives w) i) as [dv|] eqn:Hnth;
    cbn [bind]; [|discriminate].
  intro E. injection E as _ Hw1.
  assert (Hflag : nth_error (map hidden_by_filter (dives w1)) i
                  = Some (negb shown)).
  { assert (H1 : nth_error
                   (map hidden_by_filter
                      (dives (set_hidden i (negb shown) w))) i
                 = Some (negb shown)).
    { rewrite nth_error_map. cbn [set_hidden dives].
      rewrite nth_error_set_nth, Nat.eqb_refl, Hnth. reflexivity. }
    rewrite <- Hw1. clear Hw1.
    destruct (xorb _ shown); cbn [set_shown_dives dives];
      destruct (negb shown && selected dv); try exact H1;
      destruct (deselect_keeps i (set_hidden i (negb shown) w))
        as (_ & -> & _); exact H1. }
  rewrite nth_error_map in Hflag.
  destruct (nth_error (dives w1) i) as [dv1|] eqn:Hnth1;
    cbn [option_map] in Hflag; [|discriminate].
  injection Hflag as Hflag. cbn [bind]. rewrite Hflag, negb_involutive.
  rewrite xorb_nilpotent.
  eexists. split; [reflexivity|].
  match goal with
  | |- shown_dives ?x = _ /\ _ =>
      assert (Hx : setFilterStatus (Some i) shown w1 = Ok (false, x))
  end.
  { unfold setFilterStatus, dive_at. rewrite Hnth1. cbn [bind].
    rewrite Hflag, negb_involutive, xorb_nilpotent. reflexivity. }
  destruct (setFilterStatus_counts _ _ _ _ _ Hx) as (Hs & Hc & _).
  cbn [step_of] in Hs, Hc. split; lia.
Qed.

Lemma hidden_at_flags (w w1 : world) (d : dive_ptr) :
  (forall i, d = Some i ->
     nth_error (map hidden_by_filter (dives w1)) i
     = nth_error (map hidden_by_filter (dives w)) i) ->
  hidden_at w1 d = hidden_at w d.
Proof.
  destruct d as [i|]; [|reflexivity]. intro Hi. specialize (Hi i eq_refl).
  rewrite !nth_error_map in Hi. cbn [hidden_at].
  destruct (nth_error (dives w1) i), (nth_error (dives w) i);
    cbn [option_map] in Hi; congruence.
Qed.

(** One call of [updateDiveStatus]: the status of the other dives stays,
    and the dive is reported when its status changed. *)
Lemma updateDiveStatus_reports (d : dive_ptr) (s : bool)
    (c c1 : ShownChange) (w w1 : world) :
  updateDiveStatus d s c w = Ok (c1, w1) ->
  (forall d', d' <> d -> hidden_at w1 d' = hidden_at w d')
  /\ newShown c1
     = newShown c ++ (if hidden_at w d && negb (hidden_at w1 d)
                      then [d] else [])
  /\ newHidden c1
     = newHidden c ++ (if negb (hidden_at w d) && hidden_at w1 d
                       then [d] else []).
Proof.
  unfold updateDiveStatus.
  destruct (setFilterStatus d s w) as [[changed w2]|] eqn:E;
    cbn [bind fst snd]; [|discriminate].
  intro E'. injection E' as <- <-.
  destruct d as [k|].
  2:{ cbn in E. injection E as <- <-. cbn [hidden_at negb andb].
      rewrite !app_nil_r. auto. }
  destruct (setFilterStatus_flags _ _ _ _ _ E) as (Hk & Hflags).
  assert (Hold : changed = xorb (negb (hidden_at w (Some k))) s).
  { revert E. unfold setFilterStatus, dive_at. cbn [hidden_at].
    destruct (nth_error (dives w) k); cbn [bind]; [|discriminate].
    intro E. now injection E as <- _. }
  assert (Hnew : hidden_at w2 (Some k) = negb s).
  { specialize (Hflags k). rewrite Nat.eqb_refl, nth_error_map in Hflags.
    cbn [hidden_at]. destruct (nth_error (dives w2) k);
      cbn [option_map] in Hflags; [congruence|discriminate]. }
  split.
  { intros d' Hd'. apply hidden_at_flags. intros i ->.
    rewrite Hflags. destruct (Nat.eqb i k) eqn:Eik; [|reflexivity].
    apply Nat.eqb_eq in Eik. congruence. }
  rewrite Hnew, Hold.
  destruct (hidden_at w (Some k)), s; cbn [xorb negb andb newShown newHidden];
    rewrite ?app_nil_r; auto.
Qed.

Lemma update_each_reports (newStatus : world -> dive_ptr -> res bool)
    (ds : list dive_ptr) :
  forall (c c' : ShownChange) (w w' : world),
    NoDup ds ->
    update_each newStatus ds c w = Ok (c', w') ->
    (forall d', ~ In d' ds -> hidden_at w' d' = hidden_at w d')
    /\ newShown c'
       = newShown c
         ++ filter (fun d => hidden_at w d && negb (hidden_at w' d)) ds
    /\ newHidden c'
       = newHidden c
         ++ filter (fun d => negb (hidden_at w d) && hidden_at w' d) ds.
Proof.
  induction ds as [|d rest IH]; intros c c' w w' Hnd; cbn [update_each].
  { intro E. injection E as <- <-. cbn [filter]. rewrite !app_nil_r. auto. }
  apply NoDup_cons_iff in Hnd. destruct Hnd as [Hd Hnd].
  destruct (newStatus w d) as [s|]; cbn [bind]; [|discriminate].
  destruct (updateDiveStatus d s c w) as [[c1 w1]|] eqn:E1;
    cbn [bind fst snd]; [|discriminate].
  intro E. destruct (IH _ _ _ _ Hnd E) as (Hframe & Hshown & Hhidden).
  destruct (updateDiveStatus_reports _ _ _ _ _ _ E1)
    as (Hframe1 & Hshown1 & Hhidden1).
  assert (Hrest : forall d', In d' rest -> hidden_at w1 d' = hidden_at w d').
  { intros d' Hin. apply Hframe1. intros ->. contradiction. }
  split; [|split].
  - intros d' Hd'. rewrite Hframe by (intro; apply Hd'; now right).
    apply Hframe1. intros ->. apply Hd'. now left.
  - rewrite Hshown, Hshown1, <- app_assoc. f_equal.
    cbn [filter]. rewrite (Hframe d Hd).
    destruct (hidden_at w d && negb (hidden_at w1 d)); cbn [app];
      [f_equal|]; apply filter_ext_in; intros d' Hin;
      now rewrite (Hrest d' Hin).
  - rewrite Hhidden, Hhidden1, <- app_assoc. f_equal.
    cbn [filter]. rewrite (Hframe d Hd).
    destruct (negb (hidden_at w d) && hidden_at w1 d); cbn [app];
      [f_equal|]; apply filter_ext_in; intros d' Hin;
      now rewrite (Hrest d' Hin).
Qed.

(** X24.  For a vector without repetitions, [update] reports exactly the
    dives whose filter status it changed, in the order of the vector: as
    newly shown those that were hidden before and are shown after, as newly
    hidden those that were shown before and are hidden after.  The status
    of dives outside the vector stays as it was. *)
Theorem update_reports_changed_dives (f : DiveFilter) (ds : list dive_ptr)
    (w w' : world) (c : ShownChange) :
  NoDup ds ->
  update f ds w = Ok (c, w') ->
  newShown c = filter (fun d => hidden_at w d && negb (hidden_at w' d)) ds
  /\ newHidden c
     = filter (fun d => negb (hidden_at w d) && hidden_at w' d) ds
  /\ (forall d, ~ In d ds -> hidden_at w' d = hidden_at w d).
Proof.
  intros Hnd. unfold update.
  match goal with
  | |- bind ?m _ = _ -> _ => destruct m as [[c1 w1]|] eqn:E
  end; cbn [bind]; [|discriminate].
  intro E'. unfold set_currentChanged in E'. cbn [fst snd] in E'.
  injection E' as <- <-. cbn [newShown newHidden].
  destruct (update_each_reports _ _ _ _ _ _ Hnd E) as (Hframe & Hs & Hh).
  cbn [newShown newHidden no_change app] in Hs, Hh. auto.
Qed.

Lemma count_shown_remove_nth (l : list dive) :
  forall (i : nat) (dv : dive),
    nth_error l i = Some dv ->
    count_shown (remove_nth i l)
    = count_shown l - Z.b2z (negb (hidden_by_filter dv)).
Proof.
  unfold count_shown.
  induction l as [|x rest IH]; intros [|i] dv Hnth; cbn [nth_error] in Hnth;
    try discriminate.
  - injection Hnth as ->. cbn [remove_nth filter].
    destruct (hidden_by_filter dv); cbn [negb List.length Z.b2z]; lia.
  - cbn [remove_nth filter]. specialize (IH _ _ Hnth).
    destruct (negb (hidden_by_filter x)); cbn [List.length]; lia.
Qed.

(** X25.  [diveRemoved] keeps the counter in step with the dives that
    remain: the difference between [shown_dives] and the number of shown
    dives is the same before the call and after it with the dive taken
    away.  For [NULL] it fails. *)
Theorem diveRemoved_keeps_count (i : nat) (w w' : world) :
  diveRemoved (Some i) w = Ok w' ->
  dives w' = dives w
  /\ shown_dives w' - count_shown (remove_nth i (dives w'))
     = shown_dives w - count_shown (dives w)
  /\ diveRemoved None w = Fault NullDeref.
Proof.
  unfold diveRemoved, dive_at.
  destruct (nth_error (dives w) i) as [dv|] eqn:Hnth; cbn [bind];
    [|discriminate].
  intro E. injection E as <-.
  assert (Hd : dives (if negb (hidden_by_filter dv)
                      then set_shown_dives (shown_dives w - 1) w else w)
               = dives w)
    by (destruct (negb (hidden_by_filter dv)); reflexivity).
  rewrite Hd. split; [reflexivity|]. split; [|reflexivity].
  rewrite (count_shown_remove_nth _ _ _ Hnth).
  destruct (hidden_by_filter dv); cbn [negb Z.b2z set_shown_dives
    shown_dives]; lia.
Qed.

(** X20.  In dive site mode [update] looks at the dive site only: when
    [deselect_dive] keeps the filter status and the sites of the dives,
    each dive it was given ends up shown exactly when its dive site is one of
    the sites of the filter, and every other dive keeps its status. *)
Theorem update_in_dive_site_mode (f : DiveFilter) (ds : list dive_ptr)
    (w w' : world) (c : ShownChange) :
  diveSiteMode f = true ->
  update f ds w = Ok (c, w') ->
  forall i,
    nth_error (map hidden_by_filter (dives w')) i =
    if existsb (ptr_eqb (Some i)) ds
    then option_map (fun s => negb (contains (dive_sites f) s))
           (nth_error (map dive_site (dives w)) i)
    else nth_error (map hidden_by_filter (dives w)) i.
Proof.
  intros Hmode. unfold update. rewrite Hmode.
  match goal with
  | |- bind ?m _ = _ -> _ => destruct m as [[c1 w1]|] eqn:E
  end; cbn [bind]; [|discriminate].
  intro E'. unfold set_currentChanged in E'. cbn [fst snd] in E'.
  injection E' as _ <-.
  exact (update_each_sites _ _ _ _ _ _ E).
Qed.

End Counter.

Section Status.

Context `{FilterCollaborators}.

(** X18.  [showDive] hides a dive that is invalid unless invalid dives are
    displayed, and otherwise shows it exactly when it matches every
    constraint of the filter: the test for a valid filter changes nothing,
    and the full text query plays no part. *)
Theorem showDive_matches_all_constraints (f : DiveFilter) (w : world)
    (i : nat) (dv : dive) :
  nth_error (dives w) i = Some dv ->
  showDive f w (Some i)
  = Ok (negb (invalid dv && negb (display_invalid_dives w))
        && forallb (fun c => filter_constraint_match_dive c i w)
             (constraints (filterData f))).
Proof.
  intro Hnth. unfold showDive, dive_at. rewrite Hnth. cbn [bind].
  destruct (invalid dv && negb (display_invalid_dives w)); [reflexivity|].
  cbn [negb andb]. unfold validFilter.
  destruct (constraints (filterData f)) as [|c cs].
  - destruct (doit (fullText (filterData f))); reflexivity.
  - now rewrite orb_true_r.
Qed.

(** X19.  [update] reads every dive it is given before [setFilterStatus]
    tests the pointer: in dive site mode, and without a full text query,
    a vector with a [NULL] makes it fail, though [setFilterStatus] itself
    takes a [NULL] and reports no change. *)
Theorem update_reads_before_null_check (f : DiveFilter)
    (ds : list dive_ptr) (w : world) :
  diveSiteMode f = true \/ doit (fullText (filterData f)) = false ->
  In None ds ->
  (forall shown, setFilterStatus None shown w = Ok (false, w))
  /\ ~ is_ok (update f ds w).
Proof.
  intros Hmode Hin. split; [reflexivity|].
  intros [[c w'] E]. revert E. unfold update.
  match goal with
  | |- bind ?m _ = _ -> _ => destruct m as [r|] eqn:E
  end; cbn [bind]; [|discriminate].
  intros _. revert E. generalize no_change. revert w.
  induction ds as [|d rest IH]; [destruct Hin|]. intros w0 c0.
  cbn [update_each]. destruct Hin as [->|Hin].
  - destruct Hmode as [-> | ->].
    + cbn [site_status dive_at bind]. discriminate.
    + destruct (diveSiteMode f); cbn [site_status showDive dive_at bind];
        discriminate.
  - match goal with
    | |- bind ?m _ = _ -> _ => destruct m as [s|]
    end; cbn [bind]; [|discriminate].
    destruct (updateDiveStatus d s c0 w0) as [[c1 w1]|]; cbn [bind fst snd];
      [|discriminate].
    exact (IH Hin w1 c1).
Qed.

End Status.

(** ** The dive site mode *)

Lemma insert_perm (x : Z) (l : list Z) : Permutation (x :: l) (insert x l).
Proof.
  induction l as [|y rest IH]; cbn [insert]; [reflexivity|].
  destruct (x <=? y); [reflexivity|].
  rewrite perm_swap. now constructor.
Qed.

Lemma sort_perm (l : list Z) : Permutation l (sort l).
Proof.
  induction l as [|x rest IH]; cbn [sort]; [constructor|].
  rewrite <- insert_perm. now constructor.
Qed.

Lemma insert_sorted (x : Z) (l : list Z) :
  StronglySorted Z.le l -> StronglySorted Z.le (insert x l).
Proof.
  induction 1 as [|y rest Hs IH Hy]; cbn [insert].
  { repeat constructor. }
  destruct (x <=? y) eqn:E.
  - apply Z.leb_le in E. constructor; [now constructor|].
    constructor; [assumption|].
    revert Hy. apply Forall_impl. intros. lia.
  - apply Z.leb_gt in E. constructor; [assumption|].
    apply (Permutation_Forall (insert_perm x rest)).
    constructor; [lia|assumption].
Qed.

Lemma sort_sorted (l : list Z) : StronglySorted Z.le (sort l).
Proof.
  induction l as [|x rest IH]; cbn [sort]; [constructor|].
  now apply insert_sorted.
Qed.

Lemma sorted_perm_eq (l1 : list Z) :
  forall l2 : list Z,
    StronglySorted Z.le l1 -> StronglySorted Z.le l2 ->
    Permutation l1 l2 -> l1 = l2.
Proof.
  induction l1 as [|x l1 IH]; intros l2 H1 H2 Hp.
  { apply Permutation_nil in Hp. now subst. }
  destruct l2 as [|y l2].
  { apply Permutation_sym, Permutation_nil in Hp. discriminate. }
  apply StronglySorted_inv in H1. destruct H1 as [H1 Hx].
  apply StronglySorted_inv in H2. destruct H2 as [H2 Hy].
  assert (Hxy : x = y).
  { rewrite Forall_forall in Hx, Hy.
    assert (Hle1 : x <= y).
    { assert (Hin : In y (x :: l1))
        by (apply (Permutation_in _ (Permutation_sym Hp)); now left).
      destruct Hin as [->|Hin]; [lia|auto]. }
    assert (Hle2 : y <= x).
    { assert (Hin : In x (y :: l2))
        by (apply (Permutation_in _ Hp); now left).
      destruct Hin as [->|Hin]; [lia|auto]. }
    lia. }
  subst y. f_equal. apply IH; try assumption.
  exact (Permutation_cons_inv Hp).
Qed.

Lemma sort_permutation_invariant (l l' : list Z) :
  Permutation l l' -> sort l = sort l'.
Proof.
  intro Hp. apply sorted_perm_eq; try apply sort_sorted.
  rewrite <- (sort_perm l), <- (sort_perm l'). exact Hp.
Qed.

Lemma sites_eqb_eq (a : list Z) :
  forall b, sites_eqb a b = true <-> a = b.
Proof.
  induction a as [|x a IH]; intros [|y b]; cbn [sites_eqb];
    try (split; [discriminate|discriminate]); [tauto|].
  rewrite andb_true_iff, Z.eqb_eq, IH. split.
  - intros [-> ->]. reflexivity.
  - intro E. injection E as -> ->. auto.
Qed.

Section DiveSites.

Context `{FilterCollaborators}.

(** X21.  After [setFilterDiveSite] the sites of the filter are the given
    sites in ascending order, whatever order they were given in.  The call
    signals a reset of the filter and updates the map exactly when that
    changes the sites, so that a second call with the same sites in any
    order does nothing at all.  The counter of the dive site mode is left
    alone. *)
Theorem setFilterDiveSite_sorts (f : DiveFilter) (ds : list Z) :
  let r := setFilterDiveSite ds f in
  dive_sites (fst r) = sort ds
  /\ StronglySorted Z.le (dive_sites (fst r))
  /\ Permutation ds (dive_sites (fst r))
  /\ (snd r = [] <-> dive_sites f = sort ds)
  /\ (forall ds', Permutation ds ds' ->
        setFilterDiveSite ds' (fst r) = (fst r, []))
  /\ diveSiteRefCount (fst r) = diveSiteRefCount f
  /\ filterData (fst r) = filterData f.
Proof.
  intro r. subst r. unfold setFilterDiveSite. cbv zeta.
  assert (Hsites : dive_sites
                     (fst (if sites_eqb (sort ds) (dive_sites f)
                           then (f, [])
                           else (set_dive_sites (sort ds) f,
                                 [FilterReset; MapSetSelected (sort ds);
                                  MapSelectionChanged; ExpandAll])))
                   = sort ds).
  { destruct (sites_eqb (sort ds) (dive_sites f)) eqn:E; [|reflexivity].
    apply sites_eqb_eq in E. now rewrite E. }
  split; [exact Hsites|]. rewrite Hsites.
  split; [apply sort_sorted|]. split; [apply sort_perm|].
  split; [|split; [|split]].
  - destruct (sites_eqb (sort ds) (dive_sites f)) eqn:E; cbn [snd].
    + apply sites_eqb_eq in E. split; auto.
    + split; [discriminate|]. intro E'. symmetry in E'.
      apply sites_eqb_eq in E'. congruence.
  - intros ds' Hp. rewrite <- (sort_permutation_invariant _ _ Hp).
    assert (Hrefl : sites_eqb (sort ds) (sort ds) = true)
      by now apply sites_eqb_eq.
    now rewrite Hrefl.
  - destruct (sites_eqb (sort ds) (dive_sites f)); reflexivity.
  - destruct (sites_eqb (sort ds) (dive_sites f)); reflexivity.
Qed.

Lemma start_sets (f : DiveFilter) (ds : list Z) :
  let g := fst (startFilterDiveSites ds f) in
  diveSiteRefCount g = diveSiteRefCount f + 1
  /\ dive_sites g = sort ds.
Proof.
  unfold startFilterDiveSites. cbv zeta. cbn [set_diveSiteRefCount
    diveSiteRefCount].
  destruct (diveSiteRefCount f + 1 >? 1); [|split; reflexivity].
  unfold setFilterDiveSite. cbv zeta.
  destruct (sites_eqb (sort ds) _) eqn:E; [|split; reflexivity].
  apply sites_eqb_eq in E. split; [reflexivity|]. now rewrite E.
Qed.

Lemma stop_sets (f : DiveFilter) :
  let g := fst (stopFilterDiveSites f) in
  diveSiteRefCount g = diveSiteRefCount f - 1
  /\ dive_sites g = if diveSiteRefCount f >? 1 then dive_sites f else [].
Proof.
  unfold stopFilterDiveSites. cbv zeta. cbn [set_diveSiteRefCount
    diveSiteRefCount].
  destruct (diveSiteRefCount f - 1 >? 0) eqn:E;
    destruct (diveSiteRefCount f >? 1) eqn:E';
    first [apply Zgtb_gt in E|apply Zgtb_le in E];
    first [apply Zgtb_gt in E'|apply Zgtb_le in E'];
    try lia; split; reflexivity.
Qed.

Lemma starts_counts (dss : list (list Z)) :
  forall f : DiveFilter,
    diveSiteRefCount (starts dss f)
    = diveSiteRefCount f + Z.of_nat (List.length dss)
    /\ (dss <> [] -> dive_sites (starts dss f) = sort (last dss [])).
Proof.
  unfold starts.
  induction dss as [|ds rest IH]; intro f; cbn [fold_left List.length].
  { split; [lia|congruence]. }
  destruct (IH (fst (startFilterDiveSites ds f))) as (Hc & Hs).
  destruct (start_sets f ds) as (Hc1 & Hs1). cbv zeta in Hc1, Hs1.
  split; [lia|]. intros _.
  destruct rest as [|ds' rest']; [exact Hs1|].
  rewrite Hs by discriminate. reflexivity.
Qed.

Lemma stops_counts (n : nat) :
  forall f : DiveFilter,
    Z.of_nat n <= diveSiteRefCount f ->
    diveSiteRefCount (stops n f) = diveSiteRefCount f - Z.of_nat n
    /\ dive_sites (stops n f)
       = if (Z.of_nat n <? diveSiteRefCount f) || Nat.eqb n 0
         then dive_sites f else [].
Proof.
  unfold stops.
  induction n as [|n IH]; intros f Hn.
  { cbn [Nat.iter nat_rect]. rewrite orb_true_r. split; [lia|reflexivity]. }
  destruct (IH f ltac:(lia)) as (Hc & Hs).
  destruct (stop_sets (Nat.iter n (fun g => fst (stopFilterDiveSites g)) f))
    as (Hc1 & Hs1).
  cbv zeta in Hc1, Hs1.
  change (Nat.iter (S n) (fun g => fst (stopFilterDiveSites g)) f)
    with (fst (stopFilterDiveSites
                 (Nat.iter n (fun g => fst (stopFilterDiveSites g)) f))).
  rewrite Hc1, Hs1, Hc, Hs. split; [lia|].
  cbn [Nat.eqb]. rewrite orb_false_r.
  destruct (Z.of_nat (S n) <? diveSiteRefCount f) eqn:E1.
  - apply Z.ltb_lt in E1.
    assert (E2 : (diveSiteRefCount f - Z.of_nat n >? 1) = true)
      by (apply Zgtb_gt; lia).
    assert (E3 : (Z.of_nat n <? diveSiteRefCount f) = true)
      by (apply Z.ltb_lt; lia).
    now rewrite E2, E3.
  - apply Z.ltb_ge in E1.
    assert (E2 : (diveSiteRefCount f - Z.of_nat n >? 1) = false)
      by (apply Zgtb_le; lia).
    now rewrite E2.
Qed.

(** X22.  The dive site mode counts its users.  From a counter that is
    not negative, a start for each of some vectors of sites switches the mode
    on, with the sites of the last start in ascending order; as many stops
    bring the counter back, and when it started at zero they switch the mode
    off and clear the sites, while at a positive counter the sites of the last
    start stay. *)
Theorem dive_site_mode_counts_users (f : DiveFilter) (dss : list (list Z)) :
  0 <= diveSiteRefCount f ->
  dss <> [] ->
  let g := starts dss f in
  let h := stops (List.length dss) g in
  diveSiteMode g = true
  /\ dive_sites g = sort (last dss [])
  /\ diveSiteRefCount h = diveSiteRefCount f
  /\ (diveSiteRefCount f = 0 -> diveSiteMode h = false /\ dive_sites h = [])
  /\ (0 < diveSiteRefCount f ->
      diveSiteMode h = true /\ dive_sites h = dive_sites g).
Proof.
  intros Hf Hdss g h.
  destruct (starts_counts dss f) as (Hgc & Hgs). fold g in Hgc, Hgs.
  assert (Hlen : 0 < Z.of_nat (List.length dss))
    by (destruct dss; [contradiction|cbn [List.length]; lia]).
  destruct (stops_counts (List.length dss) g ltac:(lia)) as (Hhc & Hhs).
  fold h in Hhc, Hhs.
  assert (Hn0 : Nat.eqb (List.length dss) 0 = false)
    by (destruct dss; [contradiction|reflexivity]).
  rewrite Hn0, orb_false_r in Hhs.
  unfold diveSiteMode.
  split; [apply Zgtb_gt; lia|]. split; [now apply Hgs|].
  split; [lia|]. split.
  - intro H0. split; [apply Zgtb_le; lia|].
    rewrite Hhs.
    assert (E : (Z.of_nat (List.length dss) <? diveSiteRefCount g) = false)
      by (apply Z.ltb_ge; lia).
    now rewrite E.
  - intro Hpos. split; [apply Zgtb_gt; lia|].
    rewrite Hhs.
    assert (E : (Z.of_nat (List.length dss) <? diveSiteRefCount g) = true)
      by (apply Z.ltb_lt; lia).
    now rewrite E.
Qed.

(** X23.  A stop without a start leaves the counter of the dive site
    mode negative.  The start that follows sets the sites of the filter,
    reloads the map and signals a reset, but the counter only comes back to
    zero and the mode stays off. *)
Theorem stop_before_start (f : DiveFilter) (ds : list Z) :
  diveSiteRefCount f = 0 ->
  let g := fst (stopFilterDiveSites f) in
  let r := startFilterDiveSites ds g in
  diveSiteRefCount g = -1
  /\ dive_sites (fst r) = sort ds
  /\ snd r = [MapReload; FilterReset]
  /\ diveSiteRefCount (fst r) = 0
  /\ diveSiteMode (fst r) = false.
Proof.
  intros Hf g r. subst r g.
  unfold stopFilterDiveSites, startFilterDiveSites, diveSiteMode.
  cbv zeta. cbn [set_diveSiteRefCount diveSiteRefCount]. rewrite Hf.
  cbn [Z.sub Z.add Z.opp Z.gtb Z.compare Z.pos_sub fst snd set_dive_sites
       set_diveSiteRefCount diveSiteRefCount dive_sites].
  repeat split.
Qed.

End DiveSites.

End FilterProperties.

(** * The further properties on concrete inputs *)

Module MoreExamples.

Import Reference.

(** X2, witness. *)
Lemma diveplan_duration_permutation_witness :
  diveplan_duration (plan_of square_plan)
  = diveplan_duration (plan_of (rev square_plan)).
Proof.
  apply diveplan_duration_permutation. cbn [dp plan_of].
  apply Permutation_rev.
Defined.

Lemma square_plan_reaches_full_report :
  reaches_full_report (plan_of square_plan) 0.
Proof. repeat split; [discriminate|cbn; lia]. Defined.

(** X3, witness. *)
Lemma collapsed_rows_follow_waypoints_witness :
  exists o b ps,
    add_plan_to_notes gl0 prefs0 "today" (plan_of square_plan)
      (dive_of [bottom_tank]) false 0 = Ok o
    /\ notes (out_dive o) = Some b
    /\ filter is_verbatim_line b = []
    /\ filter is_switch_gas b = []
    /\ subsequence ps square_plan
    /\ Forall (fun p => time p <> 0) ps
    /\ Forall2 (is_row_of prefs0 get_depth_units) (filter is_leg_row b) ps.
Proof.
  pose proof (collapsed_rows_follow_waypoints gl0 prefs0 "today"
                (plan_of square_plan) (dive_of [bottom_tank]) false 0)
    as Hthm.
  destruct (add_plan_to_notes gl0 prefs0 "today" (plan_of square_plan)
              (dive_of [bottom_tank]) false 0) as [o|f] eqn:E.
  - destruct (Hthm o eq_refl square_plan_reaches_full_report eq_refl)
      as (b & ps & Hb).
    exists o, b, ps. split; [reflexivity|exact Hb].
  - vm_compute in E. discriminate E.
Defined.

(** X4, witness. *)
Lemma verbatim_lines_follow_waypoints_witness :
  exists o b ps,
    add_plan_to_notes gl0 (verbatim prefs0) "today" (plan_of square_plan)
      (dive_of [bottom_tank]) false 0 = Ok o
    /\ notes (out_dive o) = Some b
    /\ filter is_leg_row b = []
    /\ (List.length (filter is_switch_gas b)
        <= nonzero_waypoints square_plan)%nat
    /\ subsequence ps square_plan
    /\ Forall (fun p => time p <> 0) ps
    /\ Forall2 (is_line_of FRACTION get_depth_units)
         (filter is_verbatim_line b) ps.
Proof.
  pose proof (verbatim_lines_follow_waypoints gl0 (verbatim prefs0) "today"
                (plan_of square_plan) (dive_of [bottom_tank]) false 0)
    as Hthm.
  destruct (add_plan_to_notes gl0 (verbatim prefs0) "today"
              (plan_of square_plan) (dive_of [bottom_tank]) false 0)
    as [o|f] eqn:E.
  - destruct (Hthm o eq_refl square_plan_reaches_full_report eq_refl)
      as (b & ps & Hb).
    exists o, b, ps. split; [reflexivity|exact Hb].
  - vm_compute in E. discriminate E.
Defined.

Lemma square_plan_sorted :
  StronglySorted (fun p q => time p <= time q)
    (filter (fun p => Zneqb (time p) 0) (dp (plan_of square_plan))).
Proof. cbn. repeat constructor; cbn; lia. Defined.

(** X5, witness. *)
Lemma runtime_column_nondecreasing_witness :
  exists o b,
    add_plan_to_notes gl0 prefs0 "today" (plan_of square_plan)
      (dive_of [bottom_tank]) false 0 = Ok o
    /\ notes (out_dive o) = Some b
    /\ StronglySorted Z.le (row_runtimes b).
Proof.
  pose proof (runtime_column_nondecreasing gl0 prefs0 "today"
                (plan_of square_plan) (dive_of [bottom_tank]) false 0)
    as Hthm.
  destruct (add_plan_to_notes gl0 prefs0 "today" (plan_of square_plan)
              (dive_of [bottom_tank]) false 0) as [o|f] eqn:E.
  - destruct (Hthm o square_plan_reaches_full_report square_plan_sorted
                eq_refl) as (b & Hb).
    exists o, b. split; [reflexivity|exact Hb].
  - vm_compute in E. discriminate E.
Defined.

(** X6, witness. *)
Lemma rows_within_duration_witness :
  exists o b,
    add_plan_to_notes gl0 prefs0 "today" (plan_of square_plan)
      (dive_of [bottom_tank]) false 0 = Ok o
    /\ notes (out_dive o) = Some b
    /\ (exists v, In (RuntimeLine (diveplan_duration (plan_of square_plan)) v)
                    b)
    /\ Forall (fun t => t <= diveplan_duration (plan_of square_plan))
         (row_runtimes b).
Proof.
  pose proof (rows_within_duration gl0 prefs0 "today"
                (plan_of square_plan) (dive_of [bottom_tank]) false 0)
    as Hthm.
  destruct (add_plan_to_notes gl0 prefs0 "today" (plan_of square_plan)
              (dive_of [bottom_tank]) false 0) as [o|f] eqn:E.
  - destruct (Hthm o square_plan_reaches_full_report eq_refl) as (b & Hb).
    exists o, b. split; [reflexivity|exact Hb].
  - vm_compute in E. discriminate E.
Defined.


(** X8, witness. *)
Lemma one_line_for_each_cylinder_in_use_witness :
  exists o b,
    add_plan_to_notes gl0 prefs0 "today" (plan_of square_plan)
      (dive_of [bottom_tank]) false 0 = Ok o
    /\ notes (out_dive o) = Some b
    /\ map cl_gas (consumption_lines b)
       = map cyl_gasmix
           (cylinders_in_use cylinder_none
              (cylinder (recompute_statistics (dive_of [bottom_tank])))).
Proof.
  pose proof (one_line_for_each_cylinder_in_use gl0 prefs0 "today"
                (plan_of square_plan) (dive_of [bottom_tank]) false 0)
    as Hthm.
  destruct (add_plan_to_notes gl0 prefs0 "today" (plan_of square_plan)
              (dive_of [bottom_tank]) false 0) as [o|f] eqn:E.
  - destruct (Hthm o square_plan_reaches_full_report eq_refl)
      as (b & Hb & Hgas & _).
    exists o, b. split; [reflexivity|]. split; [exact Hb|exact Hgas].
  - vm_compute in E. discriminate E.
Defined.

Lemma ascent_switch_plan_reaches_full_report :
  reaches_full_report (plan_of ascent_switch_plan) 0.
Proof. repeat split; [discriminate|cbn; lia]. Defined.

(** X9, witness. *)
Lemma icd_section_of_report_witness :
  exists o b es,
    add_plan_to_notes gl0 prefs0 "today" (plan_of ascent_switch_plan)
      (dive_of trimix_tanks) false 0 = Ok o
    /\ notes (out_dive o) = Some b
    /\ filter is_icd_chunk b =
       [IcdTable (IcdHeader :: map IcdRow es)]
       ++ (if existsb icd_violation es then [IcdWarning] else [])
       ++ [IcdSectionEnd].
Proof.
  pose proof (icd_section_of_report gl0 prefs0 "today"
                (plan_of ascent_switch_plan) (dive_of trimix_tanks) false 0)
    as Hthm.
  destruct (add_plan_to_notes gl0 prefs0 "today"
              (plan_of ascent_switch_plan) (dive_of trimix_tanks) false 0)
    as [o|f] eqn:E.
  - destruct (Hthm o ascent_switch_plan_reaches_full_report eq_refl)
      as (b & Hb & _ & Htable).
    destruct (Htable eq_refl) as (es & Hes).
    exists o, b, es. split; [reflexivity|]. split; [exact Hb|exact Hes].
  - vm_compute in E. discriminate E.
Defined.

(** X10, witness. *)
Lemma po2_section_of_report_witness :
  exists o b,
    add_plan_to_notes gl0 prefs0 "today" (plan_of square_plan)
      (dive_of [bottom_tank]) false 0 = Ok o
    /\ notes (out_dive o) = Some b
    /\ (List.length (filter is_po2_warning_chunk b)
        <= nonzero_waypoints square_plan)%nat.
Proof.
  pose proof (po2_section_of_report prefs0 gl0 "today"
                (plan_of square_plan) (dive_of [bottom_tank]) false 0)
    as Hthm.
  destruct (add_plan_to_notes gl0 prefs0 "today" (plan_of square_plan)
              (dive_of [bottom_tank]) false 0) as [o|f] eqn:E.
  - destruct (Hthm o square_plan_reaches_full_report eq_refl)
      as (b & Hb & _ & Hlen & _).
    exists o, b. split; [reflexivity|]. split; [exact Hb|exact Hlen].
  - vm_compute in E. discriminate E.
Defined.

(** X11, witness: a plan whose only waypoint has no time and names a
    cylinder the dive does not have. *)
Lemma plan_without_times_witness :
  exists o b,
    add_plan_to_notes gl0 prefs0 "today" (plan_of [mkDp 0 10000 5 0 true])
      (dive_of [bottom_tank]) false 0 = Ok o
    /\ notes (out_dive o) = Some b
    /\ is_full_report (notes (out_dive o)) = true
    /\ filter is_loop_chunk b = []
    /\ filter is_po2_chunk b = []
    /\ (exists v, In (RuntimeLine 0 v) b)
    /\ out_minimum_gas o = None.
Proof.
  apply (plan_without_times gl0 prefs0 "today" (plan_of [mkDp 0 10000 5 0 true])
           (dive_of [bottom_tank]) false 0).
  - repeat split; [discriminate|cbn; lia].
  - repeat constructor.
Defined.


(** X13, witness. *)
Lemma icd_red_exceeds_printed_limit_witness :
  let e := add_icd_entry (mkIcd 12 (-50)) 1500 3100 tx2135 ean50 in
  (icd_dN2_color e = Red <-> (icd_max_dN2_pct e < icd_dN2_pct e)%Q)
  /\ (icd_dN2_bar_color e = Red <-> (icd_max_dN2_bar e < icd_dN2_bar e)%Q).
Proof.
  apply (icd_red_exceeds_printed_limit (mkIcd 12 (-50)) 1500 3100 tx2135
           ean50).
  lia.
Defined.

(** X26, witness. *)
Lemma report_layout_witness :
  exists o head table mid cyls icd po2,
    add_plan_to_notes gl0 prefs0 "today" (plan_of square_plan)
      (dive_of [bottom_tank]) false 0 = Ok o
    /\ notes (out_dive o)
       = Some (head ++ table ++ mid ++ cyls ++ icd ++ po2 ++ [ReportEnd])
    /\ Forall (fun c => is_frame_chunk c = true) head
    /\ Forall (fun c => is_loop_chunk c = true) table
    /\ Forall (fun c => is_frame_chunk c = true) mid
    /\ Forall (fun c => is_consumption c = true) cyls
    /\ Forall (fun c => is_icd_chunk c = true) icd
    /\ Forall (fun c => is_po2_chunk c = true) po2.
Proof.
  pose proof (report_layout gl0 prefs0 "today" (plan_of square_plan)
                (dive_of [bottom_tank]) false 0) as Hthm.
  destruct (add_plan_to_notes gl0 prefs0 "today" (plan_of square_plan)
              (dive_of [bottom_tank]) false 0) as [o|f] eqn:E.
  - destruct (Hthm o square_plan_reaches_full_report eq_refl)
      as (head & table & mid & cyls & icd & po2 & H1 & H2 & H3 & H4 & H5
          & H6 & H7 & _).
    exists o, head, table, mid, cyls, icd, po2.
    split; [reflexivity|]. auto 10.
  - vm_compute in E. discriminate E.
Defined.

End MoreExamples.

Module FilterExamples.

Import Filter.
Import FilterReference.

Lemma deselect_keeps_filter_status : keeps_filter_status deselect_dive.
Proof.
  intros i w. cbn [deselect_dive collaborators deselect shown_dives dives
    dive_table].
  repeat split; apply FilterProperties.map_set_nth_same; reflexivity.
Defined.

(** X14, witness. *)
Lemma update_counts_changes_witness :
  exists c w',
    update site_filter [Some 0%nat; Some 1%nat] three_dives = Ok (c, w')
    /\ shown_dives w' = shown_dives three_dives + changes c
    /\ count_shown (dives w') = count_shown (dives three_dives) + changes c
    /\ shown_dives w' - count_shown (dives w')
       = shown_dives three_dives - count_shown (dives three_dives).
Proof.
  pose proof (FilterProperties.update_counts_changes
                deselect_keeps_filter_status site_filter
                [Some 0%nat; Some 1%nat] three_dives) as Hthm.
  destruct (update site_filter [Some 0%nat; Some 1%nat] three_dives)
    as [[c w']|f] eqn:E.
  - exists c, w'. split; [reflexivity|]. exact (Hthm w' c eq_refl).
  - vm_compute in E. discriminate E.
Defined.

(** X15, witness. *)
Lemma updateAll_counts_changes_witness :
  exists c w',
    updateAll constraint_filter three_dives = Ok (c, w')
    /\ shown_dives w' = changes c
    /\ shown_dives w'
       = count_shown (dives w') - count_shown (dives three_dives).
Proof.
  pose proof (FilterProperties.updateAll_counts_changes
                deselect_keeps_filter_status constraint_filter three_dives)
    as Hthm.
  destruct (updateAll constraint_filter three_dives) as [[c w']|f] eqn:E.
  - exists c, w'. split; [reflexivity|].
    destruct (Hthm w' c eq_refl) as (H1 & H2 & _). split; assumption.
  - vm_compute in E. discriminate E.
Defined.

Lemma three_dives_complete : table_complete three_dives.
Proof.
  intros i Hi. cbn in Hi. cbn [dive_table three_dives In].
  assert (Hi3 : (i = 0 \/ i = 1 \/ i = 2)%nat) by lia.
  destruct Hi3 as [-> | [-> | ->]]; auto.
Defined.

(** X16, witness. *)
Lemma reset_leaves_hidden_count_witness :
  exists w',
    reset constraint_filter three_dives = Ok w'
    /\ shown_dives w' = - count_hidden (dives w')
    /\ shown_dives w' <= 0.
Proof.
  pose proof (FilterProperties.reset_leaves_hidden_count
                deselect_keeps_filter_status constraint_filter three_dives)
    as Hthm.
  destruct (reset constraint_filter three_dives) as [w'|f] eqn:E.
  - exists w'. split; [reflexivity|].
    destruct (Hthm w' three_dives_complete eq_refl) as (H1 & H2 & _).
    split; assumption.
  - vm_compute in E. discriminate E.
Defined.

(** X17, witness. *)
Lemma setFilterStatus_again_witness :
  exists changed w1 w2,
    setFilterStatus (Some 0%nat) false three_dives = Ok (changed, w1)
    /\ setFilterStatus (Some 0%nat) false w1 = Ok (false, w2)
    /\ shown_dives w2 = shown_dives w1.
Proof.
  pose proof (FilterProperties.setFilterStatus_again
                deselect_keeps_filter_status (Some 0%nat) false) as Hthm.
  destruct (setFilterStatus (Some 0%nat) false three_dives)
    as [[changed w1]|f] eqn:E.
  - destruct (Hthm changed three_dives w1 E) as (w2 & H1 & H2 & _).
    exists changed, w1, w2. split; [reflexivity|]. split; assumption.
  - vm_compute in E. discriminate E.
Defined.

(** X18, witness. *)
Lemma showDive_matches_all_constraints_witness :
  showDive constraint_filter three_dives (Some 2%nat)
  = Ok (negb (true && negb false)
        && forallb
             (fun c => filter_constraint_match_dive c 2%nat three_dives)
             [100]).
Proof.
  exact (FilterProperties.showDive_matches_all_constraints constraint_filter
           three_dives 2 (mkDive false false true 100) eq_refl).
Defined.

(** X19, witness. *)
Lemma update_reads_before_null_check_witness :
  (forall shown, setFilterStatus None shown three_dives
                 = Ok (false, three_dives))
  /\ ~ is_ok (update site_filter [Some 0%nat; None] three_dives).
Proof.
  apply (FilterProperties.update_reads_before_null_check site_filter
           [Some 0%nat; None] three_dives).
  - left. reflexivity.
  - right. left. reflexivity.
Defined.

(** X20, witness. *)
Lemma update_in_dive_site_mode_witness :
  exists c w',
    update site_filter [Some 0%nat; Some 1%nat] three_dives = Ok (c, w')
    /\ map hidden_by_filter (dives w') = [true; false; false].
Proof.
  pose proof (FilterProperties.update_in_dive_site_mode
                deselect_keeps_filter_status site_filter
                [Some 0%nat; Some 1%nat] three_dives) as Hthm.
  destruct (update site_filter [Some 0%nat; Some 1%nat] three_dives)
    as [[c w']|f] eqn:E.
  - exists c, w'. split; [reflexivity|].
    specialize (Hthm w' c eq_refl eq_refl).
    pose proof (Hthm 0%nat) as H0. pose proof (Hthm 1%nat) as H1.
    pose proof (Hthm 2%nat) as H2. pose proof (Hthm 3%nat) as H3.
    cbn in H0, H1, H2, H3.
    destruct (map hidden_by_filter (dives w')) as [|a [|b [|c0 [|e l]]]];
      try discriminate.
    cbn in H0, H1, H2. congruence.
  - vm_compute in E. discriminate E.
Defined.

(** X22, witness. *)
Lemma dive_site_mode_counts_users_witness :
  let g := starts [[300; 100]; [200; 100]] constraint_filter in
  let h := stops 2 g in
  diveSiteMode g = true
  /\ dive_sites g = [100; 200]
  /\ diveSiteRefCount h = 0
  /\ diveSiteMode h = false
  /\ dive_sites h = [].
Proof.
  intros g h.
  destruct (FilterProperties.dive_site_mode_counts_users constraint_filter
              [[300; 100]; [200; 100]])
    as (H1 & H2 & H3 & H4 & _).
  - cbn. lia.
  - discriminate.
  - destruct (H4 eq_refl) as (H5 & H6). auto 10.
Defined.

(** X23, witness. *)
Lemma stop_before_start_witness :
  let g := fst (stopFilterDiveSites constraint_filter) in
  let r := startFilterDiveSites [200; 100] g in
  diveSiteRefCount g = -1
  /\ dive_sites (fst r) = [100; 200]
  /\ snd r = [MapReload; FilterReset]
  /\ diveSiteRefCount (fst r) = 0
  /\ diveSiteMode (fst r) = false.
Proof.
  exact (FilterProperties.stop_before_start constraint_filter [200; 100]
           eq_refl).
Defined.

(** X24, witness. *)
Lemma update_reports_changed_dives_witness :
  exists c w',
    update site_filter [Some 0%nat; Some 1%nat] three_dives = Ok (c, w')
    /\ newShown c
       = filter (fun d => hidden_at three_dives d && negb (hidden_at w' d))
           [Some 0%nat; Some 1%nat]
    /\ newHidden c
       = filter (fun d => negb (hidden_at three_dives d) && hidden_at w' d)
           [Some 0%nat; Some 1%nat].
Proof.
  pose proof (FilterProperties.update_reports_changed_dives
                deselect_keeps_filter_status site_filter
                [Some 0%nat; Some 1%nat] three_dives) as Hthm.
  destruct (update site_filter [Some 0%nat; Some 1%nat] three_dives)
    as [[c w']|f] eqn:E.
  - exists c, w'. split; [reflexivity|].
    assert (Hnd : NoDup [Some 0%nat; Some 1%nat]).
    { repeat constructor; cbn; intuition discriminate. }
    destruct (Hthm w' c Hnd eq_refl) as (H1 & H2 & _). split; assumption.
  - vm_compute in E. discriminate E.
Defined.

(** X25, witness. *)
Lemma diveRemoved_keeps_count_witness :
  exists w',
    diveRemoved (Some 0%nat) three_dives = Ok w'
    /\ shown_dives w' - count_shown (remove_nth 0 (dives w'))
       = shown_dives three_dives - count_shown (dives three_dives).
Proof.
  pose proof (FilterProperties.diveRemoved_keeps_count 0 three_dives)
    as Hthm.
  destruct (diveRemoved (Some 0%nat) three_dives) as [w'|f] eqn:E.
  - exists w'. split; [reflexivity|].
    exact (proj1 (proj2 (Hthm w' eq_refl))).
  - vm_compute in E. discriminate E.
Defined.

End FilterExamples.
